(** * Rate-limited API gateway: token buckets, circuit breakers, proxy

    A shallow embedding of the control path of the gateway
    (rate_limiter.py, circuit_breaker.py, router.py, middleware.py and the
    proxy handler of main.py) together with the properties its
    specification states about it.

    Modelling conventions.
    - Python [float] values (token counts, rates, timestamps, latencies)
      are exact rationals [Q]; Python [int] values are [Z].
    - [time.monotonic()] and [time.time()] are not functions of the state:
      every reading the code takes is an explicit argument of the embedded
      operation, named after the place where the code takes it.
    - A method that mutates [self] takes the object and returns the new
      object next to its result; a raised exception is the [Raise] case of
      [result], and the state returned with it holds the mutations made
      before the exception.
    - [dict]s keyed by strings are [gmap string _]. *)

From Stdlib Require Import QArith Qround Qminmax Lqa ZArith Lia Ascii String.
From Stdlib Require Import Sorted.
From stdpp Require Import base option strings gmap fin_maps list pretty.

Set Default Proof Using "Type".

(** ** Python values *)

Module Py.

(** Exceptions of the embedded code. *)
Inductive exn : Type :=
| KeyError
| ZeroDivisionError
| RuntimeError (msg : string)
| ValueError (msg : string)
| CircuitOpenError (reason : string)
| UpstreamTimeoutError (msg : string)
| UpstreamConnectionError (msg : string)
| HTTPException (status_code : Z) (detail : string)
| ClientError (name : string).

Inductive result (A : Type) : Type :=
| Ok (a : A)
| Raise (e : exn).
Arguments Ok {A} a.
Arguments Raise {A} e.

Definition is_ok {A} (r : result A) : bool :=
  match r with Ok _ => true | Raise _ => false end.

(** [int(x)] on a float: truncation toward zero. *)
Definition int (x : Q) : Z := Z.quot (Qnum x) (Zpos (Qden x)).

(** [str(n)] on an int. *)
Definition str (n : Z) : string := pretty n.

(** [a <= b] and [a < b] on floats, as booleans. *)
Definition leb (a b : Q) : bool := Qle_bool a b.
Definition ltb (a b : Q) : bool := negb (Qle_bool b a).

(** [min(a, b)]: the first of the smallest arguments. *)
Definition min (a b : Q) : Q := if ltb b a then b else a.

(** [max(a, b)]: the first of the largest arguments. *)
Definition max (a b : Q) : Q := if ltb a b then b else a.

(** [a / b] on floats. *)
Definition div (a b : Q) : result Q :=
  if Qeq_bool b 0 then Raise ZeroDivisionError else Ok (a / b)%Q.

(** [s.lower()] on ASCII text. *)
Definition lower_ascii (c : ascii) : ascii :=
  let n := nat_of_ascii c in
  if (Nat.leb 65 n && Nat.leb n 90)%bool then ascii_of_nat (n + 32) else c.

Fixpoint lower (s : string) : string :=
  match s with
  | EmptyString => EmptyString
  | String c s' => String (lower_ascii c) (lower s')
  end.

(** Truthiness of an optional string: [None] and [""] are false. *)
Definition truthy_str (o : option string) : option string :=
  match o with
  | Some s => if String.eqb s "" then None else Some s
  | None => None
  end.

End Py.

Import Py.

(** ** models.py *)

Module Models.

Inductive ClientTier : Type := FREE | BASIC | PREMIUM | ENTERPRISE.

Definition ClientTier_eqb (a b : ClientTier) : bool :=
  match a, b with
  | FREE, FREE | BASIC, BASIC | PREMIUM, PREMIUM | ENTERPRISE, ENTERPRISE => true
  | _, _ => false
  end.

Definition tier_value (t : ClientTier) : string :=
  match t with
  | FREE => "free" | BASIC => "basic"
  | PREMIUM => "premium" | ENTERPRISE => "enterprise"
  end.

Record RateLimitConfig : Type := {
  tokens_per_second : Q;
  max_tokens : Z
}.

Record EndpointConfig : Type := {
  path_pattern : string;
  token_cost : Z
}.

Record CircuitBreakerConfig : Type := {
  failure_threshold : Z;
  recovery_timeout : Q;
  half_open_requests : Z
}.

Record UpstreamServiceConfig : Type := {
  name : string;
  base_url : string;
  timeout : Q;
  circuit_breaker : CircuitBreakerConfig;
  health_check_path : option string;
  health_check_interval : Q
}.

Record RateLimitResponse : Type := {
  error : string;
  retry_after : Q;
  remaining_tokens : Q
}.

(** The field constraints pydantic checks when a config is built. *)
Definition valid_rate_limit (c : RateLimitConfig) : Prop :=
  (0 < tokens_per_second c)%Q /\ (0 < max_tokens c)%Z.

Definition valid_circuit_breaker (c : CircuitBreakerConfig) : Prop :=
  (1 <= failure_threshold c)%Z /\ (0 < recovery_timeout c)%Q
  /\ (1 <= half_open_requests c)%Z.

End Models.

(** ** rate_limiter.py *)

Module Limiter.
Import Models.

Record TokenBucket : Type := {
  tokens : Q;
  max_tokens : Z;
  refill_rate : Q;
  last_refill : Q
}.

(** [TokenBucket.refill]; [now] is its [time.monotonic()]. *)
Definition refill (now : Q) (b : TokenBucket) : TokenBucket :=
  let elapsed := (now - last_refill b)%Q in
  {| tokens := Py.min (inject_Z (max_tokens b))
                      (tokens b + elapsed * refill_rate b)%Q;
     max_tokens := max_tokens b;
     refill_rate := refill_rate b;
     last_refill := now |}.

(** [TokenBucket.consume]; [now] is the reading of its [refill]. *)
Definition consume (now : Q) (cost : Z) (b : TokenBucket)
  : result (bool * Q) * TokenBucket :=
  let b1 := refill now b in
  if Py.leb (inject_Z cost) (tokens b1) then
    (Ok (true, 0%Q),
     {| tokens := (tokens b1 - inject_Z cost)%Q;
        max_tokens := max_tokens b1;
        refill_rate := refill_rate b1;
        last_refill := last_refill b1 |})
  else
    let tokens_needed := (inject_Z cost - tokens b1)%Q in
    match Py.div tokens_needed (refill_rate b1) with
    | Ok retry => (Ok (false, retry), b1)
    | Raise e => (Raise e, b1)
    end.

(** The [available_tokens] property: a refill, then the count. *)
Definition available_tokens (now : Q) (b : TokenBucket) : Q * TokenBucket :=
  let b1 := refill now b in (tokens b1, b1).

Record RateLimiter : Type := {
  _rate_configs : ClientTier -> option RateLimitConfig;
  _buckets : gmap string TokenBucket;
  _client_tiers : gmap string ClientTier
}.

Definition init (rate_configs : ClientTier -> option RateLimitConfig)
  : RateLimiter :=
  {| _rate_configs := rate_configs; _buckets := ∅; _client_tiers := ∅ |}.

Definition set_buckets (bs : gmap string TokenBucket) (l : RateLimiter) :=
  {| _rate_configs := _rate_configs l; _buckets := bs;
     _client_tiers := _client_tiers l |}.

(** [self._rate_configs.get(tier, self._rate_configs[ClientTier.FREE])]:
    the default is evaluated first and raises when FREE is missing. *)
Definition config_for (l : RateLimiter) (tier : ClientTier)
  : result RateLimitConfig :=
  match _rate_configs l FREE with
  | None => Raise KeyError
  | Some dflt =>
      match _rate_configs l tier with
      | Some c => Ok c
      | None => Ok dflt
      end
  end.

(** [_get_or_create_bucket]; [t_new] is the reading of the dataclass
    default factory of [last_refill]. *)
Definition _get_or_create_bucket (t_new : Q) (client_id : string)
    (tier : ClientTier) (l : RateLimiter)
  : result TokenBucket * RateLimiter :=
  match _buckets l !! client_id with
  | Some b => (Ok b, l)
  | None =>
      match config_for l tier with
      | Raise e => (Raise e, l)
      | Ok config =>
          let b := {| tokens := inject_Z (Models.max_tokens config);
                      max_tokens := Models.max_tokens config;
                      refill_rate := tokens_per_second config;
                      last_refill := t_new |} in
          (Ok b,
           {| _rate_configs := _rate_configs l;
              _buckets := <[client_id := b]> (_buckets l);
              _client_tiers := <[client_id := tier]> (_client_tiers l) |})
      end
  end.

Definition tier_differs (stored : option ClientTier) (tier : ClientTier)
  : bool :=
  match stored with
  | Some t => negb (ClientTier_eqb t tier)
  | None => true
  end.

(** [check_rate_limit]. Readings: [t_new] at bucket creation, [t_consume]
    in the refill of [consume], [t_avail] in the refill of the final
    [available_tokens]. *)
Definition check_rate_limit (t_new t_consume t_avail : Q)
    (client_id : string) (tier : ClientTier) (token_cost : Z)
    (l : RateLimiter)
  : result (bool * Q * Q) * RateLimiter :=
  match _get_or_create_bucket t_new client_id tier l with
  | (Raise e, l1) => (Raise e, l1)
  | (Ok bucket, l1) =>
      let updated :=
        if tier_differs (_client_tiers l1 !! client_id) tier then
          match config_for l1 tier with
          | Raise e => Raise e
          | Ok config =>
              Ok ({| tokens := tokens bucket;
                     max_tokens := Models.max_tokens config;
                     refill_rate := tokens_per_second config;
                     last_refill := last_refill bucket |},
                  <[client_id := tier]> (_client_tiers l1))
          end
        else Ok (bucket, _client_tiers l1) in
      match updated with
      | Raise e => (Raise e, l1)
      | Ok (bucket1, tiers1) =>
          let '(r, bucket2) := consume t_consume token_cost bucket1 in
          match r with
          | Raise e =>
              (Raise e,
               {| _rate_configs := _rate_configs l1;
                  _buckets := <[client_id := bucket2]> (_buckets l1);
                  _client_tiers := tiers1 |})
          | Ok (allowed, retry_after) =>
              let '(remaining, bucket3) := available_tokens t_avail bucket2 in
              (Ok (allowed, retry_after, remaining),
               {| _rate_configs := _rate_configs l1;
                  _buckets := <[client_id := bucket3]> (_buckets l1);
                  _client_tiers := tiers1 |})
          end
      end
  end.

Record ClientStatus : Type := {
  st_client_id : string;
  st_tier : string;
  st_available_tokens : Q;
  st_max_tokens : Z;
  st_refill_rate : Q;
  st_tokens_per_second : Q
}.

(** [get_client_status]; [now] is the reading of [available_tokens]. *)
Definition get_client_status (now : Q) (client_id : string)
    (l : RateLimiter) : option ClientStatus * RateLimiter :=
  match _buckets l !! client_id with
  | None => (None, l)
  | Some bucket =>
      let tier := default FREE (_client_tiers l !! client_id) in
      let config := _rate_configs l tier in
      let '(avail, bucket1) := available_tokens now bucket in
      (Some {| st_client_id := client_id;
               st_tier := tier_value tier;
               st_available_tokens := avail;
               st_max_tokens := max_tokens bucket1;
               st_refill_rate := refill_rate bucket1;
               st_tokens_per_second :=
                 match config with
                 | Some c => tokens_per_second c
                 | None => 0%Q
                 end |},
       set_buckets (<[client_id := bucket1]> (_buckets l)) l)
  end.

(** [reset_client]; [now] is its [time.monotonic()]. *)
Definition reset_client (now : Q) (client_id : string) (l : RateLimiter)
  : bool * RateLimiter :=
  match _buckets l !! client_id with
  | Some bucket =>
      let bucket1 := {| tokens := inject_Z (max_tokens bucket);
                        max_tokens := max_tokens bucket;
                        refill_rate := refill_rate bucket;
                        last_refill := now |} in
      (true, set_buckets (<[client_id := bucket1]> (_buckets l)) l)
  | None => (false, l)
  end.

Definition remove_client (client_id : string) (l : RateLimiter)
  : bool * RateLimiter :=
  match _buckets l !! client_id with
  | Some _ =>
      (true,
       {| _rate_configs := _rate_configs l;
          _buckets := delete client_id (_buckets l);
          _client_tiers := delete client_id (_client_tiers l) |})
  | None => (false, l)
  end.

(** The test of the first loop of [cleanup_inactive]. *)
Definition idle (now max_idle_seconds : Q) (b : TokenBucket) : bool :=
  Py.ltb max_idle_seconds (now - last_refill b)%Q.

(** [cleanup_inactive]; [now] is its [time.monotonic()]. The client ids
    collected by the first loop are deleted by the second. *)
Definition cleanup_inactive (now max_idle_seconds : Q) (l : RateLimiter)
  : Z * RateLimiter :=
  let to_remove :=
    List.map fst
      (List.filter (fun kb => idle now max_idle_seconds (snd kb))
                   (map_to_list (_buckets l))) in
  (Z.of_nat (length to_remove),
   {| _rate_configs := _rate_configs l;
      _buckets := foldr delete (_buckets l) to_remove;
      _client_tiers := foldr delete (_client_tiers l) to_remove |}).

(** The operations of the limiter, with the clock readings they take. *)
Inductive Op : Type :=
| CheckRateLimit (t_new t_consume t_avail : Q) (client_id : string)
                 (tier : ClientTier) (token_cost : Z)
| GetClientStatus (now : Q) (client_id : string)
| ResetClient (now : Q) (client_id : string)
| RemoveClient (client_id : string)
| CleanupInactive (now max_idle_seconds : Q).

Definition run_op (op : Op) (l : RateLimiter) : RateLimiter :=
  match op with
  | CheckRateLimit t_new t_consume t_avail cid tier cost =>
      snd (check_rate_limit t_new t_consume t_avail cid tier cost l)
  | GetClientStatus now cid => snd (get_client_status now cid l)
  | ResetClient now cid => snd (reset_client now cid l)
  | RemoveClient cid => snd (remove_client cid l)
  | CleanupInactive now max_idle => snd (cleanup_inactive now max_idle l)
  end.

(** The readings of an operation follow [t] on a monotonic clock. *)
Definition readings_from (t : Q) (op : Op) : Prop :=
  match op with
  | CheckRateLimit t_new t_consume t_avail _ _ _ =>
      (t <= t_new /\ t_new <= t_consume /\ t_consume <= t_avail)%Q
  | GetClientStatus now _ | ResetClient now _ | CleanupInactive now _ =>
      (t <= now)%Q
  | RemoveClient _ => True
  end.

(** The last reading of an operation that starts at [t]. *)
Definition last_reading (t : Q) (op : Op) : Q :=
  match op with
  | CheckRateLimit _ _ t_avail _ _ _ => t_avail
  | GetClientStatus now _ | ResetClient now _ | CleanupInactive now _ => now
  | RemoveClient _ => t
  end.

(** The operation runs [refill] on the bucket of [cid]. *)
Definition performs_refill (op : Op) (cid : string) : Prop :=
  match op with
  | CheckRateLimit _ _ _ c _ _ | GetClientStatus _ c => c = cid
  | _ => False
  end.

(** The operation is a [reset_client] of [cid]. *)
Definition is_reset (op : Op) (cid : string) : Prop :=
  match op with
  | ResetClient _ c => c = cid
  | _ => False
  end.

(** The operation is a check of [cid]. *)
Definition is_check (op : Op) (cid : string) : Prop :=
  match op with
  | CheckRateLimit _ _ _ c _ _ => c = cid
  | _ => False
  end.

(** The operation is a check of [cid] whose [consume] succeeds. *)
Definition successful_consume (op : Op) (cid : string) (l : RateLimiter)
  : Prop :=
  match op with
  | CheckRateLimit t_new t_consume t_avail c tier cost =>
      c = cid /\
      exists retry remaining,
        fst (check_rate_limit t_new t_consume t_avail c tier cost l)
        = Ok (true, retry, remaining)
  | _ => False
  end.

(** The bounds of a bucket at time [now]. *)
Definition bucket_ok (now : Q) (b : TokenBucket) : Prop :=
  (0 <= tokens b)%Q /\ (tokens b <= inject_Z (max_tokens b))%Q
  /\ (0 < refill_rate b)%Q /\ (last_refill b <= now)%Q.

(** A limiter built from validated configs, all of whose buckets are
    within bounds at time [now]. *)
Definition LimiterInv (now : Q) (l : RateLimiter) : Prop :=
  (forall tier c, _rate_configs l tier = Some c -> valid_rate_limit c)
  /\ map_Forall (fun _ b => bucket_ok now b) (_buckets l).

(** Counts rise only in an operation that refills the bucket and fall only
    in a check whose consume succeeds. *)
Definition changes_by_refill_and_consume_only (op : Op) (l : RateLimiter)
  : Prop :=
  forall cid b b',
    _buckets l !! cid = Some b ->
    _buckets (run_op op l) !! cid = Some b' ->
    ((tokens b < tokens b')%Q -> performs_refill op cid)
    /\ ((tokens b' < tokens b)%Q -> successful_consume op cid l).

(** A bucket whose capacity and rate come from a config of the limiter. *)
Definition from_config (l : RateLimiter) (b : TokenBucket) : Prop :=
  exists tier c, _rate_configs l tier = Some c
                 /\ max_tokens b = Models.max_tokens c
                 /\ refill_rate b = tokens_per_second c.

(** Status queries each followed by a cleanup: a round [(t_status,
    t_cleanup)] asks for the status of [cid], then evicts idle buckets. *)
Fixpoint poll_rounds (max_idle_seconds : Q) (cid : string)
    (rounds : list (Q * Q)) (l : RateLimiter) : RateLimiter :=
  match rounds with
  | [] => l
  | (t_status, t_cleanup) :: rest =>
      let l1 := snd (get_client_status t_status cid l) in
      let l2 := snd (cleanup_inactive t_cleanup max_idle_seconds l1) in
      poll_rounds max_idle_seconds cid rest l2
  end.

End Limiter.

(** ** circuit_breaker.py *)

Module Breaker.
Import Models.

Inductive CircuitState : Type := CLOSED | OPEN | HALF_OPEN.

Definition CircuitState_eqb (a b : CircuitState) : bool :=
  match a, b with
  | CLOSED, CLOSED | OPEN, OPEN | HALF_OPEN, HALF_OPEN => true
  | _, _ => false
  end.

Record CircuitStats : Type := {
  total_requests : Z;
  successful_requests : Z;
  failed_requests : Z;
  consecutive_failures : Z;
  consecutive_successes : Z;
  last_failure_time : option Q;
  last_success_time : option Q;
  state_changed_at : Q
}.

(** [CircuitStats()]; [t_new] is the reading of the default factory. *)
Definition new_stats (t_new : Q) : CircuitStats :=
  {| total_requests := 0; successful_requests := 0; failed_requests := 0;
     consecutive_failures := 0; consecutive_successes := 0;
     last_failure_time := None; last_success_time := None;
     state_changed_at := t_new |}.

Record CircuitBreaker : Type := {
  service_name : string;
  config : CircuitBreakerConfig;
  _state : CircuitState;
  _stats : CircuitStats;
  _half_open_count : Z
}.

Definition new_breaker (t_new : Q) (service : string)
    (cfg : CircuitBreakerConfig) : CircuitBreaker :=
  {| service_name := service; config := cfg; _state := CLOSED;
     _stats := new_stats t_new; _half_open_count := 0 |}.

(** [_should_transition_to_half_open]; [now] is its reading. *)
Definition _should_transition_to_half_open (now : Q) (b : CircuitBreaker)
  : bool :=
  match _state b with
  | OPEN =>
      match last_failure_time (_stats b) with
      | None => true
      | Some lf =>
          let elapsed := (now - lf)%Q in
          Py.leb (recovery_timeout (config b)) elapsed
      end
  | _ => false
  end.

(** [_transition_to]; [t_change] is its reading. *)
Definition _transition_to (t_change : Q) (new_state : CircuitState)
    (b : CircuitBreaker) : CircuitBreaker :=
  let s := _stats b in
  {| service_name := service_name b;
     config := config b;
     _state := new_state;
     _stats :=
       {| total_requests := total_requests s;
          successful_requests := successful_requests s;
          failed_requests := failed_requests s;
          consecutive_failures :=
            match new_state with
            | CLOSED => 0
            | _ => consecutive_failures s
            end;
          consecutive_successes :=
            match new_state with
            | HALF_OPEN => 0
            | _ => consecutive_successes s
            end;
          last_failure_time := last_failure_time s;
          last_success_time := last_success_time s;
          state_changed_at := t_change |};
     _half_open_count :=
       match new_state with
       | HALF_OPEN => 0
       | _ => _half_open_count b
       end |}.

Definition set_half_open_count (n : Z) (b : CircuitBreaker) :=
  {| service_name := service_name b; config := config b;
     _state := _state b; _stats := _stats b; _half_open_count := n |}.

(** [f"{x:.1f}"]: one decimal, ties to even. *)
Definition fmt_1f (x : Q) : string :=
  let t := (x * 10)%Q in
  let lo := Qfloor t in
  let frac := (t - inject_Z lo)%Q in
  let n := if Py.ltb frac (1 # 2) then lo
           else if Py.ltb (1 # 2) frac then (lo + 1)%Z
           else if Z.even lo then lo else (lo + 1)%Z in
  let digits := Py.str (Z.abs n / 10) +:+ "." +:+ Py.str (Z.abs n mod 10) in
  if (n <? 0)%Z then "-" +:+ digits else digits.

(** Truthiness of [last_failure_time]: [None] and [0.0] are false. *)
Definition truthy_time (o : option Q) : option Q :=
  match o with
  | Some t => if Qeq_bool t 0 then None else Some t
  | None => None
  end.

(** [can_execute]. Readings: [now] in the half-open test, [t_change] in
    the transition, [t_msg] in the rejection message of OPEN. *)
Definition can_execute (now t_change t_msg : Q) (b : CircuitBreaker)
  : (bool * option string) * CircuitBreaker :=
  let b1 :=
    if _should_transition_to_half_open now b
    then set_half_open_count 0 (_transition_to t_change HALF_OPEN b)
    else b in
  match _state b1 with
  | CLOSED => ((true, None), b1)
  | OPEN =>
      let time_until_retry :=
        match truthy_time (last_failure_time (_stats b1)) with
        | Some lf =>
            let elapsed := (t_msg - lf)%Q in
            Py.max 0 (recovery_timeout (config b1) - elapsed)%Q
        | None => recovery_timeout (config b1)
        end in
      ((false,
        Some ("Circuit open for " +:+ service_name b1 +:+ ", retry in "
              +:+ fmt_1f time_until_retry +:+ "s")), b1)
  | HALF_OPEN =>
      if (_half_open_count b1 <? half_open_requests (config b1))%Z then
        ((true, None), set_half_open_count (_half_open_count b1 + 1) b1)
      else
        ((false,
          Some ("Circuit half-open for " +:+ service_name b1
                +:+ ", awaiting test results")), b1)
  end.

(** [record_success]; [now] stamps [last_success_time], [t_change] is the
    reading of a transition. *)
Definition record_success (now t_change : Q) (b : CircuitBreaker)
  : CircuitBreaker :=
  let s := _stats b in
  let s1 :=
    {| total_requests := total_requests s + 1;
       successful_requests := successful_requests s + 1;
       failed_requests := failed_requests s;
       consecutive_failures := 0;
       consecutive_successes := consecutive_successes s + 1;
       last_failure_time := last_failure_time s;
       last_success_time := Some now;
       state_changed_at := state_changed_at s |} in
  let b1 :=
    {| service_name := service_name b; config := config b;
       _state := _state b; _stats := s1;
       _half_open_count := _half_open_count b |} in
  match _state b1 with
  | HALF_OPEN =>
      if (half_open_requests (config b1) <=? consecutive_successes s1)%Z
      then _transition_to t_change CLOSED b1
      else b1
  | _ => b1
  end.

(** [record_failure]; [now] stamps [last_failure_time]. *)
Definition record_failure (now t_change : Q) (b : CircuitBreaker)
  : CircuitBreaker :=
  let s := _stats b in
  let s1 :=
    {| total_requests := total_requests s + 1;
       successful_requests := successful_requests s;
       failed_requests := failed_requests s + 1;
       consecutive_failures := consecutive_failures s + 1;
       consecutive_successes := 0;
       last_failure_time := Some now;
       last_success_time := last_success_time s;
       state_changed_at := state_changed_at s |} in
  let b1 :=
    {| service_name := service_name b; config := config b;
       _state := _state b; _stats := s1;
       _half_open_count := _half_open_count b |} in
  match _state b1 with
  | HALF_OPEN => _transition_to t_change OPEN b1
  | CLOSED =>
      if (failure_threshold (config b1) <=? consecutive_failures s1)%Z
      then _transition_to t_change OPEN b1
      else b1
  | OPEN => b1
  end.

(** [reset]; [t_new] is the reading of the fresh [CircuitStats()]. *)
Definition reset (t_new : Q) (b : CircuitBreaker) : CircuitBreaker :=
  {| service_name := service_name b; config := config b;
     _state := CLOSED; _stats := new_stats t_new; _half_open_count := 0 |}.

(** The operations a caller can apply to one breaker, with the clock
    readings each of them takes. *)
Inductive Op : Type :=
| CanExecute (now t_change t_msg : Q)
| RecordSuccess (now t_change : Q)
| RecordFailure (now t_change : Q)
| Reset (t_new : Q).

Definition run_op (op : Op) (b : CircuitBreaker) : CircuitBreaker :=
  match op with
  | CanExecute now t_change t_msg => snd (can_execute now t_change t_msg b)
  | RecordSuccess now t_change => record_success now t_change b
  | RecordFailure now t_change => record_failure now t_change b
  | Reset t_new => reset t_new b
  end.

(** Whether the operation is an admission check that admits. *)
Definition admits (op : Op) (b : CircuitBreaker) : bool :=
  match op with
  | CanExecute now t_change t_msg =>
      fst (fst (can_execute now t_change t_msg b))
  | _ => false
  end.

Definition run_ops (ops : list Op) (b : CircuitBreaker) : CircuitBreaker :=
  fold_left (fun acc op => run_op op acc) ops b.

(** The breakers a program can hold: a fresh one, then any operations. *)
Inductive reachable : CircuitBreaker -> Prop :=
| reach_new t_new service cfg :
    valid_circuit_breaker cfg ->
    reachable (new_breaker t_new service cfg)
| reach_step op b :
    reachable b -> reachable (run_op op b).

(** What every reachable breaker satisfies: a validated config, a probe
    counter between 0 and [half_open_requests], and a failure stamp
    whenever it is OPEN. *)
Definition breaker_inv (b : CircuitBreaker) : Prop :=
  valid_circuit_breaker (config b)
  /\ (0 <= _half_open_count b <= half_open_requests (config b))%Z
  /\ (_state b = OPEN -> last_failure_time (_stats b) <> None).

(** The operations keep the breaker HALF_OPEN: it is HALF_OPEN after each
    of them. *)
Fixpoint stays_half_open (ops : list Op) (b : CircuitBreaker) : Prop :=
  match ops with
  | [] => True
  | op :: rest =>
      _state (run_op op b) = HALF_OPEN /\ stays_half_open rest (run_op op b)
  end.

(** The number of admission checks among the operations that admit. *)
Fixpoint admitted_count (ops : list Op) (b : CircuitBreaker) : Z :=
  match ops with
  | [] => 0
  | op :: rest =>
      ((if admits op b then 1 else 0) + admitted_count rest (run_op op b))%Z
  end.

(** The probes already admitted in the HALF_OPEN stay the breaker is in. *)
Definition probes_before (b : CircuitBreaker) : Z :=
  match _state b with
  | HALF_OPEN => _half_open_count b
  | _ => 0%Z
  end.

(** An operation that takes the breaker out of OPEN is an admission
    check. *)
Definition only_can_execute_leaves_open (op : Op) (b : CircuitBreaker)
  : Prop :=
  _state b = OPEN -> _state (run_op op b) <> OPEN ->
  exists now t_change t_msg, op = CanExecute now t_change t_msg.

(** [CircuitBreakerRegistry.get_or_create]; the registry is its dict of
    breakers, [t_new] is the reading taken for a new breaker. *)
Definition get_or_create (t_new : Q) (service : string)
    (cfg : CircuitBreakerConfig) (reg : gmap string CircuitBreaker)
  : CircuitBreaker * gmap string CircuitBreaker :=
  match reg !! service with
  | Some b => (b, reg)
  | None =>
      let b := new_breaker t_new service cfg in
      (b, <[service := b]> reg)
  end.

End Breaker.

(** ** HTTP messages (the framework's request and response objects) *)

Module Http.

Inductive Json : Type :=
| JStr (s : string)
| JNum (x : Q).

Inductive Body : Type :=
| Raw (s : string)
| JsonBody (fields : list (string * Json)).

Record Request : Type := {
  method : string;
  url_path : string;
  url_query : string;
  headers : list (string * string);
  body : string;
  client_host : option string
}.

Record Response : Type := {
  content : Body;
  status_code : Z;
  resp_headers : list (string * string)
}.

(** [headers.get(name)]: the first value under that name, names compared
    without case. *)
Fixpoint headers_get (name : string) (hs : list (string * string))
  : option string :=
  match hs with
  | [] => None
  | (k, v) :: hs' =>
      if String.eqb (Py.lower k) (Py.lower name) then Some v
      else headers_get name hs'
  end.

(** [headers[name] = value]: replaces the values under that name. *)
Definition headers_set (name value : string) (hs : list (string * string))
  : list (string * string) :=
  List.filter (fun kv => negb (String.eqb (Py.lower (fst kv)) (Py.lower name))) hs
  ++ [(name, value)].

Definition with_header (name value : string) (r : Response) : Response :=
  {| content := content r; status_code := status_code r;
     resp_headers := headers_set name value (resp_headers r) |}.

End Http.

(** ** router.py *)

Module Router.
Import Models Breaker Http.

(** What the HTTP client hands to the upstream, and what comes back. *)
Record UpstreamRequest : Type := {
  up_method : string;
  up_url : string;
  up_headers : list (string * string);
  up_content : string;
  up_timeout : Q
}.

Inductive UpstreamOutcome : Type :=
| Responded (status : Z) (hdrs : list (string * string)) (content : string)
| TimeoutException
| ConnectError
| OtherException (name : string).

Record RequestRouter : Type := {
  _services : gmap string UpstreamServiceConfig;
  _endpoint_costs : list EndpointConfig;
  _route_patterns : list (string * string);
  _client : bool
}.

(** The calls [proxy_request] makes on its collaborators, in order. *)
Inductive Event : Type :=
| EvCanExecute (service : string)
| EvUpstreamRequest (req : UpstreamRequest)
| EvRecordSuccess (service : string)
| EvRecordFailure (service : string).

(** The clock readings of one [proxy_request]. *)
Record ProxyClock : Type := {
  pc_new : Q;            (* a breaker created by the registry *)
  pc_check : Q;          (* can_execute: half-open test *)
  pc_check_change : Q;   (* can_execute: transition *)
  pc_check_msg : Q;      (* can_execute: rejection message *)
  pc_record : Q;         (* record_success / record_failure stamp *)
  pc_record_change : Q   (* record_success / record_failure transition *)
}.

Definition hop_by_hop : list string :=
  ["connection"; "keep-alive"; "proxy-authenticate"; "proxy-authorization";
   "te"; "trailers"; "transfer-encoding"; "upgrade"].

Definition in_list (s : string) (l : list string) : bool :=
  existsb (String.eqb s) l.

Section WithCollaborators.
(** [re.match(pattern, path)] found a match. *)
Variable re_match : string -> string -> bool.
(** [urllib.parse.urljoin]. *)
Variable urljoin : string -> string -> string.
(** [httpx.AsyncClient.request]. *)
Variable client_request : UpstreamRequest -> UpstreamOutcome.

Fixpoint get_token_cost_in (costs : list EndpointConfig) (path : string)
  : Z :=
  match costs with
  | [] => 1
  | endpoint :: rest =>
      if re_match (path_pattern endpoint) path then token_cost endpoint
      else get_token_cost_in rest path
  end.

Definition get_token_cost (r : RequestRouter) (path : string) : Z :=
  get_token_cost_in (_endpoint_costs r) path.

Fixpoint first_route (routes : list (string * string)) (path : string)
  : option string :=
  match routes with
  | [] => None
  | (pattern, service) :: rest =>
      if re_match pattern path then Some service
      else first_route rest path
  end.

Definition resolve_service (r : RequestRouter) (path : string)
  : option string :=
  match first_route (_route_patterns r) path with
  | Some service => Some service
  | None =>
      match _services r !! "default" with
      | Some _ => Some "default"
      | None => None
      end
  end.

Definition forwarded_request_headers (hs : list (string * string)) :=
  List.filter
    (fun kv => negb (in_list (Py.lower (fst kv)) hop_by_hop)
               && negb (String.eqb (Py.lower (fst kv)) "host"))
    hs.

Definition forwarded_response_headers (hs : list (string * string)) :=
  List.filter (fun kv => negb (in_list (Py.lower (fst kv)) hop_by_hop)) hs.

(** [RequestRouter.proxy_request]. The registry is the shared dict of
    breakers; the breaker of the service is written back after each
    call that mutates it. *)
Definition proxy_request (clk : ProxyClock) (r : RequestRouter)
    (request : Request) (service_name : option string)
    (reg : gmap string CircuitBreaker)
  : result Response * gmap string CircuitBreaker * list Event :=
  if negb (_client r) then (Raise (RuntimeError "Router not started"), reg, [])
  else
    let target_service :=
      match Py.truthy_str service_name with
      | Some s => Some s
      | None => resolve_service r (url_path request)
      end in
    let unknown :=
      Raise (ValueError ("Unknown service: " +:+ default "None" target_service)) in
    match Py.truthy_str target_service with
    | None => (unknown, reg, [])
    | Some target =>
        match _services r !! target with
        | None => (unknown, reg, [])
        | Some service_config =>
            let '(circuit, reg1) :=
              get_or_create (pc_new clk) target
                            (circuit_breaker service_config) reg in
            let '((allowed, reason), circuit1) :=
              can_execute (pc_check clk) (pc_check_change clk)
                          (pc_check_msg clk) circuit in
            let reg2 := <[target := circuit1]> reg1 in
            if negb allowed then
              (Raise (CircuitOpenError (default "None" reason)), reg2,
               [EvCanExecute target])
            else
              let upstream_url :=
                urljoin (base_url service_config)
                  (url_path request +:+
                   (if String.eqb (url_query request) "" then ""
                    else "?" +:+ url_query request)) in
              let req :=
                {| up_method := method request;
                   up_url := upstream_url;
                   up_headers := forwarded_request_headers (headers request);
                   up_content := body request;
                   up_timeout := timeout service_config |} in
              let success := record_success (pc_record clk) (pc_record_change clk) circuit1 in
              let failure := record_failure (pc_record clk) (pc_record_change clk) circuit1 in
              match client_request req with
              | Responded status hdrs content =>
                  (Ok {| content := Raw content;
                         status_code := status;
                         resp_headers := forwarded_response_headers hdrs |},
                   <[target := success]> reg2,
                   [EvCanExecute target; EvUpstreamRequest req;
                    EvRecordSuccess target])
              | TimeoutException =>
                  (Raise (UpstreamTimeoutError ("Timeout connecting to " +:+ target)),
                   <[target := failure]> reg2,
                   [EvCanExecute target; EvUpstreamRequest req;
                    EvRecordFailure target])
              | ConnectError =>
                  (Raise (UpstreamConnectionError ("Cannot connect to " +:+ target)),
                   <[target := failure]> reg2,
                   [EvCanExecute target; EvUpstreamRequest req;
                    EvRecordFailure target])
              | OtherException name =>
                  (Raise (ClientError name),
                   <[target := failure]> reg2,
                   [EvCanExecute target; EvUpstreamRequest req;
                    EvRecordFailure target])
              end
        end
    end.

End WithCollaborators.

End Router.

(** ** main.py: the handler of [/api/{path:path}] *)

Module Main.
Import Models Breaker Http Router.

Section WithCollaborators.
Variable re_match : string -> string -> bool.
Variable urljoin : string -> string -> string.
Variable client_request : UpstreamRequest -> UpstreamOutcome.

Definition JSONResponse (status : Z) (fields : list (string * Json))
    (hdrs : list (string * string)) : Response :=
  {| content := JsonBody fields; status_code := status;
     resp_headers := hdrs |}.

(** [proxy_request(request, path)]; [request_router] is the module
    global of that name. *)
Definition proxy_request (clk : ProxyClock)
    (request_router : option RequestRouter) (request : Request)
    (reg : gmap string CircuitBreaker)
  : result Response * gmap string CircuitBreaker * list Event :=
  match request_router with
  | None => (Raise (HTTPException 503 "Router not available"), reg, [])
  | Some router =>
      let '(r, reg1, evs) :=
        Router.proxy_request re_match urljoin client_request
                             clk router request None reg in
      let r1 :=
        match r with
        | Ok resp => Ok resp
        | Raise (CircuitOpenError e) =>
            Ok (JSONResponse 503
                  [("error", JStr "Service unavailable"); ("detail", JStr e)]
                  [("Retry-After", "30")])
        | Raise (UpstreamTimeoutError e) =>
            Ok (JSONResponse 504
                  [("error", JStr "Gateway timeout"); ("detail", JStr e)] [])
        | Raise (UpstreamConnectionError e) =>
            Ok (JSONResponse 502
                  [("error", JStr "Bad gateway"); ("detail", JStr e)] [])
        | Raise (ValueError e) => Raise (HTTPException 404 e)
        | Raise e => Raise e
        end in
      (r1, reg1, evs)
  end.

End WithCollaborators.

End Main.

(** ** metrics.py: the part the middleware drives *)

Module Metrics.

Record RequestMetric : Type := {
  timestamp : Q;
  client_id : string;
  path : string;
  method : string;
  status_code : Z;
  latency_ms : Q;
  rate_limited : bool;
  service : option string;
  error : option string
}.

Record MetricsCollector : Type := {
  _retention_seconds : Z;
  _metrics : list RequestMetric;
  _start_time : Q
}.

(** [_cleanup_old_metrics]; [now] is its [time.time()]. *)
Definition _cleanup_old_metrics (now : Q) (m : MetricsCollector)
  : MetricsCollector :=
  let cutoff := (now - inject_Z (_retention_seconds m))%Q in
  {| _retention_seconds := _retention_seconds m;
     _metrics := List.filter (fun x => Py.ltb cutoff (timestamp x)) (_metrics m);
     _start_time := _start_time m |}.

(** [record_request]; [t_stamp] is the timestamp of the record and
    [t_cleanup] the reading of a cleanup. *)
Definition record_request (t_stamp t_cleanup : Q) (cid pth mth : string)
    (status : Z) (latency : Q) (limited : bool)
    (m : MetricsCollector) : MetricsCollector :=
  let metric :=
    {| timestamp := t_stamp; client_id := cid; path := pth; method := mth;
       status_code := status; latency_ms := latency;
       rate_limited := limited; service := None; error := None |} in
  let m1 :=
    {| _retention_seconds := _retention_seconds m;
       _metrics := _metrics m ++ [metric];
       _start_time := _start_time m |} in
  if (Z.of_nat (length (_metrics m1)) mod 1000 =? 0)%Z
  then _cleanup_old_metrics t_cleanup m1
  else m1.

Inductive LogLevel : Type := LogError | LogWarning | LogInfo.

(** One call of [RequestLogger.log_request]; the record goes to the
    logging sink with its latency as given. *)
Record LogRecord : Type := {
  log_level : LogLevel;
  log_message : string;
  log_client_id : string;
  log_method : string;
  log_path : string;
  log_status_code : Z;
  log_latency_ms : Q;
  log_rate_limited : bool
}.

Definition log_request (cid mth pth : string) (status : Z) (latency : Q)
    (limited : bool) : LogRecord :=
  {| log_level := if limited then LogWarning else LogInfo;
     log_message := if limited then "Request rate limited"
                    else "Request completed";
     log_client_id := cid; log_method := mth; log_path := pth;
     log_status_code := status; log_latency_ms := latency;
     log_rate_limited := limited |}.

End Metrics.

(** ** middleware.py *)

Module Middleware.
Import Models Limiter Http Metrics.

(** The fields of [GatewayConfig] the middleware reads. *)
Record GatewayConfig : Type := {
  endpoint_costs : list EndpointConfig;
  client_id_header : string;
  fallback_to_ip : bool
}.

(** The clock readings of one [dispatch]. *)
Record DispatchClock : Type := {
  w_start : Q;      (* time.time() on entry *)
  m_new : Q;        (* limiter: bucket creation *)
  m_consume : Q;    (* limiter: refill of consume *)
  m_avail : Q;      (* limiter: refill of available_tokens *)
  w_latency : Q;    (* time.time() for the latency *)
  w_metric : Q;     (* time.time() stamping the metric *)
  w_cleanup : Q;    (* time.time() of a metrics cleanup *)
  w_reset : Q       (* time.time() in the X-RateLimit-Reset header *)
}.

Definition exempt_paths : list string :=
  ["/health"; "/metrics"; "/ready"; "/_internal"].

Definition _is_exempt_path (path : string) : bool :=
  existsb (fun p => String.prefix p path) exempt_paths.

Section WithCollaborators.
(** The state of the application behind the middleware. *)
Variable App : Type.

(** What one [dispatch] reads and writes. *)
Record State : Type := {
  limiter : RateLimiter;
  metrics : MetricsCollector;
  log : list LogRecord;
  app : App
}.

(** [re.match(pattern, path)] found a match. *)
Variable re_match : string -> string -> bool.
Variable config : GatewayConfig.
Variable tier_resolver : string -> ClientTier.
Variable call_next : Request -> State -> result Response * State.

Definition _get_client_id (request : Request) : string :=
  let client_id := headers_get (client_id_header config) (headers request) in
  let client_id1 :=
    match Py.truthy_str client_id with
    | Some s => Some s
    | None =>
        if fallback_to_ip config
        then Some (default "unknown" (client_host request))
        else client_id
    end in
  default "anonymous" (Py.truthy_str client_id1).

Fixpoint _get_token_cost_in (costs : list EndpointConfig) (path : string)
  : Z :=
  match costs with
  | [] => 1
  | endpoint :: rest =>
      if re_match (path_pattern endpoint) path then token_cost endpoint
      else _get_token_cost_in rest path
  end.

Definition _get_token_cost (path : string) : Z :=
  _get_token_cost_in (endpoint_costs config) path.

(** The 429 response of [dispatch]. *)
Definition rate_limit_response (t_reset retry_after remaining : Q)
  : Response :=
  {| content :=
       JsonBody [("error", JStr "Rate limit exceeded");
                 ("retry_after", JNum retry_after);
                 ("remaining_tokens", JNum remaining)];
     Http.status_code := 429;
     resp_headers :=
       [("Content-Type", "application/json");
        ("Retry-After", Py.str (Py.int retry_after + 1));
        ("X-RateLimit-Remaining", Py.str (Py.int remaining));
        ("X-RateLimit-Reset", Py.str (Py.int (t_reset + retry_after)))] |}.

(** [RateLimitMiddleware.dispatch]. *)
Definition dispatch (clk : DispatchClock) (request : Request) (st : State)
  : result Response * State :=
  let start_time := w_start clk in
  let pth := url_path request in
  let mth := Http.method request in
  let cid := _get_client_id request in
  if _is_exempt_path pth then call_next request st
  else
    let cost := _get_token_cost pth in
    let tier := tier_resolver cid in
    let '(checked, lim1) :=
      check_rate_limit (m_new clk) (m_consume clk) (m_avail clk)
                       cid tier cost (limiter st) in
    let st1 := {| limiter := lim1; metrics := metrics st;
                  log := log st; app := app st |} in
    match checked with
    | Raise e => (Raise e, st1)
    | Ok (allowed, retry_after, remaining) =>
        if negb allowed then
          let latency := ((w_latency clk - start_time) * 1000)%Q in
          let st2 :=
            {| limiter := lim1;
               metrics := record_request (w_metric clk) (w_cleanup clk)
                            cid pth mth 429 latency true (metrics st1);
               log := log st1 ++ [log_request cid mth pth 429 latency true];
               app := app st1 |} in
          (Ok (rate_limit_response (w_reset clk) retry_after remaining), st2)
        else
          match call_next request st1 with
          | (Raise e, st2) => (Raise e, st2)
          | (Ok response, st2) =>
              let response1 :=
                with_header "X-RateLimit-Remaining"
                            (Py.str (Py.int remaining)) response in
              let latency := ((w_latency clk - start_time) * 1000)%Q in
              (Ok response1,
               {| limiter := limiter st2;
                  metrics := record_request (w_metric clk) (w_cleanup clk)
                               cid pth mth (Http.status_code response1)
                               latency false (metrics st2);
                  log := log st2 ++ [log_request cid mth pth
                                       (Http.status_code response1)
                                       latency false];
                  app := app st2 |})
          end
    end.

(** The 429 response as the specification words it: [Retry-After] is the
    ceiling of the retry time plus one. *)
Definition denial_headers_by_ceiling (clk : DispatchClock) (request : Request)
    (st : State) : Prop :=
  _is_exempt_path (url_path request) = false ->
  forall retry remaining lim',
    check_rate_limit (m_new clk) (m_consume clk) (m_avail clk)
      (_get_client_id request) (tier_resolver (_get_client_id request))
      (_get_token_cost (url_path request)) (limiter st)
    = (Ok (false, retry, remaining), lim') ->
    exists resp,
      fst (dispatch clk request st) = Ok resp
      /\ Http.status_code resp = 429%Z
      /\ headers_get "Retry-After" (resp_headers resp)
         = Some (Py.str (Qceiling retry + 1))
      /\ headers_get "X-RateLimit-Remaining" (resp_headers resp)
         = Some (Py.str (Qfloor remaining))
      /\ headers_get "X-RateLimit-Reset" (resp_headers resp)
         = Some (Py.str (Qfloor (w_reset clk + retry))).

End WithCollaborators.

Arguments limiter {App} _.
Arguments metrics {App} _.
Arguments log {App} _.
Arguments app {App} _.

End Middleware.

(** ** Runs of limiter operations *)

Module LimiterRuns.
Import Models Limiter.



(** Limiter operations applied in order. *)
Definition run_ops (ops : list Op) (l : RateLimiter) : RateLimiter :=
  fold_left (fun acc op => run_op op acc) ops l.

(** [get_all_clients]. *)
Definition get_all_clients (l : RateLimiter) : list string :=
  (map_to_list (_buckets l)).*1.

(** Buckets and tier bindings have the same clients, and each bucket has
    the capacity and rate the limiter's configs give the client's tier. *)
Definition coherent (l : RateLimiter) : Prop :=
  (forall cid, is_Some (_buckets l !! cid) <-> is_Some (_client_tiers l !! cid))
  /\ (forall cid b tier,
        _buckets l !! cid = Some b ->
        _client_tiers l !! cid = Some tier ->
        exists c, config_for l tier = Ok c
                  /\ max_tokens b = Models.max_tokens c
                  /\ refill_rate b = tokens_per_second c).

End LimiterRuns.

(** ** circuit_breaker.py: counters, registry and the wrapper *)

Module BreakerRuns.
Import Models Breaker.

(** The counters add up: every request is a success or a failure, the
    streaks are part of their totals, and at most one streak is running. *)
Definition accounted (b : CircuitBreaker) : Prop :=
  let s := _stats b in
  (total_requests s = successful_requests s + failed_requests s)%Z
  /\ (0 <= consecutive_failures s <= failed_requests s)%Z
  /\ (0 <= consecutive_successes s <= successful_requests s)%Z
  /\ (consecutive_failures s = 0 \/ consecutive_successes s = 0)%Z.

(** The streak that would move the breaker is below its limit. *)
Definition below_limits (b : CircuitBreaker) : Prop :=
  (_state b = CLOSED ->
   (consecutive_failures (_stats b) < failure_threshold (config b))%Z)
  /\ (_state b = HALF_OPEN ->
      (consecutive_successes (_stats b) < half_open_requests (config b))%Z).

Definition is_failure (op : Op) : Prop :=
  exists now t_change, op = RecordFailure now t_change.

Definition is_success (op : Op) : Prop :=
  exists now t_change, op = RecordSuccess now t_change.

(** [CircuitBreakerRegistry.get]. *)
Definition get (service : string) (reg : gmap string CircuitBreaker)
  : option CircuitBreaker :=
  reg !! service.

(** [CircuitBreakerRegistry.reset_all]; [t_new service] is the reading of
    the reset of that service's breaker. *)
Definition reset_all (t_new : string -> Q) (reg : gmap string CircuitBreaker)
  : gmap string CircuitBreaker :=
  map_imap (fun service b => Some (reset (t_new service) b)) reg.

(** The calls [with_circuit_breaker] makes on the functions it is given. *)
Inductive Call : Type := CallFunc | CallFallback.

(** The clock readings of one [with_circuit_breaker]. *)
Record WrapClock : Type := {
  wc_check : Q;          (* can_execute: half-open test *)
  wc_check_change : Q;   (* can_execute: transition *)
  wc_check_msg : Q;      (* can_execute: rejection message *)
  wc_record : Q;         (* record_success / record_failure stamp *)
  wc_record_change : Q   (* record_success / record_failure transition *)
}.

(** [with_circuit_breaker]; [func] and [fallback] are what the two
    callables do when they are called: return a value or raise. *)
Definition with_circuit_breaker {A : Type} (clk : WrapClock)
    (breaker : CircuitBreaker) (func : result A)
    (fallback : option (result A))
  : result A * CircuitBreaker * list Call :=
  let '((allowed, reason), breaker1) :=
    can_execute (wc_check clk) (wc_check_change clk) (wc_check_msg clk)
                breaker in
  if negb allowed then
    match fallback with
    | Some outcome => (outcome, breaker1, [CallFallback])
    | None =>
        (Raise (CircuitOpenError (default "None" reason)), breaker1, [])
    end
  else
    match func with
    | Ok a =>
        (Ok a,
         record_success (wc_record clk) (wc_record_change clk) breaker1,
         [CallFunc])
    | Raise e =>
        (Raise e,
         record_failure (wc_record clk) (wc_record_change clk) breaker1,
         [CallFunc])
    end.

End BreakerRuns.

(** ** router.py: the health checker *)

Module Health.
Import Models.

(** What the health client's [get] does: a response with its status, or
    an exception. *)
Inductive GetOutcome : Type :=
| GetResponded (status : Z)
| GetFailed.

Section WithCollaborators.
(** [urllib.parse.urljoin]. *)
Variable urljoin : string -> string -> string.
(** [httpx.AsyncClient.get] of the health client. *)
Variable client_get : string -> GetOutcome.

(** [_check_service]; [health] is [self._health_status]. *)
Definition _check_service (name : string) (config : UpstreamServiceConfig)
    (health : gmap string bool) : gmap string bool :=
  match Py.truthy_str (health_check_path config) with
  | None => health
  | Some path =>
      let url := urljoin (base_url config) path in
      match client_get url with
      | GetResponded status =>
          <[name := ((200 <=? status) && (status <? 300))%Z]> health
      | GetFailed => <[name := false]> health
      end
  end.

(** [_check_all_services]: one check per service that has a health path;
    each check writes the entry of its own service. *)
Definition _check_all_services (services : gmap string UpstreamServiceConfig)
    (health : gmap string bool) : gmap string bool :=
  foldr (fun nc acc => _check_service (fst nc) (snd nc) acc) health
        (List.filter
           (fun nc => bool_decide
                        (is_Some (Py.truthy_str (health_check_path (snd nc)))))
           (map_to_list services)).

End WithCollaborators.

(** The services map of the [/health] endpoint of main.py. *)
Definition service_status (health : gmap string bool) : gmap string string :=
  (fun healthy : bool => if healthy then "healthy" else "unhealthy") <$> health.

End Health.

(** ** middleware.py: the tier store *)

Module TierStore.
Import Models.

(** [ClientTierStore.get_tier]; the store is its dict of tiers. *)
Definition get_tier (client_id : string) (tiers : gmap string ClientTier)
  : ClientTier :=
  default FREE (tiers !! client_id).

Definition set_tier (client_id : string) (tier : ClientTier)
    (tiers : gmap string ClientTier) : gmap string ClientTier :=
  <[client_id := tier]> tiers.

Definition remove_client (client_id : string) (tiers : gmap string ClientTier)
  : gmap string ClientTier :=
  delete client_id tiers.

End TierStore.

(** ** metrics.py: aggregation and percentiles *)

Module MetricsAgg.
Import Metrics.

Record AggregatedMetrics : Type := {
  total_requests : Z;
  successful_requests : Z;
  failed_requests : Z;
  rate_limited_requests : Z;
  total_latency_ms : Q;
  requests_by_client : gmap string Z;
  requests_by_path : gmap string Z;
  requests_by_service : gmap string Z;
  errors_by_service : gmap string Z;
  rate_limit_hits_by_client : gmap string Z;
  latencies : list Q
}.

(** [AggregatedMetrics()] with [total_requests] set. *)
Definition empty_agg (total : Z) : AggregatedMetrics :=
  {| total_requests := total; successful_requests := 0;
     failed_requests := 0; rate_limited_requests := 0;
     total_latency_ms := 0; requests_by_client := ∅; requests_by_path := ∅;
     requests_by_service := ∅; errors_by_service := ∅;
     rate_limit_hits_by_client := ∅; latencies := [] |}.

(** [d[key] += 1] on a [defaultdict(int)]. *)
Definition bump (key : string) (d : gmap string Z) : gmap string Z :=
  <[key := (default 0 (d !! key) + 1)%Z]> d.

(** The body of the loop of [get_aggregated_metrics]. *)
Definition add_metric (agg : AggregatedMetrics) (m : RequestMetric)
  : AggregatedMetrics :=
  let ok := ((200 <=? status_code m) && (status_code m <? 400))%Z in
  let svc := Py.truthy_str (service m) in
  {| total_requests := total_requests agg;
     successful_requests :=
       if ok then (successful_requests agg + 1)%Z else successful_requests agg;
     failed_requests :=
       if ok then failed_requests agg else (failed_requests agg + 1)%Z;
     rate_limited_requests :=
       if rate_limited m then (rate_limited_requests agg + 1)%Z
       else rate_limited_requests agg;
     total_latency_ms := (total_latency_ms agg + latency_ms m)%Q;
     requests_by_client := bump (client_id m) (requests_by_client agg);
     requests_by_path := bump (path m) (requests_by_path agg);
     requests_by_service :=
       match svc with
       | Some s => bump s (requests_by_service agg)
       | None => requests_by_service agg
       end;
     errors_by_service :=
       match svc with
       | Some s =>
           if ((500 <=? status_code m)%Z
               || bool_decide (is_Some (Py.truthy_str (error m))))%bool
           then bump s (errors_by_service agg)
           else errors_by_service agg
       | None => errors_by_service agg
       end;
     rate_limit_hits_by_client :=
       if rate_limited m then bump (client_id m) (rate_limit_hits_by_client agg)
       else rate_limit_hits_by_client agg;
     latencies := latencies agg ++ [latency_ms m] |}.

(** The records of the window: [window_seconds or self._retention_seconds]
    back from [now]. *)
Definition recent (now : Q) (window_seconds : option Z) (c : MetricsCollector)
  : list RequestMetric :=
  let window :=
    match window_seconds with
    | Some w => if (w =? 0)%Z then _retention_seconds c else w
    | None => _retention_seconds c
    end in
  let cutoff := (now - inject_Z window)%Q in
  List.filter (fun m => Py.ltb cutoff (timestamp m)) (_metrics c).

(** [get_aggregated_metrics]; [now] is its [time.time()]. *)
Definition get_aggregated_metrics (now : Q) (window_seconds : option Z)
    (c : MetricsCollector) : AggregatedMetrics :=
  let rs := recent now window_seconds c in
  fold_left add_metric rs (empty_agg (Z.of_nat (length rs))).

(** The number of records of a client. *)
Definition count_client (cid : string) (rs : list RequestMetric) : Z :=
  Z.of_nat (length (List.filter (fun m => String.eqb (client_id m) cid) rs)).

(** [sorted(xs)]: stable, by [<]. *)
Fixpoint insert_sorted (x : Q) (l : list Q) : list Q :=
  match l with
  | [] => [x]
  | y :: rest => if Py.ltb y x then y :: insert_sorted x rest else x :: l
  end.

Definition sorted (l : list Q) : list Q := foldr insert_sorted [] l.

(** [xs[i]] on a list: negative indices count from the end. *)
Inductive Indexed : Type :=
| Found (x : Q)
| IndexError.

Definition index (l : list Q) (i : Z) : Indexed :=
  let n := Z.of_nat (length l) in
  let j := if (i <? 0)%Z then (n + i)%Z else i in
  if ((0 <=? j) && (j <? n))%Z%bool then
    match nth_error l (Z.to_nat j) with
    | Some x => Found x
    | None => IndexError
    end
  else IndexError.

(** [get_percentile_latency]; [now] is the reading of the aggregation. *)
Definition get_percentile_latency (now : Q) (percentile : Q)
    (window_seconds : Z) (c : MetricsCollector) : Indexed :=
  let agg := get_aggregated_metrics now (Some window_seconds) c in
  match latencies agg with
  | [] => Found 0%Q
  | _ =>
      let sorted_latencies := sorted (latencies agg) in
      let n := Z.of_nat (length sorted_latencies) in
      let i := Py.int (inject_Z n * percentile / 100)%Q in
      let i1 := Z.min i (n - 1) in
      index sorted_latencies i1
  end.

End MetricsAgg.

(** * Sample data *)

Module Sample.
Import Models Limiter.

(** A bucket holding half a token. *)
Definition bucket : TokenBucket :=
  {| tokens := 1 # 2; max_tokens := 10; refill_rate := 1; last_refill := 0 |}.

(** The tier table of [GatewayConfig]. *)
Definition rate_limits (tier : ClientTier) : option RateLimitConfig :=
  Some match tier with
       | FREE => {| tokens_per_second := 1; Models.max_tokens := 10 |}
       | BASIC => {| tokens_per_second := 5; Models.max_tokens := 50 |}
       | PREMIUM => {| tokens_per_second := 20; Models.max_tokens := 200 |}
       | ENTERPRISE => {| tokens_per_second := 100; Models.max_tokens := 1000 |}
       end.

(** A FREE client that has spent 3 of its 10 tokens. *)
Definition limiter_alice : RateLimiter :=
  snd (check_rate_limit 0 0 0 "alice" FREE 3 (init rate_limits)).

(** The bucket of that client. *)
Definition bucket_alice : TokenBucket :=
  {| tokens := 7; max_tokens := 10; refill_rate := 1; last_refill := 0 |}.

(** A PREMIUM client that has spent 50 of its 200 tokens. *)
Definition limiter_bob : RateLimiter :=
  snd (check_rate_limit 0 0 0 "bob" PREMIUM 50 (init rate_limits)).

(** The breaker config of the spec's recovery scenario. *)
Definition breaker_config : CircuitBreakerConfig :=
  {| failure_threshold := 3; recovery_timeout := 1 # 2;
     half_open_requests := 2 |}.

(** A breaker tripped by three failures, the last at time 3. *)
Definition breaker_open : Breaker.CircuitBreaker :=
  Breaker.run_ops
    [Breaker.RecordFailure 1 1; Breaker.RecordFailure 2 2;
     Breaker.RecordFailure 3 3]
    (Breaker.new_breaker 0 "default" breaker_config).

(** Three admission checks after the recovery timeout has passed. *)
Definition probes : list Breaker.Op :=
  [Breaker.CanExecute (36 # 10) 4 4; Breaker.CanExecute 4 4 4;
   Breaker.CanExecute 4 4 4].

(** A started router with the one service of [GatewayConfig]. *)
Definition service : UpstreamServiceConfig :=
  {| name := "default"; base_url := "http://localhost:9000"; timeout := 30;
     circuit_breaker := breaker_config;
     health_check_path := Some "/health"; health_check_interval := 30 |}.

Definition router : Router.RequestRouter :=
  {| Router._services := {[ "default" := service ]};
     Router._endpoint_costs := [];
     Router._route_patterns := [];
     Router._client := true |}.

Definition request : Http.Request :=
  {| Http.method := "GET"; Http.url_path := "/api/v1/items";
     Http.url_query := ""; Http.headers := [("X-API-Key", "alice")];
     Http.body := ""; Http.client_host := Some "10.0.0.1" |}.

Definition proxy_clock : Router.ProxyClock :=
  {| Router.pc_new := 3; Router.pc_check := 3; Router.pc_check_change := 3;
     Router.pc_check_msg := 3; Router.pc_record := 4;
     Router.pc_record_change := 4 |}.

(** Patterns without metacharacters match as prefixes. *)
Definition re_match (pattern path : string) : bool :=
  String.prefix pattern path.

Definition urljoin (base path : string) : string := base +:+ path.

(** An upstream that answers every request with a 500. *)
Definition failing_upstream (req : Router.UpstreamRequest)
  : Router.UpstreamOutcome :=
  Router.Responded 500 [("Connection", "close")] "boom".

(** An upstream that cannot be reached. *)
Definition unreachable_upstream (req : Router.UpstreamRequest)
  : Router.UpstreamOutcome :=
  Router.ConnectError.

(** A registry whose breaker for the service is OPEN. *)
Definition registry_open : gmap string Breaker.CircuitBreaker :=
  {[ "default" := breaker_open ]}.

(** The middleware's view of the config, with a pattern that is plain
    text. *)
Definition gateway_config : Middleware.GatewayConfig :=
  {| Middleware.endpoint_costs :=
       [{| path_pattern := "/api/v1/search"; token_cost := 5 |}];
     Middleware.client_id_header := "X-API-Key";
     Middleware.fallback_to_ip := true |}.

Definition tier_resolver (client_id : string) : ClientTier := FREE.

(** A handler behind the middleware that answers 200. *)
Definition call_next (request : Http.Request) (st : Middleware.State unit)
  : Py.result Http.Response * Middleware.State unit :=
  (Py.Ok {| Http.content := Http.Raw "ok"; Http.status_code := 200;
            Http.resp_headers := [] |}, st).

(** A gateway whose client has just spent its 10 tokens at time 0. *)
Definition gateway_spent : Middleware.State unit :=
  {| Middleware.limiter :=
       snd (check_rate_limit 0 0 0 "alice" FREE 10 (init rate_limits));
     Middleware.metrics :=
       {| Metrics._retention_seconds := 3600; Metrics._metrics := [];
          Metrics._start_time := 0 |};
     Middleware.log := [];
     Middleware.app := tt |}.

(** The limiter's clock half a second later. *)
Definition dispatch_clock : Middleware.DispatchClock :=
  {| Middleware.w_start := 1000; Middleware.m_new := 1 # 2;
     Middleware.m_consume := 1 # 2; Middleware.m_avail := 1 # 2;
     Middleware.w_latency := 1000; Middleware.w_metric := 1000;
     Middleware.w_cleanup := 1000; Middleware.w_reset := 1000 |}.

(** A gateway whose client has 3 tokens left, and a search (cost 5). *)
Definition gateway_low : Middleware.State unit :=
  {| Middleware.limiter :=
       snd (check_rate_limit 0 0 0 "alice" FREE 7 (init rate_limits));
     Middleware.metrics :=
       {| Metrics._retention_seconds := 3600; Metrics._metrics := [];
          Metrics._start_time := 0 |};
     Middleware.log := [];
     Middleware.app := tt |}.

Definition search_request : Http.Request :=
  {| Http.method := "GET"; Http.url_path := "/api/v1/search";
     Http.url_query := "q=bucket"; Http.headers := [("x-api-key", "alice")];
     Http.body := ""; Http.client_host := None |}.

Definition same_instant : Middleware.DispatchClock :=
  {| Middleware.w_start := 1000; Middleware.m_new := 0;
     Middleware.m_consume := 0; Middleware.m_avail := 0;
     Middleware.w_latency := 1000; Middleware.w_metric := 1000;
     Middleware.w_cleanup := 1000; Middleware.w_reset := 1000 |}.



(** A tier table with FREE alone, and one with PREMIUM alone. *)
Definition free_only (tier : ClientTier) : option RateLimitConfig :=
  match tier with
  | FREE => Some {| tokens_per_second := 1; Models.max_tokens := 10 |}
  | _ => None
  end.

Definition premium_only (tier : ClientTier) : option RateLimitConfig :=
  match tier with
  | PREMIUM => Some {| tokens_per_second := 20; Models.max_tokens := 200 |}
  | _ => None
  end.

(** The limiter of alice after bob's first request at time 5000. *)
Definition limiter_two : RateLimiter :=
  snd (check_rate_limit 5000 5000 5000 "bob" PREMIUM 1 limiter_alice).

(** A fresh breaker, and the breaker [breaker_open] after the admission
    that enters HALF_OPEN. *)
Definition breaker_new : Breaker.CircuitBreaker :=
  Breaker.new_breaker 0 "default" breaker_config.

Definition breaker_half_open : Breaker.CircuitBreaker :=
  Breaker.run_op (Breaker.CanExecute (36 # 10) 4 4) breaker_open.

(** A breaker one failure short of tripping, and the readings of a wrapped
    call that fails at time 3 and of one that checks in at time 3.2. *)
Definition breaker_strained : Breaker.CircuitBreaker :=
  Breaker.run_ops [Breaker.RecordFailure 1 1; Breaker.RecordFailure 2 2]
                  breaker_new.

Definition wrap_clock : BreakerRuns.WrapClock :=
  {| BreakerRuns.wc_check := 3; BreakerRuns.wc_check_change := 3;
     BreakerRuns.wc_check_msg := 3; BreakerRuns.wc_record := 3;
     BreakerRuns.wc_record_change := 3 |}.

Definition wrap_clock_soon : BreakerRuns.WrapClock :=
  {| BreakerRuns.wc_check := 32 # 10; BreakerRuns.wc_check_change := 32 # 10;
     BreakerRuns.wc_check_msg := 32 # 10; BreakerRuns.wc_record := 33 # 10;
     BreakerRuns.wc_record_change := 33 # 10 |}.

(** A cost table and a route table with plain-text patterns, the specific
    pattern first. *)
Definition endpoint_costs : list EndpointConfig :=
  [{| path_pattern := "/api/v1/search"; token_cost := 5 |};
   {| path_pattern := "/api/v1/"; token_cost := 1 |}].

Definition routed : Router.RequestRouter :=
  {| Router._services := {[ "default" := service ]};
     Router._endpoint_costs := endpoint_costs;
     Router._route_patterns := [("/api/v1/search", "search"); ("/api", "default")];
     Router._client := true |}.

Definition stopped : Router.RequestRouter :=
  {| Router._services := {[ "default" := service ]};
     Router._endpoint_costs := [];
     Router._route_patterns := [];
     Router._client := false |}.

Definition mixed_headers : list (string * string) :=
  [("Connection", "close"); ("HOST", "gateway.example");
   ("Accept", "*/*"); ("Transfer-Encoding", "chunked")].

(** Two services, one without a health path, and a probe that answers
    503. *)
Definition quiet_service : UpstreamServiceConfig :=
  {| name := "batch"; base_url := "http://localhost:9100"; timeout := 30;
     circuit_breaker := breaker_config;
     health_check_path := None; health_check_interval := 30 |}.

Definition services : gmap string UpstreamServiceConfig :=
  {[ "default" := service; "batch" := quiet_service ]}.

Definition health_get (url : string) : Health.GetOutcome :=
  Health.GetResponded 503.

(** A probe of the gateway's own health endpoint, without credentials. *)
Definition health_request : Http.Request :=
  {| Http.method := "GET"; Http.url_path := "/health/live";
     Http.url_query := ""; Http.headers := [];
     Http.body := ""; Http.client_host := None |}.

(** A collector holding 999 records stamped 0, and one holding four
    records of two clients. *)
Definition old_metric : Metrics.RequestMetric :=
  {| Metrics.timestamp := 0; Metrics.client_id := "alice";
     Metrics.path := "/api/v1/items"; Metrics.method := "GET";
     Metrics.status_code := 200; Metrics.latency_ms := 12;
     Metrics.rate_limited := false; Metrics.service := None;
     Metrics.error := None |}.

Definition collector_999 : Metrics.MetricsCollector :=
  {| Metrics._retention_seconds := 3600;
     Metrics._metrics := repeat old_metric 999;
     Metrics._start_time := 0 |}.

Definition metric_of (stamp : Q) (cid : string) (status : Z) (latency : Q)
    (limited : bool) : Metrics.RequestMetric :=
  {| Metrics.timestamp := stamp; Metrics.client_id := cid;
     Metrics.path := "/api/v1/items"; Metrics.method := "GET";
     Metrics.status_code := status; Metrics.latency_ms := latency;
     Metrics.rate_limited := limited; Metrics.service := None;
     Metrics.error := None |}.

Definition collector : Metrics.MetricsCollector :=
  {| Metrics._retention_seconds := 3600;
     Metrics._metrics :=
       [metric_of 10 "alice" 200 30 false; metric_of 4000 "alice" 200 20 false;
        metric_of 4010 "bob" 429 1 true; metric_of 4020 "alice" 502 40 false;
        metric_of 4030 "bob" 200 10 false];
     Metrics._start_time := 0 |}.

End Sample.

(** * Properties *)

(** ** Python arithmetic *)

Section PyFacts.
Local Open Scope Q_scope.

Lemma leb_le (a b : Q) : Py.leb a b = true <-> a <= b.
Proof. unfold Py.leb. apply Qle_bool_iff. Qed.

Lemma leb_gt (a b : Q) : Py.leb a b = false <-> b < a.
Proof.
  unfold Py.leb. split; intros H.
  - apply Qnot_le_lt. intros Hle. apply Qle_bool_iff in Hle. congruence.
  - destruct (Qle_bool a b) eqn:E; [|reflexivity].
    apply Qle_bool_iff in E. lra.
Qed.

Lemma ltb_lt (a b : Q) : Py.ltb a b = true <-> a < b.
Proof.
  unfold Py.ltb. rewrite negb_true_iff. apply (leb_gt b a).
Qed.

Lemma ltb_ge (a b : Q) : Py.ltb a b = false <-> b <= a.
Proof.
  unfold Py.ltb. rewrite negb_false_iff. apply (leb_le b a).
Qed.

(** Python's [min] on two floats is the minimum of the rationals. *)
Lemma min_Qmin (a b : Q) : Py.min a b = Qmin a b.
Proof.
  unfold Py.min, Qmin, GenericMinMax.gmin.
  destruct (Py.ltb b a) eqn:E.
  - apply ltb_lt in E. apply Qgt_alt in E. now rewrite E.
  - apply ltb_ge in E. destruct (a ?= b) eqn:C; try reflexivity.
    apply Qgt_alt in C. lra.
Qed.

Lemma min_cases (a b : Q) :
  (a <= b /\ Py.min a b = a) \/ (b < a /\ Py.min a b = b).
Proof.
  unfold Py.min. destruct (Py.ltb b a) eqn:E.
  - right. apply ltb_lt in E. auto.
  - left. apply ltb_ge in E. auto.
Qed.

Lemma div_nonzero (a b : Q) : ~ b == 0 -> Py.div a b = Ok (a / b).
Proof.
  intros H. unfold Py.div. destruct (Qeq_bool b 0) eqn:E; [|reflexivity].
  apply Qeq_bool_iff in E. contradiction.
Qed.

(** On a non-negative float [int] is the floor. *)
Lemma int_floor (x : Q) : 0 <= x -> Py.int x = Qfloor x.
Proof.
  destruct x as [n d]. unfold Qle, Py.int, Qfloor. simpl. intros H.
  apply Z.quot_div_nonneg; lia.
Qed.

End PyFacts.

(** ** The token bucket *)

Section BucketFacts.
Import Models Limiter.
Local Open Scope Q_scope.

Lemma refill_tokens (now : Q) (b : TokenBucket) :
  tokens (refill now b)
  = Qmin (inject_Z (max_tokens b))
         (tokens b + (now - last_refill b) * refill_rate b).
Proof. unfold refill. simpl. apply min_Qmin. Qed.

Lemma consume_allowed (now : Q) (cost : Z) (b : TokenBucket) :
  inject_Z cost <= tokens (refill now b) ->
  consume now cost b
  = (Ok (true, 0),
     {| tokens := tokens (refill now b) - inject_Z cost;
        max_tokens := max_tokens b;
        refill_rate := refill_rate b;
        last_refill := now |}).
Proof.
  intros H. unfold consume. apply leb_le in H. rewrite H. reflexivity.
Qed.

Lemma consume_denied (now : Q) (cost : Z) (b : TokenBucket) :
  ~ refill_rate b == 0 ->
  tokens (refill now b) < inject_Z cost ->
  consume now cost b
  = (Ok (false, (inject_Z cost - tokens (refill now b)) / refill_rate b),
     refill now b).
Proof.
  intros Hr H. unfold consume. apply leb_gt in H. rewrite H.
  change (refill_rate (refill now b)) with (refill_rate b).
  rewrite (div_nonzero _ _ Hr). reflexivity.
Qed.

(** With a cost that is not negative, [consume] never leaves more than
    the refill gave. *)
Lemma consume_never_adds (now : Q) (cost : Z) (b : TokenBucket) :
  (0 <= cost)%Z ->
  tokens (snd (consume now cost b)) <= tokens (refill now b).
Proof.
  intros Hc. assert (0 <= inject_Z cost) by (unfold Qle; simpl; lia).
  unfold consume.
  destruct (Py.leb (inject_Z cost) (tokens (refill now b))).
  - cbn [snd tokens]. lra.
  - destruct (Py.div _ _); cbn [snd]; lra.
Qed.

(** C1. An admission attempt with cost [cost] at time [now] first refills
    the bucket: the count becomes the minimum of the capacity and
    [tokens + elapsed * refill_rate], and [last_refill] becomes [now].
    If the refilled count covers the cost, the call takes [cost] tokens
    and returns [(True, 0)]; otherwise it returns [False] with
    [(cost - tokens) / refill_rate] and leaves the refilled count as it
    is. The refill rate is not zero (configs are validated to a positive
    rate; with a zero rate the division of the rejection raises). *)
Theorem consume_refills_then_decides (now : Q) (cost : Z) (b : TokenBucket) :
  ~ refill_rate b == 0 ->
  let b1 := refill now b in
  tokens b1 = Qmin (inject_Z (max_tokens b))
                   (tokens b + (now - last_refill b) * refill_rate b)
  /\ last_refill b1 = now
  /\ (inject_Z cost <= tokens b1 ->
      fst (consume now cost b) = Ok (true, 0)
      /\ tokens (snd (consume now cost b)) = tokens b1 - inject_Z cost
      /\ last_refill (snd (consume now cost b)) = now)
  /\ (tokens b1 < inject_Z cost ->
      fst (consume now cost b)
      = Ok (false, (inject_Z cost - tokens b1) / refill_rate b)
      /\ snd (consume now cost b) = b1).
Proof.
  intros Hr b1. subst b1. split; [apply refill_tokens|].
  split; [reflexivity|]. split; intros H.
  - rewrite (consume_allowed _ _ _ H). simpl. auto.
  - rewrite (consume_denied _ _ _ Hr H). simpl. auto.
Qed.

Lemma consume_refills_then_decides_witness :
  fst (consume 2 1 Sample.bucket) = Ok (true, 0)
  /\ tokens (snd (consume 2 1 Sample.bucket)) == 3 # 2
  /\ fst (consume 2 5 Sample.bucket) = Ok (false, (5 - (5 # 2)) / 1).
Proof.
  assert (Hr : ~ refill_rate Sample.bucket == 0) by (vm_compute; discriminate).
  destruct (consume_refills_then_decides 2 1 Sample.bucket Hr)
    as (_ & _ & Hyes & _).
  destruct (consume_refills_then_decides 2 5 Sample.bucket Hr)
    as (_ & _ & _ & Hno).
  destruct Hyes as (H1 & H2 & _); [vm_compute; discriminate|].
  destruct Hno as (H3 & _); [vm_compute; reflexivity|].
  split; [exact H1|]. split; [rewrite H2; vm_compute; reflexivity|].
  rewrite H3. vm_compute. reflexivity.
Defined.

End BucketFacts.

(** ** The limiter *)

Section LimiterFacts.
Import Models Limiter.
Local Open Scope Q_scope.

Lemma config_for_Ok (l : RateLimiter) (tier : ClientTier) (c : RateLimitConfig) :
  config_for l tier = Ok c -> exists t, _rate_configs l t = Some c.
Proof.
  unfold config_for. destruct (_rate_configs l FREE) eqn:EF; [|discriminate].
  destruct (_rate_configs l tier) eqn:ET; intros [= <-]; eauto.
Qed.

Lemma config_for_Raise (l : RateLimiter) (tier : ClientTier) (e : exn) :
  config_for l tier = Raise e -> e = KeyError.
Proof.
  unfold config_for. destruct (_rate_configs l FREE); [|congruence].
  destruct (_rate_configs l tier); discriminate.
Qed.

(** What [check_rate_limit] does, case by case: it raises [KeyError]
    before any change, or it consumes from a bucket [b1] that is the
    stored one (possibly retuned to another tier) or a new full one. *)
Lemma check_rate_limit_cases t_new t_consume t_avail cid tier cost l :
  let r := fst (check_rate_limit t_new t_consume t_avail cid tier cost l) in
  let l' := snd (check_rate_limit t_new t_consume t_avail cid tier cost l) in
  _rate_configs l' = _rate_configs l
  /\ ((r = Raise KeyError /\ l' = l)
      \/ exists b1,
          ((exists b, _buckets l !! cid = Some b
                      /\ tokens b1 = tokens b
                      /\ last_refill b1 = last_refill b
                      /\ ((max_tokens b1 = max_tokens b
                           /\ refill_rate b1 = refill_rate b)
                          \/ from_config l b1))
           \/ (_buckets l !! cid = None
               /\ from_config l b1
               /\ tokens b1 = inject_Z (max_tokens b1)
               /\ last_refill b1 = t_new))
          /\ match fst (consume t_consume cost b1) with
             | Raise e =>
                 r = Raise e
                 /\ _buckets l'
                    = <[cid := snd (consume t_consume cost b1)]> (_buckets l)
             | Ok (allowed, retry) =>
                 r = Ok (allowed, retry,
                         tokens (refill t_avail (snd (consume t_consume cost b1))))
                 /\ _buckets l'
                    = <[cid := refill t_avail (snd (consume t_consume cost b1))]>
                        (_buckets l)
             end).
Proof.
  unfold check_rate_limit, _get_or_create_bucket.
  destruct (_buckets l !! cid) as [b|] eqn:Eb.
  - (* the bucket exists *)
    destruct (tier_differs (_client_tiers l !! cid) tier).
    + destruct (config_for l tier) as [c|e] eqn:Ec.
      * apply config_for_Ok in Ec as [t Ht].
        match goal with
        | |- context [consume _ _ ?B] => set (b1 := B)
        end.
        destruct (consume t_consume cost b1) as [[[allowed retry]|e] b2] eqn:Ecs;
          simpl; (split; [reflexivity|]); right; exists b1;
          (split; [left; exists b; repeat split; try reflexivity;
                   right; exists t, c; auto|]);
          rewrite Ecs; simpl; auto.
      * apply config_for_Raise in Ec as ->. simpl. auto.
    + destruct (consume t_consume cost b) as [[[allowed retry]|e] b2] eqn:Ecs;
        simpl; (split; [reflexivity|]); right; exists b;
        (split; [left; exists b; repeat split; try reflexivity; left; auto|]);
        rewrite Ecs; simpl; auto.
  - (* the bucket is created *)
    destruct (config_for l tier) as [c|e] eqn:Ec.
    + simpl. rewrite lookup_insert_eq. 
      replace (tier_differs (Some tier) tier) with false
        by (destruct tier; reflexivity).
      apply config_for_Ok in Ec as [t Ht].
      match goal with
      | |- context [consume _ _ ?B] => set (b1 := B)
      end.
      destruct (consume t_consume cost b1) as [[[allowed retry]|e] b2] eqn:Ecs;
        simpl; (split; [reflexivity|]); right; exists b1;
        (split; [right; repeat split; try reflexivity; exists t, c; auto|]);
        rewrite Ecs; simpl; rewrite insert_insert_eq; auto.
    + apply config_for_Raise in Ec as ->. simpl. auto.
Qed.


Lemma bucket_ok_later (t t' : Q) (b : TokenBucket) :
  bucket_ok t b -> t <= t' -> bucket_ok t' b.
Proof. unfold bucket_ok. intros (H1 & H2 & H3 & H4) Ht. repeat split; lra. Qed.

Lemma elapsed_gain_nonneg (now : Q) (b : TokenBucket) :
  0 < refill_rate b -> last_refill b <= now ->
  0 <= (now - last_refill b) * refill_rate b.
Proof. intros Hr Ht. apply Qmult_le_0_compat; lra. Qed.

(** A refill never lowers a count that is within the capacity. *)
Lemma refill_grows (now : Q) (b : TokenBucket) :
  0 < refill_rate b -> last_refill b <= now ->
  tokens b <= inject_Z (max_tokens b) ->
  tokens b <= tokens (refill now b).
Proof.
  intros Hr Ht Hc. pose proof (elapsed_gain_nonneg now b Hr Ht) as Hg.
  unfold refill. simpl.
  destruct (min_cases (inject_Z (max_tokens b))
                      (tokens b + (now - last_refill b) * refill_rate b))
    as [[_ ->]|[_ ->]]; lra.
Qed.

(** A refill brings any non-negative count within bounds. *)
Lemma refill_ok (now : Q) (b : TokenBucket) :
  0 <= tokens b -> (0 <= max_tokens b)%Z ->
  0 < refill_rate b -> last_refill b <= now ->
  bucket_ok now (refill now b).
Proof.
  intros H0 Hm Hr Ht. pose proof (elapsed_gain_nonneg now b Hr Ht) as Hg.
  assert (0 <= inject_Z (max_tokens b)) by (unfold Qle; simpl; lia).
  unfold bucket_ok, refill. simpl.
  destruct (min_cases (inject_Z (max_tokens b))
                      (tokens b + (now - last_refill b) * refill_rate b))
    as [[Hle ->]|[Hlt ->]]; repeat split; lra.
Qed.

(** [consume] returns normally on a positive rate and leaves a
    non-negative count, stamped [now]. *)
Lemma consume_ok (now : Q) (cost : Z) (b : TokenBucket) :
  0 <= tokens b -> (0 <= max_tokens b)%Z ->
  0 < refill_rate b -> last_refill b <= now ->
  let b2 := snd (consume now cost b) in
  (exists allowed retry, fst (consume now cost b) = Ok (allowed, retry)
     /\ (allowed = false -> b2 = refill now b /\ 0 < retry))
  /\ 0 <= tokens b2 /\ max_tokens b2 = max_tokens b
  /\ refill_rate b2 = refill_rate b /\ last_refill b2 = now.
Proof.
  intros H0 Hm Hr Ht. destruct (refill_ok now b H0 Hm Hr Ht) as (R0 & R1 & R2 & R3).
  destruct (Qlt_le_dec (tokens (refill now b)) (inject_Z cost)) as [Hlt|Hle].
  - assert (Hnz : ~ refill_rate b == 0) by (intros E; lra).
    rewrite (consume_denied now cost b Hnz Hlt). cbn [fst snd].
    split; [|repeat split; auto].
    eexists _, _. split; [reflexivity|]. intros _. split; [reflexivity|].
    apply Qlt_shift_div_l; lra.
  - rewrite (consume_allowed now cost b Hle). cbn [fst snd tokens max_tokens refill_rate last_refill].
    split; [|repeat split; auto; lra].
    eexists _, _. split; [reflexivity|]. discriminate.
Qed.

Lemma valid_config_bounds (c : RateLimitConfig) :
  valid_rate_limit c ->
  0 < tokens_per_second c /\ (0 <= Models.max_tokens c)%Z
  /\ 0 <= inject_Z (Models.max_tokens c).
Proof.
  intros [H1 H2]. repeat split; [exact H1|lia|unfold Qle; simpl; lia].
Qed.

Lemma LimiterInv_later (t t' : Q) (l : RateLimiter) :
  LimiterInv t l -> t <= t' -> LimiterInv t' l.
Proof.
  intros [Hc Hb] Ht. split; [exact Hc|].
  intros k b Hk. eapply bucket_ok_later; [apply (Hb k b Hk)|exact Ht].
Qed.

(** [check_rate_limit] keeps the limiter within bounds, and lowers the
    count of a client only by a successful consume or by clamping to a
    capacity that a tier change set below the count. *)
Lemma check_rate_limit_inv t t_new t_consume t_avail cid tier cost l :
  LimiterInv t l ->
  t <= t_new -> t_new <= t_consume -> t_consume <= t_avail ->
  let r := fst (check_rate_limit t_new t_consume t_avail cid tier cost l) in
  let l' := snd (check_rate_limit t_new t_consume t_avail cid tier cost l) in
  LimiterInv t_avail l'
  /\ (forall k, k <> cid -> _buckets l' !! k = _buckets l !! k)
  /\ (forall b b', _buckets l !! cid = Some b -> _buckets l' !! cid = Some b' ->
        tokens b' < tokens b ->
        (exists retry remaining, r = Ok (true, retry, remaining))
        \/ inject_Z (max_tokens b') < tokens b)
  /\ (forall e, r = Raise e -> e = KeyError /\ l' = l)
  /\ (forall retry remaining, r = Ok (false, retry, remaining) ->
        0 < retry /\ 0 <= remaining).
Proof.
  intros Hinv H1 H2 H3 r l'.
  destruct (check_rate_limit_cases t_new t_consume t_avail cid tier cost l)
    as [Hcfg [[Hr Hl]|(b1 & Hb1 & Hres)]]; fold r l' in Hcfg |- *.
  - (* KeyError, nothing changed *)
    fold r in Hr. fold l' in Hl. rewrite Hl, Hr. split.
    { eapply LimiterInv_later; [exact Hinv|lra]. }
    split; [reflexivity|]. split.
    { intros b b' Hb Hb' Hlt. rewrite Hb in Hb'. injection Hb' as <-. lra. }
    split; [intros e [= <-]; auto | discriminate].
  - fold r l' in Hres. destruct Hinv as [Hvalid Hbs].
    assert (Hpre : 0 <= tokens b1 /\ (0 <= max_tokens b1)%Z
                   /\ 0 < refill_rate b1 /\ last_refill b1 <= t_consume).
    { destruct Hb1 as [(b & Hb & Ht & Hl & Hmr)|(Hnone & Hfc & Ht & Hl)].
      - destruct (Hbs cid b Hb) as (B0 & B1 & B2 & B3).
        rewrite Ht, Hl. split; [exact B0|].
        destruct Hmr as [[-> ->]|(tr & c & Hc & -> & ->)].
        + assert (0 <= inject_Z (max_tokens b)) as Hm by lra.
          unfold Qle in Hm; simpl in Hm. repeat split; try lra; lia.
        + destruct (valid_config_bounds c (Hvalid tr c Hc)) as (V1 & V2 & V3).
          repeat split; try lra; lia.
      - destruct Hfc as (tr & c & Hc & Hm & Hrt).
        destruct (valid_config_bounds c (Hvalid tr c Hc)) as (V1 & V2 & V3).
        rewrite Ht, Hl, Hm, Hrt. repeat split; try lra; lia. }
    destruct Hpre as (P0 & P1 & P2 & P3).
    destruct (consume_ok t_consume cost b1 P0 P1 P2 P3)
      as ((allowed & retry & Hcs & Hden) & C0 & C1 & C2 & C3).
    rewrite Hcs in Hres. destruct Hres as [Hr Hl'].
    set (b2 := snd (consume t_consume cost b1)) in *.
    assert (Hb2 : bucket_ok t_avail (refill t_avail b2)).
    { apply refill_ok; [exact C0|lia|rewrite C2; lra|rewrite C3; lra]. }
    split.
    { split; [rewrite Hcfg; exact Hvalid|]. rewrite Hl'.
      apply map_Forall_insert_2; [exact Hb2|].
      intros k b Hk. eapply bucket_ok_later; [apply (Hbs k b Hk)|lra]. }
    split.
    { intros k Hk. rewrite Hl'. apply lookup_insert_ne. congruence. }
    split.
    { intros b b' Hb Hb' Hlt. rewrite Hl', lookup_insert_eq in Hb'.
      injection Hb' as <-. destruct allowed.
      - left. eauto.
      - right. destruct (Hden eq_refl) as [Hb2eq _].
        destruct Hb1 as [(b0 & Hb0 & Ht & Hl & _)|(Hnone & _)]; [|congruence].
        rewrite Hb in Hb0. injection Hb0 as <-.
        change (max_tokens (refill t_avail b2)) with (max_tokens b2).
        rewrite C1.
        destruct (Qlt_le_dec (inject_Z (max_tokens b1)) (tokens b)) as [?|Hle];
          [assumption|exfalso].
        assert (tokens b1 <= tokens (refill t_consume b1))
          by (apply refill_grows; [lra|lra|rewrite Ht; lra]).
        assert (bucket_ok t_consume (refill t_consume b1)) as (_ & Q1 & _ & _)
          by (apply refill_ok; auto).
        assert (tokens b2 <= tokens (refill t_avail b2)).
        { apply refill_grows; [rewrite C2; lra|rewrite C3; lra|].
          rewrite Hb2eq. exact Q1. }
        rewrite Hb2eq in *. rewrite Ht in *. lra. }
    split; [rewrite Hr; discriminate|].
    intros rt rem. rewrite Hr. intros [= -> <- <-].
    destruct (Hden eq_refl) as [_ Hpos]. split; [exact Hpos|].
    apply Hb2.
Qed.

Lemma get_client_status_known now cid l b :
  _buckets l !! cid = Some b ->
  (exists st, fst (get_client_status now cid l) = Some st
              /\ st_available_tokens st = tokens (refill now b)
              /\ st_max_tokens st = max_tokens b)
  /\ _buckets (snd (get_client_status now cid l))
     = <[cid := refill now b]> (_buckets l)
  /\ _rate_configs (snd (get_client_status now cid l)) = _rate_configs l.
Proof.
  intros Hb. unfold get_client_status. rewrite Hb. simpl.
  split; [|split; reflexivity]. eexists. split; [reflexivity|]. simpl. auto.
Qed.

Lemma get_client_status_unknown now cid l :
  _buckets l !! cid = None -> get_client_status now cid l = (None, l).
Proof. intros Hb. unfold get_client_status. rewrite Hb. reflexivity. Qed.

Lemma reset_client_known now cid l b :
  _buckets l !! cid = Some b ->
  fst (reset_client now cid l) = true
  /\ _buckets (snd (reset_client now cid l))
     = <[cid := {| tokens := inject_Z (max_tokens b);
                   max_tokens := max_tokens b;
                   refill_rate := refill_rate b;
                   last_refill := now |}]> (_buckets l)
  /\ _rate_configs (snd (reset_client now cid l)) = _rate_configs l.
Proof. intros Hb. unfold reset_client. rewrite Hb. simpl. auto. Qed.

Lemma reset_client_unknown now cid l :
  _buckets l !! cid = None -> reset_client now cid l = (false, l).
Proof. intros Hb. unfold reset_client. rewrite Hb. reflexivity. Qed.

Lemma remove_client_lookup cid l k b :
  _buckets (snd (remove_client cid l)) !! k = Some b ->
  _buckets l !! k = Some b.
Proof.
  unfold remove_client. destruct (_buckets l !! cid); simpl; [|auto].
  rewrite lookup_delete_Some. tauto.
Qed.

(** [cleanup_inactive] keeps exactly the buckets that are not idle. *)
Lemma cleanup_inactive_lookup now max_idle l k :
  _buckets (snd (cleanup_inactive now max_idle l)) !! k
  = match _buckets l !! k with
    | Some b => if idle now max_idle b then None else Some b
    | None => None
    end.
Proof.
  unfold cleanup_inactive. simpl.
  set (to_remove := List.map fst _).
  assert (Hin : k ∈ to_remove <->
                exists b, _buckets l !! k = Some b /\ idle now max_idle b = true).
  { unfold to_remove. rewrite list_elem_of_In, in_map_iff. split.
    - intros ([k' b] & Hk & Hf). simpl in Hk. subst k'.
      apply filter_In in Hf as [Hm Hi]. simpl in Hi.
      apply list_elem_of_In, elem_of_map_to_list in Hm. eauto.
    - intros (b & Hb & Hi). exists (k, b). split; [reflexivity|].
      apply filter_In. split; [|exact Hi].
      apply list_elem_of_In, elem_of_map_to_list. exact Hb. }
  destruct (_buckets l !! k) as [b|] eqn:Hb.
  - destruct (idle now max_idle b) eqn:Hi.
    + apply lookup_foldr_delete, Hin. eauto.
    + rewrite lookup_foldr_delete_not_elem_of; [exact Hb|].
      rewrite Hin. intros (b' & [= <-] & Hi'). congruence.
  - rewrite lookup_foldr_delete_not_elem_of; [exact Hb|].
    rewrite Hin. intros (b' & Hb' & _). congruence.
Qed.

Lemma cleanup_inactive_configs now max_idle l :
  _rate_configs (snd (cleanup_inactive now max_idle l)) = _rate_configs l.
Proof. reflexivity. Qed.

(** C6. After every limiter operation (a check with its tier update and
    bucket creation, a status query, a reset, a removal, a cleanup) every
    bucket holds [0 <= tokens <= max_tokens]. The count of a client rises
    only in an operation that refills its bucket or in [reset_client], and
    falls only in a check whose consume succeeds or whose refill clamps it
    to a capacity that a tier change has set below the count. The configs
    are validated and the clock readings do not go back. *)
Theorem limiter_ops_keep_bounds (t : Q) (op : Op) (l : RateLimiter) :
  LimiterInv t l ->
  readings_from t op ->
  LimiterInv (last_reading t op) (run_op op l)
  /\ (forall cid b', _buckets (run_op op l) !! cid = Some b' ->
        0 <= tokens b' /\ tokens b' <= inject_Z (max_tokens b'))
  /\ (forall cid b b',
        _buckets l !! cid = Some b ->
        _buckets (run_op op l) !! cid = Some b' ->
        (tokens b < tokens b' -> performs_refill op cid \/ is_reset op cid)
        /\ (tokens b' < tokens b ->
            successful_consume op cid l
            \/ (is_check op cid /\ inject_Z (max_tokens b') < tokens b))).
Proof.
  intros Hinv Hclk.
  assert (Hstep : LimiterInv (last_reading t op) (run_op op l)
    /\ (forall cid b b',
        _buckets l !! cid = Some b ->
        _buckets (run_op op l) !! cid = Some b' ->
        (tokens b < tokens b' -> performs_refill op cid \/ is_reset op cid)
        /\ (tokens b' < tokens b ->
            successful_consume op cid l
            \/ (is_check op cid /\ inject_Z (max_tokens b') < tokens b)))).
  2:{ destruct Hstep as [Hinv' Hch]. split; [exact Hinv'|]. split; [|exact Hch].
      intros cid b' Hb'. destruct Hinv' as [_ Hbs].
      destruct (Hbs cid b' Hb') as (B0 & B1 & _). auto. }
  destruct op as [t_new t_consume t_avail c tier cost|now c|now c|c|now max_idle];
    simpl in Hclk |- *.
  - (* check_rate_limit *)
    destruct Hclk as (H1 & H2 & H3).
    destruct (check_rate_limit_inv t t_new t_consume t_avail c tier cost l
                Hinv H1 H2 H3) as (Hinv' & Hother & Hdown & _ & _).
    split; [exact Hinv'|]. intros cid b b' Hb Hb'.
    destruct (decide (cid = c)) as [->|Hne].
    + split; [auto|]. intros Hlt.
      destruct (Hdown b b' Hb Hb' Hlt) as [Hok|Hcap]; [left|right]; auto.
    + rewrite (Hother cid Hne), Hb in Hb'. injection Hb' as <-.
      split; intros Hlt; lra.
  - (* get_client_status *)
    destruct (_buckets l !! c) as [bc|] eqn:Hc.
    + destruct (get_client_status_known now c l bc Hc) as (_ & Hbs' & Hcfg).
      destruct Hinv as [Hvalid Hbs].
      destruct (Hbs c bc Hc) as (B0 & B1 & B2 & B3).
      assert (0 <= inject_Z (max_tokens bc)) as Hm by lra.
      unfold Qle in Hm; simpl in Hm.
      split.
      * split; [rewrite Hcfg; exact Hvalid|]. rewrite Hbs'.
        apply map_Forall_insert_2; [apply refill_ok; try lra; lia|].
        intros k b Hk. eapply bucket_ok_later; [apply (Hbs k b Hk)|lra].
      * intros cid b b' Hb Hb'. rewrite Hbs' in Hb'.
        destruct (decide (cid = c)) as [->|Hne].
        -- rewrite lookup_insert_eq in Hb'. injection Hb' as <-.
           rewrite Hc in Hb. injection Hb as <-.
           split; [auto|]. intros Hlt.
           assert (tokens bc <= tokens (refill now bc))
             by (apply refill_grows; lra). lra.
        -- rewrite lookup_insert_ne, Hb in Hb' by congruence.
           injection Hb' as <-. split; intros Hlt; lra.
    + rewrite (get_client_status_unknown now c l Hc). simpl. split.
      * eapply LimiterInv_later; [exact Hinv|exact Hclk].
      * intros cid b b' Hb Hb'. rewrite Hb in Hb'. injection Hb' as <-.
        split; intros Hlt; lra.
  - (* reset_client *)
    destruct (_buckets l !! c) as [bc|] eqn:Hc.
    + destruct (reset_client_known now c l bc Hc) as (_ & Hbs' & Hcfg).
      destruct Hinv as [Hvalid Hbs].
      destruct (Hbs c bc Hc) as (B0 & B1 & B2 & B3).
      split.
      * split; [rewrite Hcfg; exact Hvalid|]. rewrite Hbs'.
        apply map_Forall_insert_2.
        { unfold bucket_ok. simpl. repeat split; lra. }
        intros k b Hk. eapply bucket_ok_later; [apply (Hbs k b Hk)|lra].
      * intros cid b b' Hb Hb'. rewrite Hbs' in Hb'.
        destruct (decide (cid = c)) as [->|Hne].
        -- rewrite lookup_insert_eq in Hb'. injection Hb' as <-.
           rewrite Hc in Hb. injection Hb as <-. simpl.
           split; [auto|]. intros Hlt. lra.
        -- rewrite lookup_insert_ne, Hb in Hb' by congruence.
           injection Hb' as <-. split; intros Hlt; lra.
    + rewrite (reset_client_unknown now c l Hc). simpl. split.
      * eapply LimiterInv_later; [exact Hinv|exact Hclk].
      * intros cid b b' Hb Hb'. rewrite Hb in Hb'. injection Hb' as <-.
        split; intros Hlt; lra.
  - (* remove_client *)
    destruct Hinv as [Hvalid Hbs]. split.
    + split.
      * unfold remove_client. destruct (_buckets l !! c); exact Hvalid.
      * intros k b Hk. apply remove_client_lookup in Hk. apply (Hbs k b Hk).
    + intros cid b b' Hb Hb'. apply remove_client_lookup in Hb'.
      rewrite Hb in Hb'. injection Hb' as <-. split; intros Hlt; lra.
  - (* cleanup_inactive *)
    destruct Hinv as [Hvalid Hbs].
    assert (Hkeep : forall k b,
      _buckets (snd (cleanup_inactive now max_idle l)) !! k = Some b ->
      _buckets l !! k = Some b).
    { intros k b. rewrite cleanup_inactive_lookup.
      destruct (_buckets l !! k) as [b0|]; [|discriminate].
      destruct (idle now max_idle b0); congruence. }
    split.
    + split; [exact Hvalid|].
      intros k b Hk. apply Hkeep in Hk.
      eapply bucket_ok_later; [apply (Hbs k b Hk)|exact Hclk].
    + intros cid b b' Hb Hb'. apply Hkeep in Hb'.
      rewrite Hb in Hb'. injection Hb' as <-. split; intros Hlt; lra.
Qed.

Lemma sample_configs_valid (tier : ClientTier) (c : RateLimitConfig) :
  Sample.rate_limits tier = Some c -> valid_rate_limit c.
Proof.
  destruct tier; intros [= <-]; split; reflexivity.
Qed.

Lemma limiter_ops_keep_bounds_witness :
  LimiterInv 1 (run_op (CheckRateLimit 0 1 1 "alice" FREE 3)
                       (init Sample.rate_limits)).
Proof.
  apply (limiter_ops_keep_bounds 0 (CheckRateLimit 0 1 1 "alice" FREE 3)
                                 (init Sample.rate_limits)).
  - split; [exact sample_configs_valid | apply map_Forall_empty].
  - vm_compute. repeat split; discriminate.
Defined.

(** C6, as stated, fails twice. [reset_client] raises a count of 7 to 10
    without a refill, and a check that moves a client from PREMIUM to FREE
    is rejected (cost 20 against the new capacity 10) after its refill has
    cut the count from 150 to 10. *)
Lemma tokens_change_outside_refill_and_consume :
  ~ changes_by_refill_and_consume_only (ResetClient 0 "alice") Sample.limiter_alice
  /\ ~ changes_by_refill_and_consume_only
         (CheckRateLimit 0 0 0 "bob" FREE 20) Sample.limiter_bob.
Proof.
  split; intros H.
  - destruct (H "alice" _ _ eq_refl eq_refl) as [Hup _].
    apply Hup. vm_compute. reflexivity.
  - destruct (H "bob" _ _ eq_refl eq_refl) as [_ Hdown].
    destruct Hdown as [_ (retry & remaining & Hr)].
    + vm_compute. reflexivity.
    + vm_compute in Hr. discriminate Hr.
Qed.

(** A refill at or after the stamp of a full bucket leaves it full. *)
Lemma refill_full (now : Q) (b : TokenBucket) :
  tokens b = inject_Z (max_tokens b) ->
  0 <= refill_rate b -> last_refill b <= now ->
  tokens (refill now b) = inject_Z (max_tokens b).
Proof.
  intros Hfull Hr Ht. unfold refill. simpl. rewrite Hfull.
  assert (0 <= (now - last_refill b) * refill_rate b)
    by (apply Qmult_le_0_compat; lra).
  destruct (min_cases (inject_Z (max_tokens b))
              (inject_Z (max_tokens b) + (now - last_refill b) * refill_rate b))
    as [[_ ->]|[Hlt _]]; [reflexivity|lra].
Qed.

(** C8. For a client that has a bucket, [reset_client] returns [True],
    sets the count to the capacity and stamps [last_refill] with its
    reading; a status query that follows reports [available_tokens] equal
    to [max_tokens] (the rate is not negative and the clock does not go
    back between the two calls). For a client without a bucket
    [reset_client] returns [False] and changes nothing. *)
Theorem reset_then_status_is_full (t_reset t_status : Q) (cid : string)
    (l : RateLimiter) :
  (forall b, _buckets l !! cid = Some b ->
     0 <= refill_rate b -> t_reset <= t_status ->
     let l1 := snd (reset_client t_reset cid l) in
     fst (reset_client t_reset cid l) = true
     /\ (exists b1, _buckets l1 !! cid = Some b1
                    /\ tokens b1 = inject_Z (max_tokens b1)
                    /\ max_tokens b1 = max_tokens b
                    /\ last_refill b1 = t_reset)
     /\ (exists st, fst (get_client_status t_status cid l1) = Some st
                    /\ st_available_tokens st = inject_Z (st_max_tokens st)
                    /\ st_max_tokens st = max_tokens b))
  /\ (_buckets l !! cid = None -> reset_client t_reset cid l = (false, l)).
Proof.
  split; [|apply reset_client_unknown].
  intros b Hb Hr Ht l1.
  destruct (reset_client_known t_reset cid l b Hb) as (Hok & Hbs & _).
  fold l1 in Hbs. split; [exact Hok|].
  set (b1 := {| tokens := inject_Z (max_tokens b); max_tokens := max_tokens b;
                refill_rate := refill_rate b; last_refill := t_reset |}) in *.
  assert (Hb1 : _buckets l1 !! cid = Some b1)
    by (rewrite Hbs; apply lookup_insert_eq).
  split; [exists b1; auto|].
  destruct (get_client_status_known t_status cid l1 b1 Hb1)
    as ((st & Hst & Hav & Hmax) & _).
  exists st. split; [exact Hst|]. rewrite Hav, Hmax. split; [|reflexivity].
  apply refill_full; simpl; auto.
Qed.

Lemma reset_then_status_is_full_witness :
  (exists st,
     fst (get_client_status 2 "alice"
            (snd (reset_client 1 "alice" Sample.limiter_alice))) = Some st
     /\ st_available_tokens st = inject_Z (st_max_tokens st))
  /\ reset_client 1 "carol" Sample.limiter_alice = (false, Sample.limiter_alice).
Proof.
  destruct (reset_then_status_is_full 1 2 "alice" Sample.limiter_alice)
    as [Hknown _].
  destruct (reset_then_status_is_full 1 2 "carol" Sample.limiter_alice)
    as [_ Hunknown].
  split.
  - destruct (Hknown Sample.bucket_alice) as (_ & _ & st & Hst & Hfull & _).
    + vm_compute. reflexivity.
    + vm_compute. discriminate.
    + vm_compute. discriminate.
    + exists st. auto.
  - apply Hunknown. vm_compute. reflexivity.
Defined.

(** C10. [get_client_status] writes: for a client with a bucket it stores
    the refilled bucket, whose [last_refill] is the reading of the query
    and whose count is the minimum of the capacity and
    [tokens + elapsed * refill_rate]; the limiter differs from the one
    before whenever the stamp moved. A cleanup within [max_idle_seconds] of
    the query keeps the bucket, so status queries each followed by such a
    cleanup never lose it, while the same cleanup without the query evicts
    a bucket idle for longer. *)
Theorem status_query_refills_and_keeps_bucket (now : Q) (cid : string)
    (l : RateLimiter) (b : TokenBucket) :
  _buckets l !! cid = Some b ->
  let l1 := snd (get_client_status now cid l) in
  _buckets l1 !! cid = Some (refill now b)
  /\ last_refill (refill now b) = now
  /\ tokens (refill now b)
     = Qmin (inject_Z (max_tokens b))
            (tokens b + (now - last_refill b) * refill_rate b)
  /\ tokens (refill now b) <= inject_Z (max_tokens b)
  /\ (last_refill b <> now -> l1 <> l)
  /\ (forall t_cleanup max_idle,
        t_cleanup - now <= max_idle ->
        _buckets (snd (cleanup_inactive t_cleanup max_idle l1)) !! cid
        = Some (refill now b))
  /\ (forall t_cleanup max_idle,
        max_idle < t_cleanup - last_refill b ->
        _buckets (snd (cleanup_inactive t_cleanup max_idle l)) !! cid = None)
  /\ (forall max_idle rounds,
        Forall (fun r => snd r - fst r <= max_idle) rounds ->
        is_Some (_buckets (poll_rounds max_idle cid rounds l) !! cid)).
Proof.
  intros Hb l1.
  destruct (get_client_status_known now cid l b Hb) as (_ & Hbs & _).
  fold l1 in Hbs.
  assert (Hb1 : _buckets l1 !! cid = Some (refill now b))
    by (rewrite Hbs; apply lookup_insert_eq).
  split; [exact Hb1|]. split; [reflexivity|].
  split; [apply refill_tokens|].
  split; [rewrite refill_tokens; apply Q.le_min_l|].
  split.
  { intros Hne Heq. rewrite Heq, Hb in Hb1. injection Hb1 as Hb1.
    apply Hne. rewrite Hb1 at 1. reflexivity. }
  split.
  { intros t_cleanup max_idle Hgap. rewrite cleanup_inactive_lookup, Hb1.
    unfold idle. simpl.
    replace (Py.ltb max_idle (t_cleanup - now)) with false; [reflexivity|].
    symmetry. apply ltb_ge. exact Hgap. }
  split.
  { intros t_cleanup max_idle Hgap. rewrite cleanup_inactive_lookup, Hb.
    unfold idle. replace (Py.ltb max_idle (t_cleanup - last_refill b)) with true;
      [reflexivity|]. symmetry. apply ltb_lt. exact Hgap. }
  intros max_idle rounds Hrounds.
  assert (Hsome : is_Some (_buckets l !! cid)) by eauto.
  clear - Hrounds Hsome. revert l Hsome.
  induction Hrounds as [|[ts tc] rounds Hgap _ IH]; intros l Hsome;
    [exact Hsome|].
  cbn [poll_rounds]. apply IH. destruct Hsome as [b Hb].
  destruct (get_client_status_known ts cid l b Hb) as (_ & Hbs & _).
  rewrite cleanup_inactive_lookup, Hbs, lookup_insert_eq.
  unfold idle. simpl. simpl in Hgap.
  replace (Py.ltb max_idle (tc - ts)) with false; [eauto|].
  symmetry. apply ltb_ge. exact Hgap.
Qed.

Lemma status_query_refills_and_keeps_bucket_witness :
  is_Some (_buckets (poll_rounds 3600 "alice" [(5000, 5001); (9000, 9002)]
                                 Sample.limiter_alice) !! "alice")
  /\ _buckets (snd (cleanup_inactive 5001 3600 Sample.limiter_alice)) !! "alice"
     = None.
Proof.
  destruct (status_query_refills_and_keeps_bucket 5000 "alice"
              Sample.limiter_alice Sample.bucket_alice)
    as (_ & _ & _ & _ & _ & _ & Hevict & Hkeep).
  - vm_compute. reflexivity.
  - split.
    + apply Hkeep. repeat constructor; vm_compute; discriminate.
    + apply Hevict. vm_compute. reflexivity.
Defined.

End LimiterFacts.

(** ** The circuit breaker *)

Section BreakerFacts.
Import Models Breaker.
Local Open Scope Z_scope.

Lemma transition_config t s b : config (_transition_to t s b) = config b.
Proof. reflexivity. Qed.

Lemma transition_state t s b : _state (_transition_to t s b) = s.
Proof. reflexivity. Qed.

Lemma can_execute_config now tc tm b :
  config (snd (can_execute now tc tm b)) = config b.
Proof.
  unfold can_execute.
  destruct (_should_transition_to_half_open now b); simpl.
  - destruct (0 <? _); reflexivity.
  - destruct (_state b); try reflexivity.
    destruct (_ <? _); reflexivity.
Qed.

Lemma run_op_config op b : config (run_op op b) = config b.
Proof.
  destruct op; simpl.
  - apply can_execute_config.
  - unfold record_success. simpl. destruct (_state b); try reflexivity.
    destruct (_ <=? _); reflexivity.
  - unfold record_failure. simpl. destruct (_state b); try reflexivity.
    destruct (_ <=? _); reflexivity.
  - reflexivity.
Qed.

(** The admission check, case by case on the state it finds. *)
Lemma can_execute_closed now tc tm b :
  _state b = CLOSED -> can_execute now tc tm b = ((true, None), b).
Proof.
  intros H. unfold can_execute, _should_transition_to_half_open.
  rewrite H. simpl. rewrite H. reflexivity.
Qed.

Lemma can_execute_half_open now tc tm b :
  _state b = HALF_OPEN ->
  (_half_open_count b < half_open_requests (config b) ->
   can_execute now tc tm b
   = ((true, None), set_half_open_count (_half_open_count b + 1) b))
  /\ (half_open_requests (config b) <= _half_open_count b ->
      fst (fst (can_execute now tc tm b)) = false
      /\ snd (can_execute now tc tm b) = b).
Proof.
  intros H. unfold can_execute, _should_transition_to_half_open.
  rewrite H. simpl. rewrite H. split; intros Hc.
  - apply Z.ltb_lt in Hc. rewrite Hc. reflexivity.
  - apply Z.ltb_ge in Hc. rewrite Hc. auto.
Qed.

Lemma can_execute_open now tc tm b :
  _state b = OPEN ->
  (_should_transition_to_half_open now b = false ->
   fst (fst (can_execute now tc tm b)) = false
   /\ snd (can_execute now tc tm b) = b)
  /\ (_should_transition_to_half_open now b = true ->
      let b1 := set_half_open_count 0 (_transition_to tc HALF_OPEN b) in
      (0 < half_open_requests (config b) ->
       can_execute now tc tm b = ((true, None), set_half_open_count 1 b1))
      /\ (half_open_requests (config b) <= 0 ->
          fst (fst (can_execute now tc tm b)) = false
          /\ snd (can_execute now tc tm b) = b1)).
Proof.
  intros H. unfold can_execute. split; intros Hs; rewrite Hs.
  - rewrite H. auto.
  - simpl. split; intros Hc.
    + apply Z.ltb_lt in Hc. rewrite Hc. reflexivity.
    + apply Z.ltb_ge in Hc. rewrite Hc. auto.
Qed.

Local Ltac close_inv Hs :=
  split; [simpl; lia | simpl; rewrite ?Hs; solve [congruence | auto]].

Lemma breaker_inv_step op b : breaker_inv b -> breaker_inv (run_op op b).
Proof.
  intros (Hv & Hc & Hlf). unfold breaker_inv. rewrite run_op_config.
  split; [exact Hv|]. destruct Hv as (_ & _ & Hh).
  destruct op as [now tc tm|now tc|now tc|tn]; simpl.
  - destruct (_state b) eqn:Hs.
    + rewrite (can_execute_closed now tc tm b Hs). close_inv Hs.
    + destruct (can_execute_open now tc tm b Hs) as [Hno Hyes].
      destruct (_should_transition_to_half_open now b).
      * destruct (Hyes eq_refl) as [Hadm _]. rewrite (Hadm ltac:(lia)).
        close_inv Hs.
      * destruct (Hno eq_refl) as [_ ->]. close_inv Hs.
    + destruct (can_execute_half_open now tc tm b Hs) as [Hadm Hrej].
      destruct (Z_lt_le_dec (_half_open_count b) (half_open_requests (config b))).
      * rewrite (Hadm ltac:(lia)). close_inv Hs.
      * destruct (Hrej ltac:(lia)) as [_ ->]. close_inv Hs.
  - unfold record_success. simpl. destruct (_state b) eqn:Hs; simpl.
    + close_inv Hs.
    + close_inv Hs.
    + destruct (_ <=? _); close_inv Hs.
  - unfold record_failure. simpl. destruct (_state b) eqn:Hs; simpl.
    + destruct (_ <=? _); close_inv Hs.
    + close_inv Hs.
    + close_inv Hs.
  - split; [simpl; lia | simpl; congruence].
Qed.

Lemma reachable_inv b : reachable b -> breaker_inv b.
Proof.
  induction 1 as [t service cfg Hv|op b _ IH].
  - split; [exact Hv|]. simpl. destruct Hv as (_ & _ & Hh).
    split; [lia|discriminate].
  - apply breaker_inv_step. exact IH.
Qed.


Lemma reachable_run_ops ops b : reachable b -> reachable (run_ops ops b).
Proof.
  revert b. induction ops as [|op ops IH]; intros b Hb; [exact Hb|].
  apply (IH (run_op op b)). constructor. exact Hb.
Qed.

Lemma should_transition_true now b :
  _should_transition_to_half_open now b = true ->
  _state b = OPEN
  /\ forall lf, last_failure_time (_stats b) = Some lf ->
                (recovery_timeout (config b) <= now - lf)%Q.
Proof.
  unfold _should_transition_to_half_open.
  destruct (_state b); try discriminate.
  destruct (last_failure_time (_stats b)) as [lf|].
  - intros H. split; [reflexivity|]. intros ? [= <-]. apply leb_le. exact H.
  - intros _. split; [reflexivity|]. discriminate.
Qed.

(** C2. For a breaker reached by any sequence of operations: when it is
    OPEN and [can_execute] admits, the time since [last_failure_time] is at
    least [recovery_timeout], and the admission has moved the breaker to
    HALF_OPEN, where it counts as the first probe. *)
Theorem open_admits_only_after_recovery_timeout
    (b : CircuitBreaker) (now t_change t_msg : Q) :
  reachable b ->
  _state b = OPEN ->
  fst (fst (can_execute now t_change t_msg b)) = true ->
  exists lf,
    last_failure_time (_stats b) = Some lf
    /\ (recovery_timeout (config b) <= now - lf)%Q
    /\ _state (snd (can_execute now t_change t_msg b)) = HALF_OPEN
    /\ _half_open_count (snd (can_execute now t_change t_msg b)) = 1.
Proof.
  intros Hreach Hs Hadm.
  destruct (reachable_inv b Hreach) as ((_ & _ & Hh) & _ & Hlf).
  destruct (last_failure_time (_stats b)) as [lf|] eqn:Elf;
    [|exfalso; apply (Hlf Hs); reflexivity].
  exists lf. split; [reflexivity|].
  destruct (can_execute_open now t_change t_msg b Hs) as [Hno Hyes].
  destruct (_should_transition_to_half_open now b) eqn:Etr.
  - destruct (should_transition_true now b Etr) as [_ Hgap].
    split; [apply Hgap; exact Elf|].
    destruct (Hyes eq_refl) as [Hin _]. rewrite (Hin ltac:(lia)).
    split; reflexivity.
  - destruct (Hno eq_refl) as [Hrej _]. congruence.
Qed.

Lemma sample_breaker_reachable : reachable Sample.breaker_open.
Proof.
  apply reachable_run_ops. constructor. repeat split; discriminate.
Qed.

Lemma open_admits_only_after_recovery_timeout_witness :
  exists lf,
    last_failure_time (_stats Sample.breaker_open) = Some lf
    /\ (recovery_timeout (config Sample.breaker_open) <= (36 # 10) - lf)%Q
    /\ _state (snd (can_execute (36 # 10) 4 4 Sample.breaker_open)) = HALF_OPEN
    /\ _half_open_count (snd (can_execute (36 # 10) 4 4 Sample.breaker_open)) = 1.
Proof.
  apply (open_admits_only_after_recovery_timeout
           Sample.breaker_open (36 # 10) 4 4).
  - exact sample_breaker_reachable.
  - vm_compute. reflexivity.
  - vm_compute. reflexivity.
Defined.

(** One operation that leaves the breaker HALF_OPEN adds to the probe
    counter exactly when it is an admission. *)
Lemma half_open_step op b :
  breaker_inv b ->
  _state (run_op op b) = HALF_OPEN ->
  _half_open_count (run_op op b)
  = probes_before b + (if admits op b then 1 else 0).
Proof.
  intros ((_ & _ & Hh) & Hc & _). unfold probes_before.
  destruct op as [now tc tm|now tc|now tc|tn]; simpl.
  - destruct (_state b) eqn:Hs.
    + rewrite (can_execute_closed now tc tm b Hs). simpl. congruence.
    + destruct (can_execute_open now tc tm b Hs) as [Hno Hyes].
      destruct (_should_transition_to_half_open now b).
      * destruct (Hyes eq_refl) as [Hadm _]. rewrite (Hadm ltac:(lia)).
        reflexivity.
      * destruct (Hno eq_refl) as [_ ->]. congruence.
    + destruct (can_execute_half_open now tc tm b Hs) as [Hadm Hrej].
      destruct (Z_lt_le_dec (_half_open_count b) (half_open_requests (config b))).
      * rewrite (Hadm ltac:(lia)). reflexivity.
      * destruct (Hrej ltac:(lia)) as [-> ->]. lia.
  - unfold record_success. simpl. destruct (_state b) eqn:Hs; simpl;
      try congruence.
    destruct (_ <=? _); simpl; [discriminate|lia].
  - unfold record_failure. simpl. destruct (_state b) eqn:Hs; simpl;
      try congruence.
    destruct (_ <=? _); simpl; congruence.
  - discriminate.
Qed.

Lemma half_open_stay ops : forall b,
  breaker_inv b ->
  stays_half_open ops b ->
  _state b = HALF_OPEN \/ ops <> [] ->
  _state (run_ops ops b) = HALF_OPEN
  /\ _half_open_count (run_ops ops b) = probes_before b + admitted_count ops b.
Proof.
  induction ops as [|op ops IH]; intros b Hinv Hstay Hne.
  - destruct Hne as [Hs|]; [|congruence]. simpl. split; [exact Hs|].
    unfold probes_before. rewrite Hs. lia.
  - destruct Hstay as [Hs' Hstay].
    destruct (IH (run_op op b) (breaker_inv_step op b Hinv) Hstay (or_introl Hs'))
      as [Hfin Hcnt].
    change (run_ops (op :: ops) b) with (run_ops ops (run_op op b)).
    split; [exact Hfin|]. rewrite Hcnt.
    cbn [admitted_count].
    pose proof (half_open_step op b Hinv Hs') as Hstep.
    unfold probes_before at 1. rewrite Hs'. lia.
Qed.

(** C3. Over any operations during which a reachable breaker stays
    HALF_OPEN (they may start with the admission that enters HALF_OPEN),
    the admitted checks, together with the probes already admitted in the
    stay, number at most [half_open_requests]; once they reach that
    number every further check in HALF_OPEN is rejected and changes
    nothing. *)
Theorem half_open_admits_at_most_limit (b : CircuitBreaker) (ops : list Op) :
  reachable b ->
  stays_half_open ops b ->
  probes_before b + admitted_count ops b <= half_open_requests (config b)
  /\ admitted_count ops b <= half_open_requests (config b)
  /\ (_state (run_ops ops b) = HALF_OPEN ->
      probes_before b + admitted_count ops b = half_open_requests (config b) ->
      forall now t_change t_msg,
        fst (fst (can_execute now t_change t_msg (run_ops ops b))) = false
        /\ snd (can_execute now t_change t_msg (run_ops ops b)) = run_ops ops b).
Proof.
  intros Hreach Hstay.
  pose proof (reachable_inv b Hreach) as Hinv.
  pose proof (reachable_inv _ (reachable_run_ops ops b Hreach)) as Hinv'.
  assert (Hcfg : config (run_ops ops b) = config b).
  { clear. revert b. induction ops as [|op ops IH]; intros b; [reflexivity|].
    change (run_ops (op :: ops) b) with (run_ops ops (run_op op b)).
    rewrite IH. apply run_op_config. }
  assert (Hpb : 0 <= probes_before b).
  { unfold probes_before. destruct Hinv as (_ & Hc & _).
    destruct (_state b); lia. }
  assert (Hbound : probes_before b + admitted_count ops b
                   <= half_open_requests (config b)).
  { destruct ops as [|op ops].
    - simpl. unfold probes_before. destruct Hinv as ((_ & _ & Hh) & Hc & _).
      destruct (_state b); lia.
    - destruct (half_open_stay (op :: ops) b Hinv Hstay) as [_ Hcnt];
        [right; discriminate|].
      destruct Hinv' as (_ & Hc & _). rewrite Hcfg in Hc. lia. }
  split; [exact Hbound|]. split; [lia|].
  intros Hfin Hfull now t_change t_msg.
  assert (Hcnt : _half_open_count (run_ops ops b)
                 = probes_before b + admitted_count ops b).
  { destruct ops as [|op ops].
    - simpl in Hfin |- *. unfold probes_before. rewrite Hfin. lia.
    - apply (half_open_stay (op :: ops) b Hinv Hstay). right. discriminate. }
  destruct (can_execute_half_open now t_change t_msg (run_ops ops b) Hfin)
    as [_ Hrej].
  apply Hrej. rewrite Hcfg. lia.
Qed.


Lemma half_open_admits_at_most_limit_witness :
  admitted_count Sample.probes Sample.breaker_open <= 2
  /\ fst (fst (can_execute 5 5 5 (run_ops Sample.probes Sample.breaker_open)))
     = false.
Proof.
  destruct (half_open_admits_at_most_limit Sample.breaker_open Sample.probes)
    as (_ & Hle & Hrej).
  - exact sample_breaker_reachable.
  - vm_compute. repeat split; reflexivity.
  - split; [exact Hle|]. apply Hrej; vm_compute; reflexivity.
Defined.

(** C9. [record_success] on an OPEN breaker leaves it OPEN: it adds one to
    the total and successful counts, zeroes [consecutive_failures], stamps
    [last_success_time], and leaves the failure stamp and the probe counter
    alone. Of the operations of a breaker, only an admission check or a
    [reset] takes it out of OPEN. *)
Theorem success_in_open_stays_open (b : CircuitBreaker) (now t_change : Q) :
  _state b = OPEN ->
  let b' := record_success now t_change b in
  _state b' = OPEN
  /\ total_requests (_stats b') = total_requests (_stats b) + 1
  /\ successful_requests (_stats b') = successful_requests (_stats b) + 1
  /\ failed_requests (_stats b') = failed_requests (_stats b)
  /\ consecutive_failures (_stats b') = 0
  /\ last_success_time (_stats b') = Some now
  /\ last_failure_time (_stats b') = last_failure_time (_stats b)
  /\ state_changed_at (_stats b') = state_changed_at (_stats b)
  /\ _half_open_count b' = _half_open_count b
  /\ forall op, _state (run_op op b) <> OPEN ->
       (exists t1 t2 t3, op = CanExecute t1 t2 t3) \/ (exists t, op = Reset t).
Proof.
  intros Hs b'. subst b'. unfold record_success. simpl. rewrite Hs. simpl.
  repeat (split; [reflexivity || exact Hs|]).
  intros [t1 t2 t3|t1 t2|t1 t2|t] Hleft; simpl in Hleft.
  - left. eauto.
  - exfalso. apply Hleft. unfold record_success. simpl. rewrite Hs. reflexivity.
  - exfalso. apply Hleft. unfold record_failure. simpl. rewrite Hs. reflexivity.
  - right. eauto.
Qed.

Lemma success_in_open_stays_open_witness :
  _state (record_success 4 4 Sample.breaker_open) = OPEN
  /\ total_requests (_stats (record_success 4 4 Sample.breaker_open)) = 4.
Proof.
  destruct (success_in_open_stays_open Sample.breaker_open 4 4)
    as (Hs & Ht & _).
  - vm_compute. reflexivity.
  - split; [exact Hs|]. rewrite Ht. vm_compute. reflexivity.
Defined.

(** C9, as stated, fails: [reset] takes an OPEN breaker to CLOSED and is
    not an admission check. *)
Lemma reset_leaves_open :
  ~ only_can_execute_leaves_open (Reset 4) Sample.breaker_open.
Proof.
  intros H. destruct H as (t1 & t2 & t3 & Hop).
  - vm_compute. reflexivity.
  - vm_compute. discriminate.
  - discriminate Hop.
Qed.

End BreakerFacts.

(** ** The proxy *)

Section ProxyFacts.
Import Models Breaker Http Router.

Variable re_match : string -> string -> bool.
Variable urljoin : string -> string -> string.
Variable client_request : UpstreamRequest -> UpstreamOutcome.

Local Abbreviation router_proxy :=
  (Router.proxy_request re_match urljoin client_request).

(** [can_execute] never touches the request counters and never changes the
    breaker's name or config. *)
Lemma can_execute_counters now tc tm b :
  let b' := snd (can_execute now tc tm b) in
  total_requests (_stats b') = total_requests (_stats b)
  /\ successful_requests (_stats b') = successful_requests (_stats b)
  /\ failed_requests (_stats b') = failed_requests (_stats b).
Proof.
  unfold can_execute.
  destruct (_should_transition_to_half_open now b); simpl.
  - destruct (0 <? _)%Z; simpl; auto.
  - destruct (_state b); simpl; auto.
    destruct (_ <? _)%Z; simpl; auto.
Qed.

(** The paths through [proxy_request]: it stops before the breaker with no
    event and the registry untouched, or it reaches the breaker of a
    configured service, which either denies or lets the upstream call
    decide. *)
Lemma proxy_request_cases clk r request service_name reg :
  let '(res, reg', evs) := router_proxy clk r request service_name reg in
  (evs = [] /\ reg' = reg
   /\ exists msg, res = Raise (RuntimeError msg) \/ res = Raise (ValueError msg))
  \/ exists target service_config,
       _services r !! target = Some service_config
       /\ let circuit := fst (get_or_create (pc_new clk) target
                                 (circuit_breaker service_config) reg) in
          let checked := can_execute (pc_check clk) (pc_check_change clk)
                                     (pc_check_msg clk) circuit in
          let circuit1 := snd checked in
          (fst (fst checked) = false
           /\ evs = [EvCanExecute target]
           /\ res = Raise (CircuitOpenError (default "None" (snd (fst checked))))
           /\ reg' !! target = Some circuit1)
          \/ (fst (fst checked) = true
              /\ exists req,
                  match client_request req with
                  | Responded status hdrs content =>
                      evs = [EvCanExecute target; EvUpstreamRequest req;
                             EvRecordSuccess target]
                      /\ res = Ok {| content := Raw content;
                                     status_code := status;
                                     resp_headers := forwarded_response_headers hdrs |}
                      /\ reg' !! target
                         = Some (record_success (pc_record clk)
                                   (pc_record_change clk) circuit1)
                  | TimeoutException =>
                      evs = [EvCanExecute target; EvUpstreamRequest req;
                             EvRecordFailure target]
                      /\ res = Raise (UpstreamTimeoutError
                                        ("Timeout connecting to " +:+ target))
                      /\ reg' !! target
                         = Some (record_failure (pc_record clk)
                                   (pc_record_change clk) circuit1)
                  | ConnectError =>
                      evs = [EvCanExecute target; EvUpstreamRequest req;
                             EvRecordFailure target]
                      /\ res = Raise (UpstreamConnectionError
                                        ("Cannot connect to " +:+ target))
                      /\ reg' !! target
                         = Some (record_failure (pc_record clk)
                                   (pc_record_change clk) circuit1)
                  | OtherException name =>
                      evs = [EvCanExecute target; EvUpstreamRequest req;
                             EvRecordFailure target]
                      /\ res = Raise (ClientError name)
                      /\ reg' !! target
                         = Some (record_failure (pc_record clk)
                                   (pc_record_change clk) circuit1)
                  end).
Proof.
  unfold Router.proxy_request.
  destruct (_client r); simpl; [|left; eauto].
  match goal with
  | |- context [Py.truthy_str ?T] =>
      match T with
      | service_name => fail 1
      | _ => set (target_service := T)
      end
  end.
  destruct (Py.truthy_str target_service) as [target|]; [|simpl; left; eauto].
  destruct (_services r !! target) as [service_config|] eqn:Hsvc;
    [|simpl; left; eauto].
  destruct (get_or_create (pc_new clk) target (circuit_breaker service_config) reg)
    as [circuit reg1] eqn:Hgc.
  destruct (can_execute (pc_check clk) (pc_check_change clk) (pc_check_msg clk) circuit)
    as [[allowed reason] circuit1] eqn:Hce.
  destruct allowed; cbn [negb].
  - match goal with
    | |- context [client_request ?R] =>
        destruct (client_request R) eqn:Hup; cbn beta iota;
        right; exists target, service_config; (split; [exact Hsvc|]);
        rewrite Hgc; cbn [fst snd]; rewrite Hce; cbn [fst snd];
        right; (split; [reflexivity|]); exists R; rewrite Hup
    end; repeat split; try reflexivity; apply lookup_insert_eq.
  - cbn beta iota. right. exists target, service_config.
    split; [exact Hsvc|]. rewrite Hgc. cbn [fst snd]. rewrite Hce. cbn [fst snd].
    left. repeat split; try reflexivity. apply lookup_insert_eq.
Qed.


(** C4. When the upstream call of a proxied request yields an HTTP
    response, whatever its status, the proxy calls [record_success] on the
    breaker of the service (after [can_execute], and never
    [record_failure]) and returns the response with that status.
    [record_failure] is called only after an upstream call that raised: a
    timeout (the proxy raises [UpstreamTimeoutError]), a connection error
    ([UpstreamConnectionError]) or another exception (raised again). *)
Theorem response_records_success_exception_records_failure
    clk r request service_name reg :
  let '(res, reg', evs) := router_proxy clk r request service_name reg in
  (forall req status hdrs content,
     In (EvUpstreamRequest req) evs ->
     client_request req = Responded status hdrs content ->
     exists target service_config,
       _services r !! target = Some service_config
       /\ evs = [EvCanExecute target; EvUpstreamRequest req; EvRecordSuccess target]
       /\ res = Ok {| content := Raw content; status_code := status;
                      resp_headers := forwarded_response_headers hdrs |}
       /\ reg' !! target
          = Some (record_success (pc_record clk) (pc_record_change clk)
                    (snd (can_execute (pc_check clk) (pc_check_change clk)
                            (pc_check_msg clk)
                            (fst (get_or_create (pc_new clk) target
                                    (circuit_breaker service_config) reg))))))
  /\ (forall target,
        In (EvRecordFailure target) evs ->
        exists req,
          evs = [EvCanExecute target; EvUpstreamRequest req; EvRecordFailure target]
          /\ ((client_request req = TimeoutException
               /\ res = Raise (UpstreamTimeoutError ("Timeout connecting to " +:+ target)))
              \/ (client_request req = ConnectError
                  /\ res = Raise (UpstreamConnectionError ("Cannot connect to " +:+ target)))
              \/ (exists name, client_request req = OtherException name
                               /\ res = Raise (ClientError name)))).
Proof.
  pose proof (proxy_request_cases clk r request service_name reg) as Hcases.
  destruct (router_proxy clk r request service_name reg) as [[res reg'] evs].
  destruct Hcases as [(-> & _ & _)|(target & service_config & Hsvc & Hpath)].
  { split; [intros ? ? ? ? []|intros ? []]. }
  cbv zeta in Hpath.
  destruct Hpath as [(_ & -> & _ & _)|(_ & req0 & Hup)].
  { split.
    - intros ? ? ? ? [Hin|[]]. discriminate Hin.
    - intros ? [Hin|[]]. discriminate Hin. }
  destruct (client_request req0) eqn:Hreq0; destruct Hup as (-> & -> & Hreg).
  - split.
    + intros req status' hdrs' content' [Hin|[Hin|[Hin|[]]]] Hresp;
        try discriminate Hin.
      injection Hin as <-. rewrite Hreq0 in Hresp. injection Hresp as <- <- <-.
      exists target, service_config. auto.
    + intros ? [Hin|[Hin|[Hin|[]]]]; discriminate Hin.
  - split.
    + intros req status' hdrs' content' [Hin|[Hin|[Hin|[]]]] Hresp;
        try discriminate Hin.
      injection Hin as <-. congruence.
    + intros tg [Hin|[Hin|[Hin|[]]]]; try discriminate Hin.
      injection Hin as <-. exists req0. split; [reflexivity|]. left. auto.
  - split.
    + intros req status' hdrs' content' [Hin|[Hin|[Hin|[]]]] Hresp;
        try discriminate Hin.
      injection Hin as <-. congruence.
    + intros tg [Hin|[Hin|[Hin|[]]]]; try discriminate Hin.
      injection Hin as <-. exists req0. split; [reflexivity|]. right. left. auto.
  - split.
    + intros req status' hdrs' content' [Hin|[Hin|[Hin|[]]]] Hresp;
        try discriminate Hin.
      injection Hin as <-. congruence.
    + intros tg [Hin|[Hin|[Hin|[]]]]; try discriminate Hin.
      injection Hin as <-. exists req0. split; [reflexivity|].
      right. right. eauto.
Qed.

(** C7. When [can_execute] denies a proxied request, the router raises
    [CircuitOpenError] and the handler answers 503 with a [Retry-After]
    header; [can_execute] is the only call made (no upstream request, no
    recording), and the total, successful and failed counts of the breaker
    are what they were. *)
Theorem denied_admission_is_503_without_upstream clk r request reg target :
  let '(res, reg', evs) :=
    Main.proxy_request re_match urljoin client_request clk (Some r) request reg in
  In (EvCanExecute target) evs ->
  exists service_config,
    _services r !! target = Some service_config
    /\ let circuit := fst (get_or_create (pc_new clk) target
                             (circuit_breaker service_config) reg) in
       let checked := can_execute (pc_check clk) (pc_check_change clk)
                                  (pc_check_msg clk) circuit in
       fst (fst checked) = false ->
       fst (fst (router_proxy clk r request None reg))
       = Raise (CircuitOpenError (default "None" (snd (fst checked))))
       /\ res = Ok {| content :=
                        JsonBody [("error", JStr "Service unavailable");
                                  ("detail", JStr (default "None" (snd (fst checked))))];
                      status_code := 503;
                      resp_headers := [("Retry-After", "30")] |}
       /\ evs = [EvCanExecute target]
       /\ (forall req, ~ In (EvUpstreamRequest req) evs)
       /\ exists circuit',
            reg' !! target = Some circuit'
            /\ total_requests (_stats circuit') = total_requests (_stats circuit)
            /\ successful_requests (_stats circuit')
               = successful_requests (_stats circuit)
            /\ failed_requests (_stats circuit') = failed_requests (_stats circuit).
Proof.
  unfold Main.proxy_request.
  pose proof (proxy_request_cases clk r request None reg) as Hcases.
  destruct (router_proxy clk r request None reg) as [[res reg'] evs].
  destruct Hcases as [(-> & _ & _)|(target' & service_config & Hsvc & Hpath)];
    [intros []|].
  cbv zeta in Hpath. intros Hin.
  assert (target' = target) as ->.
  { destruct Hpath as [(_ & -> & _)|(_ & req0 & Hup)].
    - destruct Hin as [Hin|[]]. congruence.
    - destruct (client_request req0); destruct Hup as (-> & _);
        destruct Hin as [Hin|[Hin|[Hin|[]]]]; congruence. }
  exists service_config. split; [exact Hsvc|]. cbv zeta. intros Hden.
  destruct Hpath as [(_ & -> & -> & Hreg)|(Hadm & _)]; [|congruence].
  split; [reflexivity|]. split; [reflexivity|]. split; [reflexivity|].
  split; [intros req [Habs|[]]; discriminate Habs|].
  eexists. split; [exact Hreg|]. apply can_execute_counters.
Qed.

End ProxyFacts.

Section ProxyWitnesses.
Import Models Breaker Http Router.

Lemma response_records_success_exception_records_failure_witness :
  (exists req resp reg' circuit,
     Router.proxy_request Sample.re_match Sample.urljoin Sample.failing_upstream
       Sample.proxy_clock Sample.router Sample.request None ∅
     = (Ok resp, reg',
        [EvCanExecute "default"; EvUpstreamRequest req; EvRecordSuccess "default"])
     /\ status_code resp = 500%Z
     /\ reg' !! "default" = Some circuit
     /\ successful_requests (_stats circuit) = 1%Z
     /\ failed_requests (_stats circuit) = 0%Z)
  /\ (exists req reg',
        Router.proxy_request Sample.re_match Sample.urljoin
          Sample.unreachable_upstream
          Sample.proxy_clock Sample.router Sample.request None ∅
        = (Raise (UpstreamConnectionError "Cannot connect to default"), reg',
           [EvCanExecute "default"; EvUpstreamRequest req;
            EvRecordFailure "default"])).
Proof.
  split.
  - pose proof (response_records_success_exception_records_failure
                  Sample.re_match Sample.urljoin Sample.failing_upstream
                  Sample.proxy_clock Sample.router Sample.request None ∅) as H.
    destruct (Router.proxy_request Sample.re_match Sample.urljoin
                Sample.failing_upstream Sample.proxy_clock Sample.router
                Sample.request None ∅) as [[res reg'] evs] eqn:E.
    assert (Hevs : exists req,
               evs = [EvCanExecute "default"; EvUpstreamRequest req;
                      EvRecordSuccess "default"]).
    { eexists. apply (f_equal snd) in E. vm_compute in E. rewrite <- E.
      reflexivity. }
    destruct Hevs as [req Hevs]. destruct H as [Hresp _].
    destruct (Hresp req 500%Z [("Connection", "close")] "boom")
      as (target & cfg & Hsvc & Hev & Hres & Hreg).
    + rewrite Hevs. right. left. reflexivity.
    + reflexivity.
    + rewrite Hevs in Hev. injection Hev as <-.
      vm_compute in Hsvc. injection Hsvc as <-.
      exists req. eexists. exists reg'. eexists.
      rewrite Hres, Hevs, Hreg. repeat split.
  - pose proof (response_records_success_exception_records_failure
                  Sample.re_match Sample.urljoin Sample.unreachable_upstream
                  Sample.proxy_clock Sample.router Sample.request None ∅) as H.
    destruct (Router.proxy_request Sample.re_match Sample.urljoin
                Sample.unreachable_upstream Sample.proxy_clock Sample.router
                Sample.request None ∅) as [[res reg'] evs] eqn:E.
    destruct H as [_ Hfail].
    destruct (Hfail "default") as (req & Hev & Hwhy).
    + apply (f_equal snd) in E. vm_compute in E. rewrite <- E.
      right. right. left. reflexivity.
    + exists req, reg'. rewrite Hev.
      destruct Hwhy as [[Hup _]|[[_ ->]|(nm & Hup & _)]];
        [discriminate Hup|reflexivity|discriminate Hup].
Defined.

Lemma denied_admission_is_503_without_upstream_witness :
  exists resp reg',
    Main.proxy_request Sample.re_match Sample.urljoin Sample.failing_upstream
      Sample.proxy_clock (Some Sample.router) Sample.request Sample.registry_open
    = (Ok resp, reg', [EvCanExecute "default"])
    /\ status_code resp = 503%Z
    /\ headers_get "Retry-After" (resp_headers resp) = Some "30".
Proof.
  pose proof (denied_admission_is_503_without_upstream
                Sample.re_match Sample.urljoin Sample.failing_upstream
                Sample.proxy_clock Sample.router Sample.request
                Sample.registry_open "default") as H.
  destruct (Main.proxy_request Sample.re_match Sample.urljoin
              Sample.failing_upstream Sample.proxy_clock (Some Sample.router)
              Sample.request Sample.registry_open) as [[res reg'] evs] eqn:E.
  destruct H as (cfg & Hsvc & Hden).
  - apply (f_equal snd) in E. vm_compute in E. rewrite <- E. left. reflexivity.
  - vm_compute in Hsvc. injection Hsvc as <-.
    destruct Hden as (_ & Hres & Hevs & _); [vm_compute; reflexivity|].
    eexists. exists reg'. rewrite Hres, Hevs. repeat split.
Defined.

End ProxyWitnesses.

(** ** The middleware *)

Section RoundingFacts.
Local Open Scope Z_scope.

(** Away from the integers the ceiling is the floor plus one. *)
Lemma Qceiling_floor (x : Q) :
  (inject_Z (Qfloor x) == x -> Qceiling x = Qfloor x)
  /\ (~ inject_Z (Qfloor x) == x -> Qceiling x = Qfloor x + 1).
Proof.
  destruct x as [n d]. unfold Qceiling, Qfloor, Qeq. simpl.
  assert (Hd : 0 < Z.pos d) by lia.
  pose proof (Z.div_mod n (Z.pos d) ltac:(lia)) as Hdm.
  split; intros H.
  - assert (Hm : n mod Z.pos d = 0) by lia.
    rewrite (Z.div_opp_l_z n (Z.pos d)) by lia. lia.
  - assert (Hm : n mod Z.pos d <> 0) by lia.
    rewrite (Z.div_opp_l_nz n (Z.pos d)) by lia. lia.
Qed.

End RoundingFacts.

Section MiddlewareFacts.
Import Models Limiter Http Middleware.

Variable App : Type.
Variable re_match : string -> string -> bool.
Variable config : GatewayConfig.
Variable tier_resolver : string -> ClientTier.
Variable call_next : Request -> State App -> result Response * State App.

Local Abbreviation run_dispatch :=
  (dispatch App re_match config tier_resolver call_next).

(** The response of [dispatch] once the limiter has denied. *)
Lemma dispatch_denied clk request st retry remaining lim' :
  _is_exempt_path (url_path request) = false ->
  check_rate_limit (m_new clk) (m_consume clk) (m_avail clk)
    (_get_client_id config request)
    (tier_resolver (_get_client_id config request))
    (_get_token_cost re_match config (url_path request)) (limiter st)
  = (Ok (false, retry, remaining), lim') ->
  fst (run_dispatch clk request st)
  = Ok (rate_limit_response (w_reset clk) retry remaining)
  /\ limiter (snd (run_dispatch clk request st)) = lim'.
Proof.
  intros Hex Hchk. unfold dispatch. rewrite Hex, Hchk. simpl. auto.
Qed.

(** C5. When the limiter denies with retry time [retry] and [remaining]
    tokens, the middleware answers 429 with [Retry-After] the floor of
    [retry] plus one, [X-RateLimit-Remaining] the floor of [remaining] and
    [X-RateLimit-Reset] the floor of the wall clock plus [retry]. The
    [Retry-After] value is the ceiling of [retry] when [retry] is not a
    whole number and the ceiling plus one when it is. The limiter is within
    bounds, its clock does not go back and the wall clock is not
    negative. *)
Theorem denial_is_429_with_floor_headers
    (t : Q) (clk : DispatchClock) (request : Request) (st : State App)
    (retry remaining : Q) (lim' : RateLimiter) :
  _is_exempt_path (url_path request) = false ->
  check_rate_limit (m_new clk) (m_consume clk) (m_avail clk)
    (_get_client_id config request)
    (tier_resolver (_get_client_id config request))
    (_get_token_cost re_match config (url_path request)) (limiter st)
  = (Ok (false, retry, remaining), lim') ->
  LimiterInv t (limiter st) ->
  (t <= m_new clk)%Q -> (m_new clk <= m_consume clk)%Q ->
  (m_consume clk <= m_avail clk)%Q ->
  (0 <= w_reset clk)%Q ->
  exists resp,
    fst (run_dispatch clk request st) = Ok resp
    /\ Http.status_code resp = 429%Z
    /\ headers_get "Retry-After" (resp_headers resp)
       = Some (Py.str (Qfloor retry + 1))
    /\ headers_get "X-RateLimit-Remaining" (resp_headers resp)
       = Some (Py.str (Qfloor remaining))
    /\ headers_get "X-RateLimit-Reset" (resp_headers resp)
       = Some (Py.str (Qfloor (w_reset clk + retry)))
    /\ (inject_Z (Qfloor retry) == retry ->
        (Qfloor retry + 1 = Qceiling retry + 1)%Z)
    /\ (~ inject_Z (Qfloor retry) == retry ->
        (Qfloor retry + 1 = Qceiling retry)%Z).
Proof.
  intros Hex Hchk Hinv H1 H2 H3 Hw.
  destruct (dispatch_denied clk request st retry remaining lim' Hex Hchk)
    as [Hresp _].
  destruct (check_rate_limit_inv t (m_new clk) (m_consume clk) (m_avail clk)
              (_get_client_id config request)
              (tier_resolver (_get_client_id config request))
              (_get_token_cost re_match config (url_path request))
              (limiter st) Hinv H1 H2 H3) as (_ & _ & _ & _ & Hpos).
  rewrite Hchk in Hpos. destruct (Hpos retry remaining eq_refl) as [Hr Hm].
  exists (rate_limit_response (w_reset clk) retry remaining).
  split; [exact Hresp|]. split; [reflexivity|].
  destruct (Qceiling_floor retry) as [Hint Hfrac].
  split; [rewrite <- (int_floor retry) by lra; reflexivity|].
  split; [rewrite <- (int_floor remaining) by lra; reflexivity|].
  split; [rewrite <- (int_floor (w_reset clk + retry)) by lra; reflexivity|].
  split.
  - intros Hi. rewrite (Hint Hi). reflexivity.
  - intros Hf. rewrite (Hfrac Hf). reflexivity.
Qed.

End MiddlewareFacts.

Section MiddlewareWitnesses.
Import Models Limiter Http Middleware.

Lemma sample_gateway_inv : LimiterInv 0 (limiter Sample.gateway_spent).
Proof.
  refine (proj1 (check_rate_limit_inv 0 0 0 0 "alice" FREE 10
                   (init Sample.rate_limits) _ _ _ _)).
  - split; [exact sample_configs_valid | apply map_Forall_empty].
  - vm_compute. discriminate.
  - vm_compute. discriminate.
  - vm_compute. discriminate.
Qed.

Lemma denial_is_429_with_floor_headers_witness :
  exists resp,
    fst (dispatch unit Sample.re_match Sample.gateway_config
           Sample.tier_resolver Sample.call_next
           Sample.dispatch_clock Sample.request Sample.gateway_spent) = Ok resp
    /\ Http.status_code resp = 429%Z
    /\ headers_get "Retry-After" (resp_headers resp) = Some "1"
    /\ headers_get "X-RateLimit-Remaining" (resp_headers resp) = Some "0"
    /\ headers_get "X-RateLimit-Reset" (resp_headers resp) = Some "1000".
Proof.
  destruct (denial_is_429_with_floor_headers unit Sample.re_match
              Sample.gateway_config Sample.tier_resolver Sample.call_next
              0 Sample.dispatch_clock Sample.request Sample.gateway_spent
              (1 # 2) (4 # 8)
              (snd (check_rate_limit (1 # 2) (1 # 2) (1 # 2) "alice" FREE 1
                      (limiter Sample.gateway_spent))))
    as (resp & Hresp & Hstatus & Hretry & Hrem & Hreset & _).
  - vm_compute. reflexivity.
  - apply injective_projections; [vm_compute; reflexivity | reflexivity].
  - exact sample_gateway_inv.
  - vm_compute. discriminate.
  - vm_compute. discriminate.
  - vm_compute. discriminate.
  - vm_compute. discriminate.
  - exists resp. split; [exact Hresp|]. split; [exact Hstatus|].
    split; [exact Hretry|]. split; [exact Hrem|exact Hreset].
Defined.

(** C5, as stated, fails: half a second after a client has spent its last
    token, a request of cost 1 is denied with a retry time of 1/2, and the
    [Retry-After] header is 1, not the ceiling plus one. *)
Lemma retry_after_is_not_ceiling_plus_one :
  ~ denial_headers_by_ceiling unit Sample.re_match Sample.gateway_config
      Sample.tier_resolver Sample.call_next
      Sample.dispatch_clock Sample.request Sample.gateway_spent.
Proof.
  intros H.
  destruct (H eq_refl (1 # 2) (4 # 8)
              (snd (check_rate_limit (1 # 2) (1 # 2) (1 # 2) "alice" FREE 1
                      (limiter Sample.gateway_spent))))
    as (resp & Hresp & _ & Hretry & _).
  - apply injective_projections; [vm_compute; reflexivity | reflexivity].
  - vm_compute in Hresp. injection Hresp as <-.
    vm_compute in Hretry. discriminate Hretry.
Qed.

(** A denial can leave tokens: a search of cost 5 against 3 tokens is
    answered with [X-RateLimit-Remaining: 3], [Retry-After: 3] and one
    rate-limited metric. *)
Lemma denial_with_tokens_left :
  exists resp st',
    dispatch unit Sample.re_match Sample.gateway_config Sample.tier_resolver
      Sample.call_next Sample.same_instant Sample.search_request
      Sample.gateway_low = (Ok resp, st')
    /\ Http.status_code resp = 429%Z
    /\ headers_get "X-RateLimit-Remaining" (resp_headers resp) = Some "3"
    /\ headers_get "Retry-After" (resp_headers resp) = Some "3"
    /\ List.map Metrics.rate_limited (Metrics._metrics (metrics st')) = [true].
Proof.
  destruct (dispatch unit Sample.re_match Sample.gateway_config
              Sample.tier_resolver Sample.call_next Sample.same_instant
              Sample.search_request Sample.gateway_low) as [res st'] eqn:E.
  assert (Hres : exists resp, res = Ok resp
                   /\ Http.status_code resp = 429%Z
                   /\ headers_get "X-RateLimit-Remaining" (resp_headers resp) = Some "3"
                   /\ headers_get "Retry-After" (resp_headers resp) = Some "3").
  { apply (f_equal fst) in E. vm_compute in E. subst res.
    eexists. split; [reflexivity|]. vm_compute. auto. }
  destruct Hres as (resp & -> & Hrest). exists resp, st'.
  split; [reflexivity|]. destruct Hrest as (H1 & H2 & H3).
  repeat split; try assumption.
  apply (f_equal (fun p => List.map Metrics.rate_limited
                             (Metrics._metrics (metrics (snd p))))) in E.
  vm_compute in E. symmetry. exact E.
Qed.

End MiddlewareWitnesses.

(** * Further properties *)

(** ** Token accounting of a bucket *)

Section BucketRunFacts.
Import Models Limiter LimiterRuns.
Local Open Scope Q_scope.





End BucketRunFacts.

(** ** Buckets, tiers and configs *)

Section CoherenceFacts.
Import Models Limiter LimiterRuns.
Local Open Scope Q_scope.

Lemma consume_keeps_tuning (now : Q) (cost : Z) (b : TokenBucket) :
  max_tokens (snd (consume now cost b)) = max_tokens b
  /\ refill_rate (snd (consume now cost b)) = refill_rate b.
Proof.
  unfold consume. destruct (Py.leb _ _); [split; reflexivity|].
  destruct (Py.div _ _); split; reflexivity.
Qed.

Lemma tier_differs_false (stored : option ClientTier) (tier : ClientTier) :
  tier_differs stored tier = false <-> stored = Some tier.
Proof.
  unfold tier_differs. destruct stored as [t|]; [|split; discriminate].
  rewrite negb_false_iff. destruct t, tier; simpl; split; congruence.
Qed.

Lemma config_for_same_configs (l l' : RateLimiter) (tier : ClientTier) :
  _rate_configs l' = _rate_configs l -> config_for l' tier = config_for l tier.
Proof. intros H. unfold config_for. rewrite H. reflexivity. Qed.

(** What [check_rate_limit] leaves in the two dicts: nothing new (a
    [KeyError]), the bucket and the binding of [tier] tuned to the config
    of [tier], or the stored binding with the bucket's tuning kept. *)
Lemma check_rate_limit_dicts t_new t_consume t_avail cid tier cost l :
  let l' := snd (check_rate_limit t_new t_consume t_avail cid tier cost l) in
  _rate_configs l' = _rate_configs l
  /\ ((fst (check_rate_limit t_new t_consume t_avail cid tier cost l)
       = Raise KeyError /\ l' = l /\ config_for l tier = Raise KeyError
       /\ (_buckets l !! cid = None \/ _client_tiers l !! cid <> Some tier))
      \/ (exists b' c,
            _buckets l' = <[cid := b']> (_buckets l)
            /\ _client_tiers l' = <[cid := tier]> (_client_tiers l)
            /\ config_for l tier = Ok c
            /\ max_tokens b' = Models.max_tokens c
            /\ refill_rate b' = tokens_per_second c
            /\ (_buckets l !! cid = None
                \/ _client_tiers l !! cid <> Some tier))
      \/ (exists b b',
            _buckets l !! cid = Some b
            /\ _client_tiers l !! cid = Some tier
            /\ _buckets l' = <[cid := b']> (_buckets l)
            /\ _client_tiers l' = _client_tiers l
            /\ max_tokens b' = max_tokens b
            /\ refill_rate b' = refill_rate b)).
Proof.
  unfold check_rate_limit, _get_or_create_bucket, available_tokens.
  destruct (_buckets l !! cid) as [b|] eqn:Eb.
  - destruct (tier_differs (_client_tiers l !! cid) tier) eqn:Etd.
    + assert (Hne : _client_tiers l !! cid <> Some tier).
      { intros H. apply tier_differs_false in H. congruence. }
      destruct (config_for l tier) as [c|e] eqn:Ec.
      * match goal with
        | |- context [consume _ _ ?B] => set (b1 := B)
        end.
        destruct (consume_keeps_tuning t_consume cost b1) as [Km Kr].
        destruct (consume t_consume cost b1) as [[[allowed retry]|e] b2];
          cbn [fst snd] in *; (split; [reflexivity|]); right; left;
          eexists _, c; cbn [_buckets _client_tiers];
          (split; [reflexivity|]); (split; [reflexivity|]);
          (split; [reflexivity|]); cbn [refill max_tokens refill_rate];
          rewrite ?Km, ?Kr; auto.
      * pose proof (config_for_Raise l tier e Ec) as ->.
        cbn [fst snd]. split; [reflexivity|]. left. auto.
    + apply tier_differs_false in Etd.
      destruct (consume_keeps_tuning t_consume cost b) as [Km Kr].
      destruct (consume t_consume cost b) as [[[allowed retry]|e] b2];
        cbn [fst snd] in *; (split; [reflexivity|]); right; right;
        exists b; eexists; cbn [_buckets _client_tiers];
        (split; [reflexivity|]); (split; [exact Etd|]);
        (split; [reflexivity|]); (split; [reflexivity|]);
        cbn [refill max_tokens refill_rate]; auto.
  - destruct (config_for l tier) as [c|e] eqn:Ec.
    + cbn [_client_tiers]. rewrite lookup_insert_eq.
      replace (tier_differs (Some tier) tier) with false
        by (symmetry; apply tier_differs_false; reflexivity).
      match goal with
      | |- context [consume _ _ ?B] => set (b1 := B)
      end.
      destruct (consume_keeps_tuning t_consume cost b1) as [Km Kr].
      destruct (consume t_consume cost b1) as [[[allowed retry]|e] b2];
        cbn [fst snd] in *; (split; [reflexivity|]); right; left;
        eexists _, c; cbn [fst snd _buckets _client_tiers _rate_configs];
        rewrite insert_insert_eq;
        (split; [reflexivity|]); (split; [reflexivity|]);
        (split; [reflexivity|]);
        cbn [refill max_tokens refill_rate];
        rewrite ?Km, ?Kr; auto.
    + pose proof (config_for_Raise l tier e Ec) as ->.
      cbn [fst snd]. split; [reflexivity|]. left. auto.
Qed.


Lemma coherent_insert_same_tuning (l l' : RateLimiter) cid b b' :
  coherent l ->
  _rate_configs l' = _rate_configs l ->
  _buckets l !! cid = Some b ->
  _buckets l' = <[cid := b']> (_buckets l) ->
  _client_tiers l' = _client_tiers l ->
  max_tokens b' = max_tokens b -> refill_rate b' = refill_rate b ->
  coherent l'.
Proof.
  intros [Hdom Hfol] Hcfg Hb Hbs Hts Hm Hr. split.
  - intros k. rewrite Hbs, Hts. destruct (decide (k = cid)) as [->|Hne].
    + rewrite lookup_insert_eq. rewrite <- Hdom, Hb. split; eauto.
    + rewrite lookup_insert_ne by congruence. apply Hdom.
  - intros k bk tk. rewrite Hbs, Hts.
    rewrite (config_for_same_configs l l' tk Hcfg).
    destruct (decide (k = cid)) as [->|Hne].
    + rewrite lookup_insert_eq. intros [= <-] Htk.
      destruct (Hfol cid b tk Hb Htk) as (c & Hc & Hcm & Hcr).
      exists c. rewrite Hm, Hr. auto.
    + rewrite lookup_insert_ne by congruence. apply Hfol.
Qed.

Lemma coherent_step (op : Op) (l : RateLimiter) :
  coherent l -> coherent (run_op op l).
Proof.
  intros Hco. pose proof Hco as [Hdom Hfol].
  destruct op as [t_new t_consume t_avail c tier cost|now c|now c|c|now max_idle];
    cbn [run_op].
  - destruct (check_rate_limit_dicts t_new t_consume t_avail c tier cost l)
      as [Hcfg [(_ & -> & _)|[(b' & cf & Hbs & Hts & Hc & Hm & Hr & _)
                             |(b & b' & Hb & Ht & Hbs & Hts & Hm & Hr)]]].
    + exact Hco.
    + split.
      * intros k. rewrite Hbs, Hts. destruct (decide (k = c)) as [->|Hne].
        -- rewrite !lookup_insert_eq. split; eauto.
        -- rewrite !lookup_insert_ne by congruence. apply Hdom.
      * intros k bk tk. rewrite Hbs, Hts.
        rewrite (config_for_same_configs l _ tk Hcfg).
        destruct (decide (k = c)) as [->|Hne].
        -- rewrite !lookup_insert_eq. intros [= <-] [= <-]. exists cf. auto.
        -- rewrite !lookup_insert_ne by congruence. apply Hfol.
    + eapply coherent_insert_same_tuning; eauto.
  - destruct (_buckets l !! c) as [b|] eqn:Hb.
    + destruct (get_client_status_known now c l b Hb) as (_ & Hbs & Hcfg).
      eapply (coherent_insert_same_tuning l _ c b (refill now b)); eauto.
      unfold get_client_status. rewrite Hb. reflexivity.
    + rewrite (get_client_status_unknown now c l Hb). exact Hco.
  - destruct (_buckets l !! c) as [b|] eqn:Hb.
    + destruct (reset_client_known now c l b Hb) as (_ & Hbs & Hcfg).
      eapply (coherent_insert_same_tuning l _ c b); eauto.
      unfold reset_client. rewrite Hb. reflexivity.
    + rewrite (reset_client_unknown now c l Hb). exact Hco.
  - unfold remove_client. destruct (_buckets l !! c) as [b|] eqn:Hb;
      [|exact Hco]. cbn [snd]. split.
    + intros k. cbn [_buckets _client_tiers].
      destruct (decide (k = c)) as [->|Hne].
      * rewrite !lookup_delete_eq. split; intros [? ?]; discriminate.
      * rewrite !lookup_delete_ne by congruence. apply Hdom.
    + intros k bk tk. cbn [_buckets _client_tiers].
      rewrite !lookup_delete_Some. intros [_ Hk] [_ Htk].
      apply (Hfol k bk tk Hk Htk).
  - unfold cleanup_inactive. cbn [snd].
    set (to_remove := List.map fst _). split.
    + intros k. cbn [_buckets _client_tiers].
      destruct (decide (k ∈ to_remove)) as [Hin|Hnin].
      * rewrite !lookup_foldr_delete by exact Hin.
        split; intros [? ?]; discriminate.
      * rewrite !lookup_foldr_delete_not_elem_of by exact Hnin. apply Hdom.
    + intros k bk tk. cbn [_buckets _client_tiers].
      rewrite !lookup_foldr_delete_Some. intros [_ Hk] [_ Htk].
      apply (Hfol k bk tk Hk Htk).
Qed.

(** X2. Whatever operations a limiter has run since it was built, its
    buckets and its tier bindings name the same clients, and every bucket
    has the capacity and the refill rate that the configs give the tier
    bound to its client. *)
Theorem limiter_stays_coherent
    (rate_configs : ClientTier -> option RateLimitConfig) (ops : list Op) :
  coherent (run_ops ops (init rate_configs)).
Proof.
  assert (Hinit : coherent (init rate_configs)).
  { split.
    - intros k. cbn. rewrite !lookup_empty. split; intros [? ?]; discriminate.
    - intros k b tk. cbn. rewrite lookup_empty. discriminate. }
  revert Hinit. generalize (init rate_configs).
  induction ops as [|op ops IH]; intros l Hl; [exact Hl|].
  apply (IH (run_op op l)). apply coherent_step. exact Hl.
Qed.


(** A [consume] with a cost that is not negative takes at most that cost
    from a count within the capacity, and only when it admits. *)
Lemma consume_takes_at_most_cost (now : Q) (cost : Z) (b : TokenBucket) :
  0 <= refill_rate b -> last_refill b <= now ->
  tokens b <= inject_Z (max_tokens b) -> (0 <= cost)%Z ->
  let b1 := snd (consume now cost b) in
  let granted := match fst (consume now cost b) with
                 | Ok (true, _) => inject_Z cost
                 | _ => 0
                 end in
  tokens b - granted <= tokens b1 /\ tokens b1 <= inject_Z (max_tokens b).
Proof.
  intros Hr Ht Hc Hcost.
  assert (0 <= inject_Z cost) by (unfold Qle; simpl; lia).
  assert (Hgain : 0 <= (now - last_refill b) * refill_rate b)
    by (apply Qmult_le_0_compat; lra).
  assert (Hre : tokens b <= tokens (refill now b)
                /\ tokens (refill now b) <= inject_Z (max_tokens b)).
  { unfold refill. cbn [tokens].
    destruct (min_cases (inject_Z (max_tokens b))
                (tokens b + (now - last_refill b) * refill_rate b))
      as [[Hle ->]|[Hlt ->]]; split; lra. }
  destruct Hre as [Hre0 Hre1]. unfold consume.
  destruct (Py.leb (inject_Z cost) (tokens (refill now b))) eqn:Hl.
  - cbn [fst snd tokens]. split; lra.
  - destruct (Py.div _ _); cbn [fst snd]; split; lra.
Qed.

(** X3. A check that names a tier other than the stored one retunes the
    client's bucket in place: capacity and rate become those of the new
    tier's config and the binding is updated. The count is clamped to the
    new capacity, and when it already fits the new capacity the check
    takes at most its cost from it (nothing on a rejection). *)
Theorem tier_change_retunes_bucket
    t_new t_consume t_avail cid tier old cost l b c :
  _buckets l !! cid = Some b ->
  _client_tiers l !! cid = Some old -> old <> tier ->
  config_for l tier = Ok c -> valid_rate_limit c ->
  0 <= tokens b -> last_refill b <= t_consume -> t_consume <= t_avail ->
  (0 <= cost)%Z ->
  let l' := snd (check_rate_limit t_new t_consume t_avail cid tier cost l) in
  exists b' allowed retry,
    fst (check_rate_limit t_new t_consume t_avail cid tier cost l)
    = Ok (allowed, retry, tokens b')
    /\ _buckets l' !! cid = Some b'
    /\ _client_tiers l' !! cid = Some tier
    /\ max_tokens b' = Models.max_tokens c
    /\ refill_rate b' = tokens_per_second c
    /\ 0 <= tokens b' /\ tokens b' <= inject_Z (Models.max_tokens c)
    /\ (tokens b <= inject_Z (Models.max_tokens c) ->
        tokens b - (if allowed then inject_Z cost else 0) <= tokens b').
Proof.
  intros Hb Ht Hne Hc Hv H0 Ht1 Ht2 Hcost l'.
  destruct (valid_config_bounds c Hv) as (V1 & V2 & V3).
  destruct (check_rate_limit_dicts t_new t_consume t_avail cid tier cost l)
    as [_ [(_ & _ & Habs & _)|[(b' & c' & Hbs & Hts & Hc' & Hm & Hr & _)
                             |(_ & _ & _ & Habs & _)]]];
    [congruence| |congruence].
  fold l' in Hbs, Hts. rewrite Hc in Hc'. injection Hc' as <-.
  destruct (check_rate_limit_cases t_new t_consume t_avail cid tier cost l)
    as [_ [[_ Hl]|(b1 & Hb1 & Hres)]].
  { (* the binding changed, so the call did not stop at a KeyError *)
    exfalso. fold l' in Hl. rewrite Hl in Hts.
    assert (Hlk : _client_tiers l !! cid = Some tier)
      by (rewrite Hts; apply lookup_insert_eq).
    congruence. }
  fold l' in Hres.
  destruct Hb1 as [(b0 & Hb0 & Htok & Hlast & _)|(Hnone & _)]; [|congruence].
  rewrite Hb in Hb0. injection Hb0 as <-.
  assert (Hb' : _buckets l' !! cid = Some b')
    by (rewrite Hbs; apply lookup_insert_eq).
  assert (Htune : max_tokens b1 = Models.max_tokens c
                  /\ refill_rate b1 = tokens_per_second c).
  { destruct (consume_keeps_tuning t_consume cost b1) as [Km Kr].
    destruct (fst (consume t_consume cost b1)) as [[a r]|e];
      destruct Hres as [_ Hbs2]; rewrite Hbs2, lookup_insert_eq in Hb';
      injection Hb' as <-; cbn [refill max_tokens refill_rate] in Hm, Hr;
      split; congruence. }
  destruct Htune as [Tm Tr].
  assert (P0 : 0 <= tokens b1) by (rewrite Htok; exact H0).
  assert (P1 : (0 <= max_tokens b1)%Z) by lia.
  assert (P2 : 0 < refill_rate b1) by (rewrite Tr; exact V1).
  assert (P3 : last_refill b1 <= t_consume) by (rewrite Hlast; exact Ht1).
  destruct (consume_ok t_consume cost b1 P0 P1 P2 P3)
    as ((allowed & retry & Hcs & _) & C0 & C1 & C2 & C3).
  rewrite Hcs in Hres. destruct Hres as [Hr' Hbs2].
  assert (b' = refill t_avail (snd (consume t_consume cost b1))) as ->.
  { rewrite Hbs2, lookup_insert_eq in Hb'. congruence. }
  set (b2 := snd (consume t_consume cost b1)) in *.
  destruct (refill_ok t_avail b2) as (R0 & R1 & _ & _);
    [exact C0|lia|rewrite C2; lra|rewrite C3; exact Ht2|].
  exists (refill t_avail b2), allowed, retry.
  split; [exact Hr'|]. split; [exact Hb'|].
  split; [rewrite Hts; apply lookup_insert_eq|].
  split; [exact Hm|]. split; [exact Hr|]. split; [exact R0|].
  split; [cbn [refill max_tokens] in R1, Hm; rewrite Hm in R1; exact R1|].
  intros Hfit.
  destruct (consume_takes_at_most_cost t_consume cost b1) as [L0 L1];
    [lra|exact P3|rewrite Htok, Tm; exact Hfit|exact Hcost|].
  fold b2 in L0, L1. rewrite Hcs in L0.
  assert (tokens b2 <= tokens (refill t_avail b2)).
  { apply refill_grows; [rewrite C2; lra|rewrite C3; exact Ht2|].
    rewrite C1. exact L1. }
  rewrite Htok in L0. destruct allowed; lra.
Qed.


Lemma tier_change_retunes_bucket_witness :
  exists b',
    _buckets (snd (check_rate_limit 0 0 0 "alice" PREMIUM 1 Sample.limiter_alice))
      !! "alice" = Some b'
    /\ max_tokens b' = 200%Z
    /\ 7 - 1 <= tokens b' /\ tokens b' <= 200.
Proof.
  destruct (tier_change_retunes_bucket 0 0 0 "alice" PREMIUM FREE 1
              Sample.limiter_alice Sample.bucket_alice
              {| tokens_per_second := 20; Models.max_tokens := 200 |})
    as (b' & allowed & retry & Hres & Hb' & _ & Hm & _ & _ & Hcap & Hkeep).
  - vm_compute. reflexivity.
  - vm_compute. reflexivity.
  - discriminate.
  - vm_compute. reflexivity.
  - split; reflexivity.
  - vm_compute. discriminate.
  - vm_compute. discriminate.
  - vm_compute. discriminate.
  - lia.
  - exists b'. split; [exact Hb'|]. split; [exact Hm|]. split; [|exact Hcap].
    assert (Hfit : tokens Sample.bucket_alice <= inject_Z 200)
      by (vm_compute; discriminate).
    specialize (Hkeep Hfit). cbn [tokens Sample.bucket_alice] in Hkeep.
    destruct allowed; [exact Hkeep|].
    assert (Hle : 7 - 1 <= 7 - 0) by (vm_compute; discriminate).
    eapply Qle_trans; [exact Hle|exact Hkeep].
Defined.

(** X4. A new client whose tier has no config gets a bucket with the
    capacity and rate of the FREE config, full at creation; the tier it
    asked for is the one bound to it. *)
Theorem unconfigured_tier_gets_free_bucket
    t_new t_consume t_avail cid tier cost l free :
  _buckets l !! cid = None ->
  _rate_configs l tier = None ->
  _rate_configs l FREE = Some free ->
  let l' := snd (check_rate_limit t_new t_consume t_avail cid tier cost l) in
  exists b',
    _buckets l' !! cid = Some b'
    /\ max_tokens b' = Models.max_tokens free
    /\ refill_rate b' = tokens_per_second free
    /\ _client_tiers l' !! cid = Some tier
    /\ fst (check_rate_limit t_new t_consume t_avail cid tier cost l)
       = fst (check_rate_limit t_new t_consume t_avail cid FREE cost l).
Proof.
  intros Hb Hnone Hfree l'.
  assert (Hc : config_for l tier = Ok free)
    by (unfold config_for; rewrite Hfree, Hnone; reflexivity).
  assert (HcF : config_for l FREE = Ok free)
    by (unfold config_for; rewrite Hfree; reflexivity).
  destruct (check_rate_limit_dicts t_new t_consume t_avail cid tier cost l)
    as [_ [(_ & _ & Habs & _)|[(b' & c' & Hbs & Hts & Hc' & Hm & Hr & _)
                             |(b & _ & Habs & _)]]];
    [congruence| |congruence].
  fold l' in Hbs, Hts. rewrite Hc in Hc'. injection Hc' as <-.
  exists b'. split; [rewrite Hbs; apply lookup_insert_eq|].
  split; [exact Hm|]. split; [exact Hr|].
  split; [rewrite Hts; apply lookup_insert_eq|].
  unfold check_rate_limit, _get_or_create_bucket. rewrite Hb, Hc, HcF.
  cbn [_client_tiers]. rewrite !lookup_insert_eq.
  replace (tier_differs (Some tier) tier) with false
    by (symmetry; apply tier_differs_false; reflexivity).
  cbn [tier_differs ClientTier_eqb negb].
  destruct (consume t_consume cost _) as [[[? ?]|?] ?]; reflexivity.
Qed.

(** X5. Without a FREE config the limiter cannot serve a client it has no
    bucket for: the check raises [KeyError] and leaves the limiter as it
    was, even when the tier asked for has a config of its own. *)
Theorem missing_free_config_raises
    t_new t_consume t_avail cid tier cost l :
  _buckets l !! cid = None ->
  _rate_configs l FREE = None ->
  check_rate_limit t_new t_consume t_avail cid tier cost l
  = (Raise KeyError, l).
Proof.
  intros Hb Hfree. unfold check_rate_limit, _get_or_create_bucket, config_for.
  rewrite Hb, Hfree. reflexivity.
Qed.

Lemma unconfigured_tier_gets_free_bucket_witness :
  exists b',
    _buckets (snd (check_rate_limit 0 0 0 "dave" ENTERPRISE 1
                     (init Sample.free_only))) !! "dave" = Some b'
    /\ max_tokens b' = 10%Z
    /\ _client_tiers (snd (check_rate_limit 0 0 0 "dave" ENTERPRISE 1
                             (init Sample.free_only))) !! "dave"
       = Some ENTERPRISE.
Proof.
  destruct (unconfigured_tier_gets_free_bucket 0 0 0 "dave" ENTERPRISE 1
              (init Sample.free_only)
              {| tokens_per_second := 1; Models.max_tokens := 10 |})
    as (b' & Hb' & Hm & _ & Ht & _); try reflexivity.
  exists b'. auto.
Defined.

Lemma missing_free_config_raises_witness :
  check_rate_limit 0 0 0 "dave" PREMIUM 1 (init Sample.premium_only)
  = (Raise KeyError, init Sample.premium_only).
Proof.
  apply (missing_free_config_raises 0 0 0 "dave" PREMIUM 1
           (init Sample.premium_only)); reflexivity.
Defined.

End CoherenceFacts.

(** ** Forgetting clients *)

Section ForgettingFacts.
Import Models Limiter LimiterRuns.
Local Open Scope Q_scope.

(** The answer to a client without a bucket depends on the configs
    alone. *)
Lemma check_new_client t_new t_consume t_avail cid tier cost l :
  _buckets l !! cid = None ->
  fst (check_rate_limit t_new t_consume t_avail cid tier cost l)
  = fst (check_rate_limit t_new t_consume t_avail cid tier cost
           (init (_rate_configs l))).
Proof.
  intros Hb. unfold check_rate_limit, _get_or_create_bucket.
  rewrite Hb. cbn [init _buckets]. rewrite lookup_empty.
  change (config_for (init (_rate_configs l)) tier) with (config_for l tier).
  destruct (config_for l tier) as [c|e]; [|reflexivity].
  cbn [_client_tiers]. rewrite !lookup_insert_eq.
  destruct (tier_differs (Some tier) tier).
  - change (config_for _ tier) with (config_for l tier).
    destruct (config_for l tier); [|reflexivity].
    destruct (consume _ _ _) as [[[? ?]|?] ?]; reflexivity.
  - destruct (consume _ _ _) as [[[? ?]|?] ?]; reflexivity.
Qed.

(** X6. [remove_client] on a known client returns [True] and drops its
    bucket and its tier binding, leaving every other client as it was; the
    next check treats the client as new, whatever its bucket held. On a
    client without a bucket it returns [False] and changes nothing. *)
Theorem remove_client_forgets (cid : string) (l : RateLimiter) :
  (is_Some (_buckets l !! cid) ->
   let l' := snd (remove_client cid l) in
   fst (remove_client cid l) = true
   /\ _buckets l' !! cid = None
   /\ _client_tiers l' !! cid = None
   /\ (forall k, k <> cid ->
         _buckets l' !! k = _buckets l !! k
         /\ _client_tiers l' !! k = _client_tiers l !! k)
   /\ (forall t_new t_consume t_avail tier cost,
         fst (check_rate_limit t_new t_consume t_avail cid tier cost l')
         = fst (check_rate_limit t_new t_consume t_avail cid tier cost
                  (init (_rate_configs l)))))
  /\ (_buckets l !! cid = None -> remove_client cid l = (false, l)).
Proof.
  split.
  - intros [b Hb] l'. subst l'. unfold remove_client. rewrite Hb.
    cbn [fst snd _buckets _client_tiers].
    split; [reflexivity|]. split; [apply lookup_delete_eq|].
    split; [apply lookup_delete_eq|]. split.
    + intros k Hk. rewrite !lookup_delete_ne by congruence. auto.
    + intros. rewrite check_new_client; [reflexivity|].
      apply lookup_delete_eq.
  - intros Hb. unfold remove_client. rewrite Hb. reflexivity.
Qed.

Lemma remove_client_forgets_witness :
  fst (remove_client "alice" Sample.limiter_alice) = true
  /\ fst (check_rate_limit 5 5 5 "alice" FREE 1
            (snd (remove_client "alice" Sample.limiter_alice)))
     = fst (check_rate_limit 5 5 5 "alice" FREE 1 (init Sample.rate_limits))
  /\ remove_client "carol" Sample.limiter_alice = (false, Sample.limiter_alice).
Proof.
  destruct (remove_client_forgets "alice" Sample.limiter_alice) as [Hk _].
  destruct (remove_client_forgets "carol" Sample.limiter_alice) as [_ Hu].
  destruct Hk as (H1 & _ & _ & _ & H5).
  - exists Sample.bucket_alice. vm_compute. reflexivity.
  - split; [exact H1|]. split; [apply H5|]. apply Hu. vm_compute. reflexivity.
Defined.

(** Deleting distinct present keys shrinks a map by their number. *)
Lemma size_foldr_delete (m : gmap string TokenBucket) (ks : list string) :
  NoDup ks -> (forall k, k ∈ ks -> is_Some (m !! k)) ->
  (size (foldr delete m ks) + length ks = size m)%nat.
Proof.
  induction 1 as [|k ks Hnin Hnd IH]; intros Hin; [simpl; lia|].
  cbn [foldr length].
  assert (Hk : is_Some (foldr delete m ks !! k)).
  { rewrite lookup_foldr_delete_not_elem_of by exact Hnin.
    apply Hin. left. }
  pose proof (map_size_delete_Some k (foldr delete m ks) Hk) as Hsz.
  assert (Hpos : size (foldr delete m ks) <> 0%nat)
    by (eapply map_size_ne_0_lookup_2; exact Hk).
  specialize (IH (fun k' Hk' => Hin k' (list_elem_of_further _ _ _ Hk'))).
  lia.
Qed.

Lemma NoDup_fst_filter (f : string * TokenBucket -> bool)
    (kbs : list (string * TokenBucket)) :
  NoDup kbs.*1 -> NoDup (List.map fst (List.filter f kbs)).
Proof.
  induction kbs as [|[k b] rest IH]; intros Hnd; [constructor|].
  change (((k, b) :: rest).*1) with (k :: rest.*1) in Hnd.
  apply NoDup_cons in Hnd as [Hk Hnd]. cbn [List.filter].
  destruct (f (k, b)); [|apply IH; exact Hnd].
  cbn [List.map fst]. constructor; [|apply IH; exact Hnd].
  intros Habs. apply Hk. apply list_elem_of_In in Habs.
  apply in_map_iff in Habs as ([k' b'] & Hk' & Hf). simpl in Hk'. subst k'.
  apply filter_In in Hf as [Hf _].
  apply list_elem_of_fmap. exists (k, b'). split; [reflexivity|].
  apply list_elem_of_In. exact Hf.
Qed.

(** X7. [cleanup_inactive] evicts exactly the buckets whose last refill is
    more than [max_idle_seconds] before its reading, together with their
    tier bindings; it keeps every other bucket and binding as they were,
    and the number it returns is the number of buckets evicted. *)
Theorem cleanup_inactive_evicts_idle (now max_idle : Q) (l : RateLimiter) :
  let l' := snd (cleanup_inactive now max_idle l) in
  (forall k b, _buckets l !! k = Some b ->
     (max_idle < now - last_refill b ->
      _buckets l' !! k = None /\ _client_tiers l' !! k = None)
     /\ (now - last_refill b <= max_idle ->
         _buckets l' !! k = Some b
         /\ _client_tiers l' !! k = _client_tiers l !! k))
  /\ (forall k, _buckets l !! k = None ->
        _buckets l' !! k = None
        /\ _client_tiers l' !! k = _client_tiers l !! k)
  /\ (0 <= fst (cleanup_inactive now max_idle l))%Z
  /\ (Z.of_nat (size (_buckets l'))
      + fst (cleanup_inactive now max_idle l)
      = Z.of_nat (size (_buckets l)))%Z.
Proof.
  intros l'. subst l'. unfold cleanup_inactive.
  cbn [fst snd _buckets _client_tiers].
  set (to_remove := List.map fst _).
  assert (Hin : forall k, k ∈ to_remove <->
                exists b, _buckets l !! k = Some b /\ idle now max_idle b = true).
  { intros k. unfold to_remove. rewrite list_elem_of_In, in_map_iff. split.
    - intros ([k' b] & Hk & Hf). simpl in Hk. subst k'.
      apply filter_In in Hf as [Hm Hi]. simpl in Hi.
      apply list_elem_of_In, elem_of_map_to_list in Hm. eauto.
    - intros (b & Hb & Hi). exists (k, b). split; [reflexivity|].
      apply filter_In. split; [|exact Hi].
      apply list_elem_of_In, elem_of_map_to_list. exact Hb. }
  split; [|split; [|split]].
  - intros k b Hb. split; intros Hgap.
    + assert (k ∈ to_remove).
      { apply Hin. exists b. split; [exact Hb|]. apply ltb_lt. exact Hgap. }
      rewrite !lookup_foldr_delete by assumption. auto.
    + assert (k ∉ to_remove).
      { rewrite Hin. intros (b' & Hb' & Hi). rewrite Hb in Hb'.
        injection Hb' as <-. apply ltb_lt in Hi. lra. }
      rewrite !lookup_foldr_delete_not_elem_of by assumption. auto.
  - intros k Hb.
    assert (k ∉ to_remove).
    { rewrite Hin. intros (b' & Hb' & _). congruence. }
    rewrite !lookup_foldr_delete_not_elem_of by assumption. auto.
  - lia.
  - assert (Hnd : NoDup to_remove).
    { apply NoDup_fst_filter. apply NoDup_fst_map_to_list. }
    pose proof (size_foldr_delete (_buckets l) to_remove Hnd) as Hsz.
    rewrite <- Hsz; [lia|].
    intros k Hk. apply Hin in Hk as (b & Hb & _). eauto.
Qed.

Lemma cleanup_inactive_evicts_idle_witness :
  _buckets (snd (cleanup_inactive 5001 3600 Sample.limiter_two)) !! "alice" = None
  /\ is_Some (_buckets (snd (cleanup_inactive 5001 3600 Sample.limiter_two))
               !! "bob")
  /\ fst (cleanup_inactive 5001 3600 Sample.limiter_two) = 1%Z.
Proof.
  destruct (cleanup_inactive_evicts_idle 5001 3600 Sample.limiter_two)
    as (Hknown & _ & _ & Hcount).
  split; [|split].
  - eapply (Hknown "alice"); [vm_compute; reflexivity|].
    vm_compute. reflexivity.
  - eexists. eapply (Hknown "bob"); [vm_compute; reflexivity|].
    vm_compute. discriminate.
  - assert (Hs : size (_buckets Sample.limiter_two) = 2%nat)
      by (vm_compute; reflexivity).
    assert (Hs' : size (_buckets (snd (cleanup_inactive 5001 3600
                                         Sample.limiter_two))) = 1%nat)
      by (vm_compute; reflexivity).
    rewrite Hs, Hs' in Hcount. lia.
Defined.

End ForgettingFacts.

(** ** Counters and limits of a breaker *)

Section BreakerCounterFacts.
Import Models Breaker BreakerRuns.
Local Open Scope Z_scope.

Lemma can_execute_stats_streaks now tc tm b :
  let b' := snd (can_execute now tc tm b) in
  consecutive_failures (_stats b') = consecutive_failures (_stats b)
  /\ (consecutive_successes (_stats b') = consecutive_successes (_stats b)
      \/ consecutive_successes (_stats b') = 0).
Proof.
  unfold can_execute.
  destruct (_should_transition_to_half_open now b); simpl.
  - destruct (0 <? _); simpl; auto.
  - destruct (_state b); simpl; auto.
    destruct (_ <? _); simpl; auto.
Qed.

Lemma accounted_step op b : accounted b -> accounted (run_op op b).
Proof.
  unfold accounted. intros (Ht & Hf & Hs & Hz).
  destruct op as [now tc tm|now tc|now tc|tn]; cbn [run_op].
  - destruct (can_execute_counters now tc tm b) as (C1 & C2 & C3).
    destruct (can_execute_stats_streaks now tc tm b) as (S1 & S2).
    cbv zeta in *. rewrite C1, C2, C3, S1.
    destruct S2 as [-> | ->]; repeat split; lia.
  - unfold record_success. simpl. destruct (_state b); simpl;
      try (repeat split; lia).
    destruct (_ <=? _); simpl; repeat split; lia.
  - unfold record_failure. simpl. destruct (_state b); simpl;
      try (repeat split; lia).
    destruct (_ <=? _); simpl; repeat split; lia.
  - simpl. repeat split; lia.
Qed.

(** X8. The counters of a breaker always add up, whatever operations it
    has gone through: total requests are the successful plus the failed
    ones, each streak is non-negative and no longer than its total, and
    the failure and success streaks are never both running. *)
Theorem breaker_counters_add_up (b : CircuitBreaker) :
  reachable b -> accounted b.
Proof.
  induction 1 as [t service cfg Hv|op b _ IH].
  - unfold accounted. simpl. repeat split; lia.
  - apply accounted_step. exact IH.
Qed.

Lemma breaker_counters_add_up_witness :
  total_requests (_stats Sample.breaker_open)
  = successful_requests (_stats Sample.breaker_open)
    + failed_requests (_stats Sample.breaker_open).
Proof.
  apply (breaker_counters_add_up Sample.breaker_open).
  exact sample_breaker_reachable.
Defined.

Local Ltac close_limits Hst :=
  simpl; rewrite ?Hst; split; intros ?;
  try discriminate; try congruence; try lia; auto.

Lemma below_limits_step op b :
  valid_circuit_breaker (config b) ->
  below_limits b -> below_limits (run_op op b).
Proof.
  intros (Hth & _ & Hh) [Hc Hho]. unfold below_limits.
  rewrite run_op_config.
  destruct op as [now tc tm|now tc|now tc|tn]; cbn [run_op].
  - destruct (_state b) eqn:Hst.
    + rewrite (can_execute_closed now tc tm b Hst). close_limits Hst.
    + destruct (can_execute_open now tc tm b Hst) as [Hno Hyes].
      destruct (_should_transition_to_half_open now b).
      * destruct (Hyes eq_refl) as [Hadm _]. rewrite (Hadm ltac:(lia)).
        close_limits Hst.
      * destruct (Hno eq_refl) as [_ ->]. close_limits Hst.
    + destruct (can_execute_half_open now tc tm b Hst) as [Hadm Hrej].
      destruct (Z_lt_le_dec (_half_open_count b) (half_open_requests (config b))).
      * rewrite (Hadm ltac:(lia)). close_limits Hst.
      * destruct (Hrej ltac:(lia)) as [_ ->]. close_limits Hst.
  - unfold record_success. simpl. destruct (_state b) eqn:Hst.
    + close_limits Hst.
    + close_limits Hst.
    + destruct (_ <=? _) eqn:Hle; [|apply Z.leb_gt in Hle; simpl in Hle];
        close_limits Hst.
  - unfold record_failure. simpl. destruct (_state b) eqn:Hst.
    + destruct (_ <=? _) eqn:Hle; [|apply Z.leb_gt in Hle; simpl in Hle];
        close_limits Hst.
    + close_limits Hst.
    + close_limits Hst.
  - close_limits tn.
Qed.

(** X9. A reachable breaker that is CLOSED has fewer consecutive failures
    than [failure_threshold], and one that is HALF_OPEN has fewer
    consecutive successes than [half_open_requests]: the streak that
    reaches its limit has already moved the breaker. *)
Theorem breaker_streaks_below_limits (b : CircuitBreaker) :
  reachable b -> below_limits b.
Proof.
  induction 1 as [t service cfg Hv|op b Hr IH].
  - destruct Hv as (Hth & _ & _). split; simpl; [intros _; lia|discriminate].
  - apply below_limits_step; [apply (reachable_inv b Hr)|exact IH].
Qed.


Lemma breaker_streaks_below_limits_witness :
  _state (run_op (RecordFailure 1 1)
            (new_breaker 0 "default" Sample.breaker_config)) = CLOSED
  /\ consecutive_failures
       (_stats (run_op (RecordFailure 1 1)
                  (new_breaker 0 "default" Sample.breaker_config))) < 3.
Proof.
  split; [reflexivity|].
  destruct (breaker_streaks_below_limits
              (run_op (RecordFailure 1 1)
                 (new_breaker 0 "default" Sample.breaker_config)))
    as [Hclosed _].
  - constructor. constructor. repeat split; discriminate.
  - apply Hclosed. reflexivity.
Defined.

Lemma run_ops_config ops : forall b, config (run_ops ops b) = config b.
Proof.
  induction ops as [|op ops IH]; intros b; [reflexivity|].
  change (run_ops (op :: ops) b) with (run_ops ops (run_op op b)).
  rewrite IH. apply run_op_config.
Qed.

Lemma failures_from_closed_or_open ops : forall b,
  Forall is_failure ops ->
  (_state b = OPEN -> _state (run_ops ops b) = OPEN)
  /\ (_state b = CLOSED ->
      consecutive_failures (_stats b) < failure_threshold (config b) ->
      (failure_threshold (config b)
       <= consecutive_failures (_stats b) + Z.of_nat (length ops) ->
       _state (run_ops ops b) = OPEN)
      /\ (consecutive_failures (_stats b) + Z.of_nat (length ops)
          < failure_threshold (config b) ->
          _state (run_ops ops b) = CLOSED
          /\ consecutive_failures (_stats (run_ops ops b))
             = consecutive_failures (_stats b) + Z.of_nat (length ops))).
Proof.
  induction ops as [|op ops IH]; intros b Hops.
  - simpl. split; [auto|]. intros Hs Hlt. split; [lia|]. intros _.
    split; [exact Hs|lia].
  - apply Forall_cons in Hops as [(now & tc & ->) Hops].
    change (run_ops (RecordFailure now tc :: ops) b)
      with (run_ops ops (run_op (RecordFailure now tc) b)).
    destruct (IH (run_op (RecordFailure now tc) b) Hops) as [IHo IHc].
    rewrite run_op_config in IHc.
    cbn [length]. rewrite Nat2Z.inj_succ.
    split.
    + intros Hs. apply IHo. cbn [run_op]. unfold record_failure. simpl.
      rewrite Hs. reflexivity.
    + intros Hs Hlt.
      assert (Hstep :
        (failure_threshold (config b) <= consecutive_failures (_stats b) + 1 ->
         _state (run_op (RecordFailure now tc) b) = OPEN)
        /\ (consecutive_failures (_stats b) + 1 < failure_threshold (config b) ->
            _state (run_op (RecordFailure now tc) b) = CLOSED
            /\ consecutive_failures (_stats (run_op (RecordFailure now tc) b))
               = consecutive_failures (_stats b) + 1)).
      { cbn [run_op]. unfold record_failure. simpl. rewrite Hs.
        split; intros Hc.
        - apply Z.leb_le in Hc. rewrite Hc. reflexivity.
        - apply Z.leb_gt in Hc. rewrite Hc. simpl. auto. }
      destruct Hstep as [Htrip Hstay].
      destruct (Z_lt_le_dec (consecutive_failures (_stats b) + 1)
                            (failure_threshold (config b))) as [Hb|Hb].
      * destruct (Hstay Hb) as [Hs' Hcf'].
        destruct (IHc Hs' ltac:(lia)) as [IH1 IH2].
        split; intros Hn.
        -- apply IH1. lia.
        -- destruct (IH2 ltac:(lia)) as [? ?]. split; [assumption|lia].
      * split; intros Hn; [|lia]. apply IHo. apply Htrip. exact Hb.
Qed.

(** X10. Consecutive failures trip a CLOSED breaker exactly when the
    streak reaches [failure_threshold]: with fewer it is still CLOSED and
    the streak has grown by their number, from the threshold on it is OPEN
    and further failures leave it OPEN. *)
Theorem failures_trip_at_threshold (b : CircuitBreaker) (ops : list Op) :
  _state b = CLOSED ->
  consecutive_failures (_stats b) < failure_threshold (config b) ->
  Forall is_failure ops ->
  (failure_threshold (config b)
   <= consecutive_failures (_stats b) + Z.of_nat (length ops) ->
   _state (run_ops ops b) = OPEN)
  /\ (consecutive_failures (_stats b) + Z.of_nat (length ops)
      < failure_threshold (config b) ->
      _state (run_ops ops b) = CLOSED
      /\ consecutive_failures (_stats (run_ops ops b))
         = consecutive_failures (_stats b) + Z.of_nat (length ops)).
Proof.
  intros Hs Hlt Hops.
  apply (failures_from_closed_or_open ops b Hops); assumption.
Qed.


Lemma failures_trip_at_threshold_witness :
  _state (run_ops [RecordFailure 1 1; RecordFailure 2 2; RecordFailure 3 3]
                  Sample.breaker_new) = OPEN
  /\ _state (run_ops [RecordFailure 1 1; RecordFailure 2 2]
                     Sample.breaker_new) = CLOSED.
Proof.
  split.
  - apply (failures_trip_at_threshold Sample.breaker_new
             [RecordFailure 1 1; RecordFailure 2 2; RecordFailure 3 3]).
    + reflexivity.
    + reflexivity.
    + repeat constructor; eexists _, _; reflexivity.
    + vm_compute. discriminate.
  - apply (failures_trip_at_threshold Sample.breaker_new
             [RecordFailure 1 1; RecordFailure 2 2]).
    + reflexivity.
    + reflexivity.
    + repeat constructor; eexists _, _; reflexivity.
    + vm_compute. reflexivity.
Defined.

Lemma successes_from_half_open_or_closed ops : forall b,
  Forall is_success ops ->
  (_state b = CLOSED ->
   _state (run_ops ops b) = CLOSED
   /\ (consecutive_failures (_stats b) = 0 \/ ops <> [] ->
       consecutive_failures (_stats (run_ops ops b)) = 0))
  /\ (_state b = HALF_OPEN ->
      consecutive_successes (_stats b) < half_open_requests (config b) ->
      (half_open_requests (config b)
       <= consecutive_successes (_stats b) + Z.of_nat (length ops) ->
       _state (run_ops ops b) = CLOSED
       /\ consecutive_failures (_stats (run_ops ops b)) = 0)
      /\ (consecutive_successes (_stats b) + Z.of_nat (length ops)
          < half_open_requests (config b) ->
          _state (run_ops ops b) = HALF_OPEN
          /\ _half_open_count (run_ops ops b) = _half_open_count b)).
Proof.
  induction ops as [|op ops IH]; intros b Hops.
  - simpl. split.
    + intros Hs. split; [exact Hs|]. intros [H|H]; [exact H|congruence].
    + intros Hs Hlt. split; [lia|]. intros _. auto.
  - apply Forall_cons in Hops as [(now & tc & ->) Hops].
    change (run_ops (RecordSuccess now tc :: ops) b)
      with (run_ops ops (run_op (RecordSuccess now tc) b)).
    destruct (IH (run_op (RecordSuccess now tc) b) Hops) as [IHc IHh].
    rewrite run_op_config in IHh.
    cbn [length]. rewrite Nat2Z.inj_succ.
    split.
    + intros Hs.
      assert (Hstep : _state (run_op (RecordSuccess now tc) b) = CLOSED
                      /\ consecutive_failures
                           (_stats (run_op (RecordSuccess now tc) b)) = 0).
      { cbn [run_op]. unfold record_success. simpl. rewrite Hs. simpl. auto. }
      destruct Hstep as [Hs' Hcf']. destruct (IHc Hs') as [Hfin Hcf].
      split; [exact Hfin|]. intros _. apply Hcf. left. exact Hcf'.
    + intros Hs Hlt.
      assert (Hstep :
        (half_open_requests (config b) <= consecutive_successes (_stats b) + 1 ->
         _state (run_op (RecordSuccess now tc) b) = CLOSED
         /\ consecutive_failures (_stats (run_op (RecordSuccess now tc) b)) = 0)
        /\ (consecutive_successes (_stats b) + 1 < half_open_requests (config b) ->
            _state (run_op (RecordSuccess now tc) b) = HALF_OPEN
            /\ consecutive_successes (_stats (run_op (RecordSuccess now tc) b))
               = consecutive_successes (_stats b) + 1
            /\ _half_open_count (run_op (RecordSuccess now tc) b)
               = _half_open_count b)).
      { cbn [run_op]. unfold record_success. simpl. rewrite Hs.
        split; intros Hc.
        - apply Z.leb_le in Hc. rewrite Hc. simpl. auto.
        - apply Z.leb_gt in Hc. rewrite Hc. simpl. auto. }
      destruct Hstep as [Hclose Hstay].
      destruct (Z_lt_le_dec (consecutive_successes (_stats b) + 1)
                            (half_open_requests (config b))) as [Hb|Hb].
      * destruct (Hstay Hb) as (Hs' & Hcs' & Hcnt').
        destruct (IHh Hs' ltac:(lia)) as [IH1 IH2].
        split; intros Hn.
        -- apply IH1. lia.
        -- destruct (IH2 ltac:(lia)) as [? ?]. split; [assumption|congruence].
      * split; intros Hn; [|lia].
        destruct (Hclose Hb) as [Hs' Hcf'].
        destruct (IHc Hs') as [Hfin Hcf]. split; [exact Hfin|].
        apply Hcf. left. exact Hcf'.
Qed.

(** X11. Consecutive successes close a HALF_OPEN breaker exactly when the
    streak reaches [half_open_requests], and the closed breaker starts
    with no consecutive failures; with fewer successes it is still
    HALF_OPEN and its probe counter has not moved. A failure while
    HALF_OPEN reopens the breaker and stamps the failure, so that the
    recovery timeout starts again. *)
Theorem half_open_closes_on_successes_reopens_on_failure
    (b : CircuitBreaker) (ops : list Op) :
  _state b = HALF_OPEN ->
  consecutive_successes (_stats b) < half_open_requests (config b) ->
  Forall is_success ops ->
  (half_open_requests (config b)
   <= consecutive_successes (_stats b) + Z.of_nat (length ops) ->
   _state (run_ops ops b) = CLOSED
   /\ consecutive_failures (_stats (run_ops ops b)) = 0)
  /\ (consecutive_successes (_stats b) + Z.of_nat (length ops)
      < half_open_requests (config b) ->
      _state (run_ops ops b) = HALF_OPEN
      /\ _half_open_count (run_ops ops b) = _half_open_count b)
  /\ (consecutive_successes (_stats b) + Z.of_nat (length ops)
      < half_open_requests (config b) ->
      forall now t_change,
        let b' := record_failure now t_change (run_ops ops b) in
        _state b' = OPEN
        /\ last_failure_time (_stats b') = Some now
        /\ forall now' t1 t2,
             (now' - now < recovery_timeout (config b))%Q ->
             fst (fst (can_execute now' t1 t2 b')) = false).
Proof.
  intros Hs Hlt Hops.
  destruct (successes_from_half_open_or_closed ops b Hops) as [_ Hh].
  destruct (Hh Hs Hlt) as [Hclose Hstay].
  split; [exact Hclose|]. split; [exact Hstay|].
  intros Hb now tc b'. destruct (Hstay Hb) as [Hfin _].
  assert (Hre : _state b' = OPEN /\ last_failure_time (_stats b') = Some now
                /\ config b' = config b).
  { subst b'. unfold record_failure. simpl. rewrite Hfin. simpl.
    rewrite run_ops_config. auto. }
  destruct Hre as (Hopen & Hstamp & Hcfg).
  split; [exact Hopen|]. split; [exact Hstamp|].
  intros now' t1 t2 Hgap.
  destruct (can_execute_open now' t1 t2 b' Hopen) as [Hno _].
  apply Hno. unfold _should_transition_to_half_open.
  rewrite Hopen, Hstamp, Hcfg. apply leb_gt. exact Hgap.
Qed.

Lemma half_open_closes_on_successes_reopens_on_failure_witness :
  _state (run_ops [RecordSuccess 5 5; RecordSuccess 6 6]
                  Sample.breaker_half_open) = CLOSED
  /\ _state (record_failure 5 5 (run_ops [] Sample.breaker_half_open)) = OPEN.
Proof.
  split.
  - apply (half_open_closes_on_successes_reopens_on_failure
             Sample.breaker_half_open [RecordSuccess 5 5; RecordSuccess 6 6]).
    + reflexivity.
    + reflexivity.
    + repeat constructor; eexists _, _; reflexivity.
    + vm_compute. discriminate.
  - apply (half_open_closes_on_successes_reopens_on_failure
             Sample.breaker_half_open []).
    + reflexivity.
    + reflexivity.
    + constructor.
    + reflexivity.
Defined.


(** X12. A reachable breaker that is OPEN has a failure stamp and decides
    admission by it alone: while less than [recovery_timeout] has passed
    since the stamp, [can_execute] rejects with a reason that starts with
    "Circuit open for" and the service name, and changes nothing; once the
    timeout has passed it admits. *)
Theorem open_rejects_until_timeout
    (b : CircuitBreaker) (now t_change t_msg : Q) :
  reachable b -> _state b = OPEN ->
  exists lf,
    last_failure_time (_stats b) = Some lf
    /\ ((now - lf < recovery_timeout (config b))%Q ->
        exists rest,
          can_execute now t_change t_msg b
          = ((false,
              Some ("Circuit open for " +:+ service_name b +:+ ", retry in "
                    +:+ rest +:+ "s")), b))
    /\ ((recovery_timeout (config b) <= now - lf)%Q ->
        fst (fst (can_execute now t_change t_msg b)) = true).
Proof.
  intros Hr Hs.
  destruct (reachable_inv b Hr) as ((_ & _ & Hh) & _ & Hlf).
  destruct (last_failure_time (_stats b)) as [lf|] eqn:Elf;
    [|exfalso; apply (Hlf Hs); reflexivity].
  exists lf. split; [reflexivity|]. split; intros Hgap.
  - unfold can_execute, _should_transition_to_half_open.
    rewrite Hs, Elf. apply leb_gt in Hgap. rewrite Hgap, Hs.
    eexists. reflexivity.
  - destruct (can_execute_open now t_change t_msg b Hs) as [_ Hyes].
    destruct Hyes as [Hadm _].
    + unfold _should_transition_to_half_open. rewrite Hs, Elf.
      apply leb_le. exact Hgap.
    + rewrite (Hadm ltac:(lia)). reflexivity.
Qed.

Lemma open_rejects_until_timeout_witness :
  fst (fst (can_execute (32 # 10) 4 4 Sample.breaker_open)) = false
  /\ fst (fst (can_execute (36 # 10) 4 4 Sample.breaker_open)) = true.
Proof.
  destruct (open_rejects_until_timeout Sample.breaker_open (32 # 10) 4 4)
    as (lf & Hlf & Hrej & _);
    [exact sample_breaker_reachable|reflexivity|].
  destruct (open_rejects_until_timeout Sample.breaker_open (36 # 10) 4 4)
    as (lf' & Hlf' & _ & Hadm);
    [exact sample_breaker_reachable|reflexivity|].
  vm_compute in Hlf. injection Hlf as <-.
  vm_compute in Hlf'. injection Hlf' as <-.
  split.
  - destruct Hrej as [rest ->]; [vm_compute; reflexivity|reflexivity].
  - apply Hadm. vm_compute. discriminate.
Defined.

End BreakerCounterFacts.

(** ** The registry and the wrapper *)

Section RegistryFacts.
Import Models Breaker BreakerRuns.
Local Open Scope Z_scope.

(** X13. [get_or_create] creates at most once: a second call for the same
    service returns the breaker of the first and leaves the registry as the
    first left it, whatever config it is given. A breaker it creates is
    CLOSED with the config of that call, [get] finds the breaker it
    returned, and no other service is touched. *)
Theorem get_or_create_creates_once
    (t1 t2 : Q) (service : string) (cfg1 cfg2 : CircuitBreakerConfig)
    (reg : gmap string CircuitBreaker) :
  let b1 := fst (get_or_create t1 service cfg1 reg) in
  let reg1 := snd (get_or_create t1 service cfg1 reg) in
  get_or_create t2 service cfg2 reg1 = (b1, reg1)
  /\ get service reg1 = Some b1
  /\ (reg !! service = None ->
      b1 = new_breaker t1 service cfg1 /\ _state b1 = CLOSED
      /\ config b1 = cfg1)
  /\ (forall b, reg !! service = Some b -> b1 = b /\ reg1 = reg)
  /\ (forall other, other <> service -> reg1 !! other = reg !! other).
Proof.
  intros b1 reg1. subst b1 reg1. unfold get_or_create, get.
  destruct (reg !! service) as [b|] eqn:Hb; cbn [fst snd].
  - rewrite Hb. split; [reflexivity|]. split; [reflexivity|].
    split; [discriminate|]. split; [intros ? [= <-]; auto|]. auto.
  - rewrite lookup_insert_eq. split; [reflexivity|].
    split; [reflexivity|]. split; [auto|]. split; [discriminate|].
    intros other Hne. apply lookup_insert_ne. congruence.
Qed.

Lemma get_or_create_creates_once_witness :
  fst (get_or_create 9 "default" Sample.breaker_config Sample.registry_open)
  = Sample.breaker_open
  /\ config (fst (get_or_create 9 "search" Sample.breaker_config
                    Sample.registry_open)) = Sample.breaker_config.
Proof.
  destruct (get_or_create_creates_once 9 9 "default" Sample.breaker_config
              Sample.breaker_config Sample.registry_open)
    as (_ & _ & _ & Hold & _).
  destruct (get_or_create_creates_once 9 9 "search" Sample.breaker_config
              Sample.breaker_config Sample.registry_open)
    as (_ & _ & Hnew & _).
  split.
  - apply (Hold Sample.breaker_open). vm_compute. reflexivity.
  - apply Hnew. vm_compute. reflexivity.
Defined.

(** X14. [reset_all] keeps the services of the registry and leaves each
    breaker as new: CLOSED, with zeroed counters and no stamps, under its
    old name and config; the next admission check on any of them admits
    and changes nothing. *)
Theorem reset_all_closes_every_breaker
    (t_new : string -> Q) (reg : gmap string CircuitBreaker) (service : string) :
  (reg !! service = None -> reset_all t_new reg !! service = None)
  /\ (forall b, reg !! service = Some b ->
        let b' := new_breaker (t_new service) (service_name b) (config b) in
        reset_all t_new reg !! service = Some b'
        /\ _state b' = CLOSED
        /\ total_requests (_stats b') = 0
        /\ last_failure_time (_stats b') = None
        /\ forall now t_change t_msg,
             can_execute now t_change t_msg b' = ((true, None), b')).
Proof.
  unfold reset_all. rewrite map_lookup_imap. split.
  - intros ->. reflexivity.
  - intros b ->. cbn. repeat split.
Qed.

Lemma reset_all_closes_every_breaker_witness :
  exists b',
    reset_all (fun _ => 9%Q) Sample.registry_open !! "default" = Some b'
    /\ _state b' = CLOSED
    /\ reset_all (fun _ => 9%Q) Sample.registry_open !! "search" = None.
Proof.
  destruct (reset_all_closes_every_breaker (fun _ => 9%Q) Sample.registry_open
              "default") as [_ Hknown].
  destruct (reset_all_closes_every_breaker (fun _ => 9%Q) Sample.registry_open
              "search") as [Hunknown _].
  destruct (Hknown Sample.breaker_open) as (Hb' & Hs & _);
    [vm_compute; reflexivity|].
  eexists. split; [exact Hb'|]. split; [exact Hs|].
  apply Hunknown. vm_compute. reflexivity.
Defined.


Lemma record_counters now tc b :
  (total_requests (_stats (record_success now tc b))
   = total_requests (_stats b) + 1
   /\ successful_requests (_stats (record_success now tc b))
      = successful_requests (_stats b) + 1
   /\ failed_requests (_stats (record_success now tc b))
      = failed_requests (_stats b))
  /\ (total_requests (_stats (record_failure now tc b))
      = total_requests (_stats b) + 1
      /\ successful_requests (_stats (record_failure now tc b))
         = successful_requests (_stats b)
      /\ failed_requests (_stats (record_failure now tc b))
         = failed_requests (_stats b) + 1).
Proof.
  unfold record_success, record_failure. simpl.
  destruct (_state b); simpl; repeat (destruct (_ <=? _); simpl); auto.
Qed.

(** X15. [with_circuit_breaker] runs [func] exactly when the breaker
    admits. On a denial it calls only the fallback, if there is one, and
    returns what the fallback does, or raises [CircuitOpenError] with the
    breaker's reason; the request counters stay as they were. On an
    admission it returns what [func] returns and records one success, or
    raises what [func] raises and records one failure; the fallback is not
    called. *)
Theorem wrapper_runs_func_when_admitted {A : Type}
    (clk : WrapClock) (b : CircuitBreaker) (func : result A)
    (fallback : option (result A)) :
  let checked := can_execute (wc_check clk) (wc_check_change clk)
                             (wc_check_msg clk) b in
  let '(res, b', calls) := with_circuit_breaker clk b func fallback in
  (fst (fst checked) = false ->
   ~ In CallFunc calls
   /\ res = match fallback with
            | Some outcome => outcome
            | None => Raise (CircuitOpenError (default "None" (snd (fst checked))))
            end
   /\ calls = match fallback with Some _ => [CallFallback] | None => [] end
   /\ total_requests (_stats b') = total_requests (_stats b)
   /\ successful_requests (_stats b') = successful_requests (_stats b)
   /\ failed_requests (_stats b') = failed_requests (_stats b))
  /\ (fst (fst checked) = true ->
      calls = [CallFunc] /\ res = func
      /\ total_requests (_stats b') = total_requests (_stats b) + 1
      /\ match func with
         | Ok _ =>
             successful_requests (_stats b')
             = successful_requests (_stats b) + 1
             /\ failed_requests (_stats b') = failed_requests (_stats b)
         | Raise _ =>
             successful_requests (_stats b') = successful_requests (_stats b)
             /\ failed_requests (_stats b') = failed_requests (_stats b) + 1
         end).
Proof.
  intros checked. subst checked. unfold with_circuit_breaker.
  pose proof (can_execute_counters (wc_check clk) (wc_check_change clk)
                (wc_check_msg clk) b) as Hc. cbv zeta in Hc.
  destruct (can_execute (wc_check clk) (wc_check_change clk) (wc_check_msg clk) b)
    as [[allowed reason] b1]. cbn [fst snd] in *.
  destruct Hc as (C1 & C2 & C3).
  destruct allowed; cbn [negb].
  - destruct (record_counters (wc_record clk) (wc_record_change clk) b1)
      as [(S1 & S2 & S3) (F1 & F2 & F3)].
    destruct func as [a|e]; (split; [discriminate|]); intros _;
      repeat split; try reflexivity; lia.
  - destruct fallback as [outcome|]; (split; [|discriminate]); intros _;
      (split; [intros Hin; simpl in Hin; intuition discriminate|]);
      repeat split; try assumption; reflexivity.
Qed.

(** X16. A failure of [func] that completes the failure streak of a CLOSED
    breaker is raised again and leaves the breaker OPEN; a wrapped call
    that checks in before the recovery timeout has passed since that
    failure does not run its [func]: it returns what its fallback does or
    raises [CircuitOpenError], and the breaker stays OPEN. *)
Theorem wrapper_stops_calling_after_trip {A : Type}
    (clk : WrapClock) (b : CircuitBreaker) (e : exn)
    (fallback : option (result A)) :
  _state b = CLOSED ->
  failure_threshold (config b) <= consecutive_failures (_stats b) + 1 ->
  let '(res, b1, calls) := with_circuit_breaker clk b (Raise e) fallback in
  res = Raise e /\ calls = [CallFunc] /\ _state b1 = OPEN
  /\ forall (clk' : WrapClock) (func' : result A) (fallback' : option (result A)),
       (wc_check clk' - wc_record clk < recovery_timeout (config b))%Q ->
       let '(res', b2, calls') :=
         with_circuit_breaker clk' b1 func' fallback' in
       ~ In CallFunc calls'
       /\ b2 = b1
       /\ match fallback' with
          | Some outcome => res' = outcome /\ calls' = [CallFallback]
          | None => (exists reason, res' = Raise (CircuitOpenError reason))
                    /\ calls' = []
          end.
Proof.
  intros Hs Hth. unfold with_circuit_breaker at 1.
  rewrite (can_execute_closed _ _ _ b Hs). cbn [negb].
  set (b1 := record_failure (wc_record clk) (wc_record_change clk) b).
  assert (Hb1 : _state b1 = OPEN
                /\ last_failure_time (_stats b1) = Some (wc_record clk)
                /\ config b1 = config b).
  { subst b1. unfold record_failure. simpl. rewrite Hs.
    apply Z.leb_le in Hth. rewrite Hth. simpl. auto. }
  destruct Hb1 as (Hopen & Hstamp & Hcfg).
  split; [reflexivity|]. split; [reflexivity|]. split; [exact Hopen|].
  intros clk' func' fallback' Hgap. unfold with_circuit_breaker.
  destruct (can_execute_open (wc_check clk') (wc_check_change clk')
              (wc_check_msg clk') b1 Hopen) as [Hno _].
  destruct Hno as [Hden Hsame].
  { unfold _should_transition_to_half_open. rewrite Hopen, Hstamp, Hcfg.
    apply leb_gt. exact Hgap. }
  destruct (can_execute (wc_check clk') (wc_check_change clk')
              (wc_check_msg clk') b1) as [[allowed reason] b2].
  cbn [fst snd] in Hden, Hsame. subst allowed b2. cbn [negb].
  destruct fallback' as [outcome|].
  - split; [intros [Habs|[]]; discriminate Habs|]. auto.
  - split; [intros []|]. split; [reflexivity|]. split; [eauto|reflexivity].
Qed.

Lemma wrapper_runs_func_when_admitted_witness :
  fst (fst (with_circuit_breaker Sample.wrap_clock_soon Sample.breaker_open
              (Ok 1) (Some (Ok 7)))) = Ok 7
  /\ fst (with_circuit_breaker Sample.wrap_clock Sample.breaker_new
            (@Raise Z KeyError) None)
     = (Raise KeyError, record_failure 3 3 Sample.breaker_new).
Proof.
  split.
  - pose proof (wrapper_runs_func_when_admitted Sample.wrap_clock_soon
                  Sample.breaker_open (Ok 1) (Some (Ok 7))) as H.
    cbv zeta in H.
    destruct (with_circuit_breaker Sample.wrap_clock_soon Sample.breaker_open
                (Ok 1) (Some (Ok 7))) as [[res b'] calls].
    destruct H as [Hden _].
    destruct Hden as (_ & Hres & _); [vm_compute; reflexivity|].
    exact Hres.
  - pose proof (wrapper_runs_func_when_admitted Sample.wrap_clock
                  Sample.breaker_new (@Raise Z KeyError) None) as H.
    cbv zeta in H.
    destruct (with_circuit_breaker Sample.wrap_clock Sample.breaker_new
                (@Raise Z KeyError) None) as [[res b'] calls] eqn:E.
    destruct H as [_ Hadm].
    destruct Hadm as (_ & Hres & _); [vm_compute; reflexivity|].
    cbn [fst]. rewrite Hres. f_equal.
    apply (f_equal (fun x => snd (fst x))) in E. cbn [fst snd] in E.
    rewrite <- E. reflexivity.
Defined.

Lemma wrapper_stops_calling_after_trip_witness :
  _state (snd (fst (with_circuit_breaker Sample.wrap_clock
                      Sample.breaker_strained (@Raise Z KeyError) None)))
  = OPEN
  /\ snd (with_circuit_breaker Sample.wrap_clock_soon
            (snd (fst (with_circuit_breaker Sample.wrap_clock
                         Sample.breaker_strained (@Raise Z KeyError) None)))
            (Ok 1) None) = [].
Proof.
  pose proof (@wrapper_stops_calling_after_trip Z Sample.wrap_clock
                Sample.breaker_strained KeyError None) as H.
  destruct (with_circuit_breaker Sample.wrap_clock Sample.breaker_strained
              (@Raise Z KeyError) None) as [[res b1] calls].
  destruct H as (_ & _ & Hopen & Hnext);
    [reflexivity|vm_compute; discriminate|].
  cbn [fst snd]. split; [exact Hopen|].
  specialize (Hnext Sample.wrap_clock_soon (Ok 1) None).
  destruct (with_circuit_breaker Sample.wrap_clock_soon b1 (Ok 1) None)
    as [[res' b2] calls'].
  destruct Hnext as (_ & _ & _ & Hcalls); [vm_compute; reflexivity|].
  exact Hcalls.
Defined.

End RegistryFacts.

(** ** Routing and token costs *)

Section RoutingFacts.
Import Models Breaker Http Router.

Variable re_match : string -> string -> bool.
Variable urljoin : string -> string -> string.
Variable client_request : UpstreamRequest -> UpstreamOutcome.

(** X17. The token cost of a path is the cost of the first endpoint whose
    pattern matches it, and 1 when none matches; it is at least 1 when
    every configured cost is. The middleware and the router, each with its
    own copy of the lookup, give the same cost for the same table. *)
Theorem token_cost_is_first_match (costs : list EndpointConfig) (path : string) :
  (forall pre e post,
     costs = pre ++ e :: post ->
     Forall (fun x => re_match (path_pattern x) path = false) pre ->
     re_match (path_pattern e) path = true ->
     get_token_cost_in re_match costs path = token_cost e)
  /\ (Forall (fun x => re_match (path_pattern x) path = false) costs ->
      get_token_cost_in re_match costs path = 1%Z)
  /\ (Forall (fun x => (1 <= token_cost x)%Z) costs ->
      (1 <= get_token_cost_in re_match costs path)%Z)
  /\ Middleware._get_token_cost_in re_match costs path
     = get_token_cost_in re_match costs path.
Proof.
  split; [|split; [|split]].
  - intros pre e post -> Hpre Hm.
    induction Hpre as [|x pre Hx _ IH]; cbn [app get_token_cost_in].
    + rewrite Hm. reflexivity.
    + rewrite Hx. exact IH.
  - induction 1 as [|x rest Hx _ IH]; cbn [get_token_cost_in];
      [reflexivity|]. rewrite Hx. exact IH.
  - induction 1 as [|x rest Hx _ IH]; cbn [get_token_cost_in]; [lia|].
    destruct (re_match (path_pattern x) path); [exact Hx|exact IH].
  - induction costs as [|x rest IH]; [reflexivity|].
    cbn [get_token_cost_in Middleware._get_token_cost_in]. rewrite IH.
    reflexivity.
Qed.

(** X18. [resolve_service] names the service of the first route whose
    pattern matches the path; when no route matches it names "default" if
    such a service is configured, and nothing otherwise. *)
Theorem resolve_service_is_first_route_or_default
    (r : RequestRouter) (path : string) :
  (forall pre pattern service post,
     _route_patterns r = pre ++ (pattern, service) :: post ->
     Forall (fun x => re_match (fst x) path = false) pre ->
     re_match pattern path = true ->
     resolve_service re_match r path = Some service)
  /\ (Forall (fun x => re_match (fst x) path = false) (_route_patterns r) ->
      (is_Some (_services r !! "default") ->
       resolve_service re_match r path = Some "default")
      /\ (_services r !! "default" = None ->
          resolve_service re_match r path = None)).
Proof.
  unfold resolve_service. split.
  - intros pre pattern service post -> Hpre Hm.
    replace (first_route re_match (pre ++ (pattern, service) :: post) path)
      with (Some service); [reflexivity|].
    induction Hpre as [|[p s] pre Hx _ IH]; cbn [app first_route].
    + rewrite Hm. reflexivity.
    + simpl in Hx. rewrite Hx. exact IH.
  - intros Hnone.
    replace (first_route re_match (_route_patterns r) path) with (@None string).
    + split; [intros [c ->]; reflexivity|intros ->; reflexivity].
    + induction Hnone as [|[p s] rest Hx _ IH]; cbn [first_route];
        [reflexivity|]. simpl in Hx. rewrite Hx. exact IH.
Qed.

(** X19. [proxy_request] fails before it reaches any breaker when the
    router has not been started ([RuntimeError]) or when the target is not
    a configured service ([ValueError], which the handler turns into a 404):
    the registry is left as it was and nothing is called, whether the
    target was named by the caller, resolved from the path, or not
    resolved at all. *)
Theorem proxy_fails_before_breaker
    (clk : ProxyClock) (r : RequestRouter) (request : Request)
    (service_name : option string) (reg : gmap string CircuitBreaker) :
  (_client r = false ->
   Router.proxy_request re_match urljoin client_request clk r request
     service_name reg
   = (Raise (RuntimeError "Router not started"), reg, []))
  /\ (_client r = true ->
      forall target,
        match Py.truthy_str service_name with
        | Some s => Some s
        | None => resolve_service re_match r (url_path request)
        end = target ->
        match target with
        | Some s => s = "" \/ _services r !! s = None
        | None => True
        end ->
        Router.proxy_request re_match urljoin client_request clk r request
          service_name reg
        = (Raise (ValueError ("Unknown service: " +:+ default "None" target)),
           reg, [])
        /\ (service_name = None ->
            Main.proxy_request re_match urljoin client_request clk (Some r)
              request reg
            = (Raise (HTTPException 404
                        ("Unknown service: " +:+ default "None" target)),
               reg, []))).
Proof.
  split.
  - intros Hc. unfold Router.proxy_request. rewrite Hc. reflexivity.
  - intros Hc target Htarget Hunknown.
    assert (Hrouter :
      Router.proxy_request re_match urljoin client_request clk r request
        service_name reg
      = (Raise (ValueError ("Unknown service: " +:+ default "None" target)),
         reg, [])).
    { unfold Router.proxy_request. rewrite Hc. cbn [negb].
      rewrite Htarget. destruct target as [s|]; [|reflexivity].
      cbn [Py.truthy_str]. destruct Hunknown as [->|Hs]; [reflexivity|].
      destruct (String.eqb s ""); [reflexivity|]. rewrite Hs. reflexivity. }
    split; [exact Hrouter|]. intros ->. unfold Main.proxy_request.
    rewrite Hrouter. reflexivity.
Qed.



(** X21. The headers the proxy forwards upstream never include a
    hop-by-hop header or [Host], in any letter case, and the headers it
    returns downstream never include a hop-by-hop header; every header it
    forwards was in the message it received, and the name of a header that
    is neither hop-by-hop nor [Host] is among the forwarded ones. *)
Theorem forwarded_headers_are_scrubbed (hs : list (string * string)) :
  (forall k v, In (k, v) (forwarded_request_headers hs) ->
     In (k, v) hs
     /\ ~ In (Py.lower k) hop_by_hop /\ Py.lower k <> "host")
  /\ (forall k v, In (k, v) (forwarded_response_headers hs) ->
        In (k, v) hs /\ ~ In (Py.lower k) hop_by_hop)
  /\ (forall k v, In (k, v) hs ->
        ~ In (Py.lower k) hop_by_hop -> Py.lower k <> "host" ->
        (exists v', In (k, v') (forwarded_request_headers hs))
        /\ (exists v', In (k, v') (forwarded_response_headers hs))).
Proof.
  assert (Hin : forall s l, in_list s l = true <-> In s l).
  { intros s l. unfold in_list. rewrite existsb_exists. split.
    - intros (x & Hx & He). apply String.eqb_eq in He. subst. exact Hx.
    - intros Hs. exists s. split; [exact Hs|apply String.eqb_refl]. }
  assert (Hnin : forall s l, negb (in_list s l) = true <-> ~ In s l).
  { intros s l. rewrite negb_true_iff, <- Hin.
    destruct (in_list s l); split; congruence. }
  unfold forwarded_request_headers, forwarded_response_headers.
  split; [|split].
  - intros k v Hf. apply filter_In in Hf as [Hf Hc]. cbn [fst] in Hc.
    apply andb_true_iff in Hc as [H1 H2].
    split; [exact Hf|]. split; [apply Hnin; exact H1|].
    apply negb_true_iff, String.eqb_neq in H2. exact H2.
  - intros k v Hf. apply filter_In in Hf as [Hf Hc]. cbn [fst] in Hc.
    split; [exact Hf|]. apply Hnin. exact Hc.
  - intros k v Hf H1 H2. split; exists v; apply filter_In;
      (split; [exact Hf|]); cbn [fst].
    + apply andb_true_iff. split; [apply Hnin; exact H1|].
      apply negb_true_iff, String.eqb_neq. exact H2.
    + apply Hnin. exact H1.
Qed.

End RoutingFacts.

Section RoutingWitnesses.
Import Models Breaker Http Router.

Lemma token_cost_is_first_match_witness :
  get_token_cost_in Sample.re_match Sample.endpoint_costs "/api/v1/search/x" = 5%Z
  /\ get_token_cost_in Sample.re_match Sample.endpoint_costs "/status" = 1%Z
  /\ (1 <= get_token_cost_in Sample.re_match Sample.endpoint_costs "/api/v1/y")%Z.
Proof.
  destruct (token_cost_is_first_match Sample.re_match Sample.endpoint_costs
              "/api/v1/search/x") as (Hfirst & _).
  destruct (token_cost_is_first_match Sample.re_match Sample.endpoint_costs
              "/status") as (_ & Hnone & _).
  destruct (token_cost_is_first_match Sample.re_match Sample.endpoint_costs
              "/api/v1/y") as (_ & _ & Hpos & _).
  split; [|split].
  - apply (Hfirst [] {| path_pattern := "/api/v1/search"; token_cost := 5 |}
                  [{| path_pattern := "/api/v1/"; token_cost := 1 |}]);
      [reflexivity|constructor|reflexivity].
  - apply Hnone. repeat constructor.
  - apply Hpos. repeat constructor; simpl; lia.
Defined.

Lemma resolve_service_is_first_route_or_default_witness :
  resolve_service Sample.re_match Sample.routed "/api/v1/search" = Some "search"
  /\ resolve_service Sample.re_match Sample.router "/anything" = Some "default".
Proof.
  destruct (resolve_service_is_first_route_or_default Sample.re_match
              Sample.routed "/api/v1/search") as [Hfirst _].
  destruct (resolve_service_is_first_route_or_default Sample.re_match
              Sample.router "/anything") as [_ Hdefault].
  split.
  - apply (Hfirst [] "/api/v1/search" "search" [("/api", "default")]);
      [reflexivity|constructor|reflexivity].
  - apply Hdefault; [constructor|]. eexists. vm_compute. reflexivity.
Defined.

Lemma proxy_fails_before_breaker_witness :
  Router.proxy_request Sample.re_match Sample.urljoin Sample.failing_upstream
    Sample.proxy_clock Sample.stopped Sample.request None Sample.registry_open
  = (Raise (RuntimeError "Router not started"), Sample.registry_open, [])
  /\ Router.proxy_request Sample.re_match Sample.urljoin Sample.failing_upstream
       Sample.proxy_clock Sample.routed Sample.request (Some "billing")
       Sample.registry_open
     = (Raise (ValueError "Unknown service: billing"), Sample.registry_open, []).
Proof.
  destruct (proxy_fails_before_breaker Sample.re_match Sample.urljoin
              Sample.failing_upstream Sample.proxy_clock Sample.stopped
              Sample.request None Sample.registry_open) as [Hstopped _].
  destruct (proxy_fails_before_breaker Sample.re_match Sample.urljoin
              Sample.failing_upstream Sample.proxy_clock Sample.routed
              Sample.request (Some "billing") Sample.registry_open)
    as [_ Hunknown].
  split; [apply Hstopped; reflexivity|].
  destruct (Hunknown eq_refl (Some "billing") eq_refl) as [Hr _];
    [right; vm_compute; reflexivity|exact Hr].
Defined.


Lemma forwarded_headers_are_scrubbed_witness :
  forwarded_request_headers Sample.mixed_headers = [("Accept", "*/*")]
  /\ ~ In ("HOST", "gateway.example")
         (forwarded_request_headers Sample.mixed_headers).
Proof.
  split; [reflexivity|].
  intros Hin.
  destruct (forwarded_headers_are_scrubbed Sample.mixed_headers) as [Hreq _].
  destruct (Hreq "HOST" "gateway.example" Hin) as (_ & _ & Hhost).
  apply Hhost. reflexivity.
Defined.

End RoutingWitnesses.

(** ** The health checker *)

Section HealthFacts.
Import Models Health.

Variable urljoin : string -> string -> string.
Variable client_get : string -> GetOutcome.

Local Abbreviation check_service := (_check_service urljoin client_get).

Lemma check_service_other name config health other :
  other <> name ->
  check_service name config health !! other = health !! other.
Proof.
  intros Hne. unfold _check_service.
  destruct (Py.truthy_str (health_check_path config)); [|reflexivity].
  destruct (client_get _); apply lookup_insert_ne; congruence.
Qed.

Lemma check_fold_untouched (l : list (string * UpstreamServiceConfig))
    (health : gmap string bool) (name : string) :
  (forall config, ~ In (name, config) l) ->
  foldr (fun nc acc => check_service (fst nc) (snd nc) acc) health l !! name
  = health !! name.
Proof.
  induction l as [|[n c] rest IH]; intros Hnin; [reflexivity|].
  cbn [foldr fst snd]. rewrite check_service_other.
  - apply IH. intros config Hin. apply (Hnin config). right. exact Hin.
  - intros ->. apply (Hnin c). left. reflexivity.
Qed.

Lemma check_fold_own (l : list (string * UpstreamServiceConfig))
    (health : gmap string bool) (name : string) (config : UpstreamServiceConfig) :
  NoDup l.*1 -> In (name, config) l ->
  foldr (fun nc acc => check_service (fst nc) (snd nc) acc) health l !! name
  = check_service name config health !! name.
Proof.
  induction l as [|[n c] rest IH]; intros Hnd Hin; [destruct Hin|].
  change (((n, c) :: rest).*1) with (n :: rest.*1) in Hnd.
  apply NoDup_cons in Hnd as [Hn Hnd]. cbn [foldr fst snd].
  destruct Hin as [[= -> ->]|Hin].
  - assert (Hrest : foldr (fun nc acc => check_service (fst nc) (snd nc) acc)
                          health rest !! name = health !! name).
    { apply check_fold_untouched. intros c' Hc'. apply Hn.
      apply list_elem_of_fmap. exists (name, c'). split; [reflexivity|].
      apply list_elem_of_In. exact Hc'. }
    unfold _check_service.
    destruct (Py.truthy_str (health_check_path config)); [|exact Hrest].
    destruct (client_get _); rewrite !lookup_insert_eq; reflexivity.
  - assert (n <> name).
    { intros ->. apply Hn. apply list_elem_of_fmap.
      exists (name, config). split; [reflexivity|].
      apply list_elem_of_In. exact Hin. }
    rewrite check_service_other by congruence. apply IH; assumption.
Qed.

Lemma NoDup_fst_filter_services
    (f : string * UpstreamServiceConfig -> bool)
    (l : list (string * UpstreamServiceConfig)) :
  NoDup l.*1 -> NoDup (List.filter f l).*1.
Proof.
  induction l as [|[k c] rest IH]; intros Hnd; [constructor|].
  change (((k, c) :: rest).*1) with (k :: rest.*1) in Hnd.
  apply NoDup_cons in Hnd as [Hk Hnd]. cbn [List.filter].
  destruct (f (k, c)); [|apply IH; exact Hnd].
  change (((k, c) :: List.filter f rest).*1)
    with (k :: (List.filter f rest).*1).
  constructor; [|apply IH; exact Hnd].
  intros Habs. apply Hk. apply list_elem_of_fmap in Habs as ([k' c'] & Hk' & Hf).
  simpl in Hk'. subst k'. apply list_elem_of_In, filter_In in Hf as [Hf _].
  apply list_elem_of_fmap. exists (k, c'). split; [reflexivity|].
  apply list_elem_of_In. exact Hf.
Qed.

(** X22. One round of health checks sets the entry of every service that
    has a health path: healthy exactly when the probe of the service's
    base URL joined with the path answered with a status from 200 to 299,
    unhealthy when it answered with another status or raised. The entries
    of services without a health path, and of names that are no service,
    stay as they were; the [/health] endpoint reports the entries as
    "healthy" or "unhealthy". *)
Theorem health_round_probes_each_service
    (services : gmap string UpstreamServiceConfig)
    (health : gmap string bool) (name : string) :
  let health' := _check_all_services urljoin client_get services health in
  (forall config path,
     services !! name = Some config ->
     Py.truthy_str (health_check_path config) = Some path ->
     let healthy :=
       match client_get (urljoin (base_url config) path) with
       | GetResponded status => bool_decide (200 <= status < 300)%Z
       | GetFailed => false
       end in
     health' !! name = Some healthy
     /\ service_status health' !! name
        = Some (if healthy then "healthy" else "unhealthy"))
  /\ ((services !! name = None
       \/ exists config, services !! name = Some config
                         /\ Py.truthy_str (health_check_path config) = None) ->
      health' !! name = health !! name).
Proof.
  intros health'. subst health'. unfold _check_all_services.
  set (probed := List.filter _ (map_to_list services)).
  assert (Hnd : NoDup probed.*1).
  { apply NoDup_fst_filter_services, NoDup_fst_map_to_list. }
  assert (Hin : forall config,
            In (name, config) probed <->
            services !! name = Some config
            /\ is_Some (Py.truthy_str (health_check_path config))).
  { intros config. unfold probed. rewrite filter_In. cbn [snd].
    rewrite bool_decide_eq_true, <- list_elem_of_In, elem_of_map_to_list.
    reflexivity. }
  split.
  - intros config path Hs Hp. cbv zeta.
    set (healthy := match client_get (urljoin (base_url config) path) with
                    | GetResponded status => bool_decide (200 <= status < 300)%Z
                    | GetFailed => false
                    end).
    assert (Hlk : foldr (fun nc acc => check_service (fst nc) (snd nc) acc)
                        health probed !! name = Some healthy).
    { rewrite (check_fold_own probed health name config Hnd).
      - unfold _check_service. rewrite Hp. subst healthy.
        destruct (client_get _) as [status|]; rewrite lookup_insert_eq;
          [|reflexivity].
        f_equal. destruct (bool_decide_reflect (200 <= status < 300)%Z) as [H|H].
        + apply andb_true_iff. split; [apply Z.leb_le|apply Z.ltb_lt]; lia.
        + apply andb_false_iff.
          destruct (Z_le_gt_dec 200 status);
            [right; apply Z.ltb_ge|left; apply Z.leb_gt]; lia.
      - apply Hin. split; [exact Hs|]. rewrite Hp. eauto. }
    split; [exact Hlk|]. unfold service_status.
    rewrite lookup_fmap, Hlk. reflexivity.
  - intros Hskip. apply check_fold_untouched. intros config Hc.
    apply Hin in Hc as [Hs [p Hp]].
    destruct Hskip as [Hnone|(c' & Hc' & Hnp)]; congruence.
Qed.

End HealthFacts.

Section HealthWitnesses.
Import Models Health.

Lemma health_round_probes_each_service_witness :
  _check_all_services Sample.urljoin Sample.health_get Sample.services
                      {[ "batch" := true ]} !! "default" = Some false
  /\ _check_all_services Sample.urljoin Sample.health_get Sample.services
                         {[ "batch" := true ]} !! "batch" = Some true.
Proof.
  destruct (health_round_probes_each_service Sample.urljoin Sample.health_get
              Sample.services {[ "batch" := true ]} "default") as [Hprobe _].
  destruct (health_round_probes_each_service Sample.urljoin Sample.health_get
              Sample.services {[ "batch" := true ]} "batch") as [_ Hskip].
  split.
  - destruct (Hprobe Sample.service "/health") as [H _];
      [vm_compute; reflexivity|reflexivity|exact H].
  - rewrite Hskip; [vm_compute; reflexivity|].
    right. exists Sample.quiet_service. split; [vm_compute; reflexivity|].
    reflexivity.
Defined.

End HealthWitnesses.

(** ** The middleware around the limiter *)

Section DispatchFacts.
Import Models Limiter Http Metrics Middleware.

Variable App : Type.
Variable re_match : string -> string -> bool.
Variable config : GatewayConfig.
Variable tier_resolver : string -> ClientTier.
Variable call_next : Request -> State App -> result Response * State App.

Local Abbreviation run_dispatch :=
  (dispatch App re_match config tier_resolver call_next).

Lemma truthy_str_Some (o : option string) (s : string) :
  Py.truthy_str o = Some s <-> o = Some s /\ s <> "".
Proof.
  unfold Py.truthy_str. destruct o as [x|]; [|split; [discriminate|intros [? _]; discriminate]].
  destruct (String.eqb_spec x ""); split.
  - discriminate.
  - intros [[= ->] Hne]. contradiction.
  - intros [= ->]. auto.
  - intros [[= ->] _]. reflexivity.
Qed.

(** X23. The client id of a request is never the empty string. It is the
    value of the configured header when that is present and not empty;
    failing that, with the IP fallback on, the peer's host, or "unknown"
    when the request has no peer; and "anonymous" with the fallback off or
    an empty host. *)
Theorem client_id_is_never_empty (request : Request) :
  let header := headers_get (client_id_header config) (headers request) in
  _get_client_id config request <> ""
  /\ (forall s, header = Some s -> s <> "" ->
        _get_client_id config request = s)
  /\ (Py.truthy_str header = None ->
      (fallback_to_ip config = false ->
       _get_client_id config request = "anonymous")
      /\ (fallback_to_ip config = true ->
          (client_host request = None ->
           _get_client_id config request = "unknown")
          /\ (forall h, client_host request = Some h ->
                _get_client_id config request
                = if String.eqb h "" then "anonymous" else h))).
Proof.
  intros header. subst header. unfold _get_client_id.
  set (header := headers_get (client_id_header config) (headers request)).
  assert (Hsome : forall s, s <> "" -> Py.truthy_str (Some s) = Some s).
  { intros s Hne. apply truthy_str_Some. auto. }
  split; [|split].
  - destruct (Py.truthy_str header) as [s|] eqn:Hh.
    + apply truthy_str_Some in Hh as [_ Hne]. rewrite (Hsome s Hne).
      exact Hne.
    + destruct (fallback_to_ip config).
      * destruct (client_host request) as [h|]; cbn; [|discriminate].
        destruct (String.eqb_spec h ""); [discriminate|assumption].
      * rewrite Hh. discriminate.
  - intros s Hs Hne.
    assert (Ht : Py.truthy_str header = Some s)
      by (apply truthy_str_Some; auto).
    rewrite Ht, (Hsome s Hne). reflexivity.
  - intros Hnone. rewrite Hnone. split.
    + intros ->. rewrite Hnone. reflexivity.
    + intros ->. split.
      * intros ->. reflexivity.
      * intros h ->. cbn. destruct (String.eqb h ""); reflexivity.
Qed.

(** X24. A request whose path starts with one of the exempt prefixes
    ([/health], [/metrics], [/ready], [/_internal]) goes straight to the
    handler: the middleware does not consult the limiter and writes no
    metric, log record or header of its own. *)
Theorem exempt_paths_bypass_the_limiter
    (clk : DispatchClock) (request : Request) (st : State App)
    (prefix rest : string) :
  In prefix exempt_paths ->
  url_path request = prefix +:+ rest ->
  run_dispatch clk request st = call_next request st.
Proof.
  intros Hin Hpath. unfold dispatch.
  assert (Hex : _is_exempt_path (url_path request) = true).
  { unfold _is_exempt_path. apply existsb_exists. exists prefix.
    split; [exact Hin|]. rewrite Hpath. clear.
    induction prefix as [|c p IH]; [destruct rest; reflexivity|].
    change (String c p +:+ rest) with (String c (p +:+ rest)).
    cbn [String.prefix]. destruct (Ascii.ascii_dec c c); [exact IH|contradiction]. }
  rewrite Hex. reflexivity.
Qed.

(** X25. When the limiter denies, the handler is not called: the outcome
    of [dispatch] is the same whatever the handler is, the application
    state is untouched, the limiter is the one the check left, and the log
    has gained one record, a warning with status 429. *)
Theorem denial_never_reaches_handler
    (clk : DispatchClock) (request : Request) (st : State App)
    (retry remaining : Q) (lim' : RateLimiter) :
  _is_exempt_path (url_path request) = false ->
  check_rate_limit (m_new clk) (m_consume clk) (m_avail clk)
    (_get_client_id config request)
    (tier_resolver (_get_client_id config request))
    (_get_token_cost re_match config (url_path request)) (limiter st)
  = (Ok (false, retry, remaining), lim') ->
  (forall other_next,
     dispatch App re_match config tier_resolver other_next clk request st
     = run_dispatch clk request st)
  /\ app (snd (run_dispatch clk request st)) = app st
  /\ limiter (snd (run_dispatch clk request st)) = lim'
  /\ exists record,
       log (snd (run_dispatch clk request st)) = log st ++ [record]
       /\ log_level record = LogWarning
       /\ log_status_code record = 429%Z
       /\ log_rate_limited record = true
       /\ log_client_id record = _get_client_id config request.
Proof.
  intros Hex Hchk. unfold dispatch. rewrite Hex, Hchk. cbn [negb snd].
  split; [reflexivity|]. split; [reflexivity|]. split; [reflexivity|].
  eexists. split; [reflexivity|]. repeat split.
Qed.

Lemma headers_get_cons (name k v : string) (hs : list (string * string)) :
  headers_get name ((k, v) :: hs)
  = if String.eqb (Py.lower k) (Py.lower name) then Some v
    else headers_get name hs.
Proof. reflexivity. Qed.

Lemma headers_set_cons (name value k v : string) (hs : list (string * string)) :
  headers_set name value ((k, v) :: hs)
  = if String.eqb (Py.lower k) (Py.lower name)
    then headers_set name value hs
    else (k, v) :: headers_set name value hs.
Proof.
  unfold headers_set. cbn [List.filter fst].
  destruct (String.eqb (Py.lower k) (Py.lower name)); reflexivity.
Qed.

Lemma headers_get_set (name value : string) (hs : list (string * string)) :
  headers_get name (headers_set name value hs) = Some value.
Proof.
  induction hs as [|[k v] rest IH].
  - change (headers_set name value []) with [(name, value)].
    rewrite headers_get_cons, String.eqb_refl. reflexivity.
  - rewrite headers_set_cons.
    destruct (String.eqb (Py.lower k) (Py.lower name)) eqn:E; [exact IH|].
    rewrite headers_get_cons, E. exact IH.
Qed.

Lemma headers_get_set_other (name other value : string)
    (hs : list (string * string)) :
  Py.lower other <> Py.lower name ->
  headers_get other (headers_set name value hs) = headers_get other hs.
Proof.
  intros Hne. induction hs as [|[k v] rest IH].
  - change (headers_set name value []) with [(name, value)].
    rewrite headers_get_cons.
    destruct (String.eqb_spec (Py.lower name) (Py.lower other));
      [congruence|reflexivity].
  - rewrite headers_set_cons, (headers_get_cons other k v rest).
    destruct (String.eqb_spec (Py.lower k) (Py.lower name)) as [Ek|Ek].
    + rewrite IH.
      destruct (String.eqb_spec (Py.lower k) (Py.lower other)); [|reflexivity].
      congruence.
    + rewrite headers_get_cons.
      destruct (String.eqb (Py.lower k) (Py.lower other)); [reflexivity|].
      exact IH.
Qed.

(** X26. When the limiter allows and the handler returns a response, the
    middleware returns that response with its status and body and with
    [X-RateLimit-Remaining] set to the whole tokens left, replacing any
    header of that name and leaving the others; it logs one info record
    with the response's status. When the handler raises, the exception
    passes through and the middleware records nothing. *)
Theorem allowed_request_gets_remaining_header
    (clk : DispatchClock) (request : Request) (st : State App)
    (retry remaining : Q) (lim' : RateLimiter) :
  _is_exempt_path (url_path request) = false ->
  check_rate_limit (m_new clk) (m_consume clk) (m_avail clk)
    (_get_client_id config request)
    (tier_resolver (_get_client_id config request))
    (_get_token_cost re_match config (url_path request)) (limiter st)
  = (Ok (true, retry, remaining), lim') ->
  let st1 := {| limiter := lim'; metrics := metrics st; log := log st;
                app := app st |} in
  (forall response st2,
     call_next request st1 = (Ok response, st2) ->
     exists response' record,
       fst (run_dispatch clk request st) = Ok response'
       /\ Http.status_code response' = Http.status_code response
       /\ content response' = content response
       /\ headers_get "X-RateLimit-Remaining" (resp_headers response')
          = Some (Py.str (Py.int remaining))
       /\ (forall other,
             Py.lower other <> Py.lower "X-RateLimit-Remaining" ->
             headers_get other (resp_headers response')
             = headers_get other (resp_headers response))
       /\ log (snd (run_dispatch clk request st)) = log st2 ++ [record]
       /\ log_level record = LogInfo
       /\ log_status_code record = Http.status_code response
       /\ limiter (snd (run_dispatch clk request st)) = limiter st2
       /\ app (snd (run_dispatch clk request st)) = app st2)
  /\ (forall e st2,
        call_next request st1 = (Raise e, st2) ->
        run_dispatch clk request st = (Raise e, st2)).
Proof.
  intros Hex Hchk st1. split.
  - intros response st2 Hnext. unfold dispatch. rewrite Hex, Hchk.
    cbn [negb]. fold st1. rewrite Hnext. cbn [fst snd].
    eexists _, _. split; [reflexivity|]. split; [reflexivity|].
    split; [reflexivity|]. split; [apply headers_get_set|].
    split; [intros other Hne; apply headers_get_set_other; exact Hne|].
    cbn [log limiter app]. split; [reflexivity|]. repeat split.
  - intros e st2 Hnext. unfold dispatch. rewrite Hex, Hchk.
    cbn [negb]. fold st1. rewrite Hnext. reflexivity.
Qed.

End DispatchFacts.

Section DispatchWitnesses.
Import Models Limiter Http Metrics Middleware.

Lemma client_id_is_never_empty_witness :
  _get_client_id Sample.gateway_config Sample.search_request = "alice"
  /\ _get_client_id Sample.gateway_config Sample.health_request = "unknown".
Proof.
  destruct (client_id_is_never_empty Sample.gateway_config Sample.search_request)
    as (_ & Hheader & _).
  destruct (client_id_is_never_empty Sample.gateway_config Sample.health_request)
    as (_ & _ & Hmissing).
  split.
  - apply Hheader; [reflexivity|discriminate].
  - destruct Hmissing as [_ Hip]; [reflexivity|].
    destruct Hip as [Hnone _]; [reflexivity|]. apply Hnone. reflexivity.
Defined.

Lemma exempt_paths_bypass_the_limiter_witness :
  dispatch unit Sample.re_match Sample.gateway_config Sample.tier_resolver
    Sample.call_next Sample.dispatch_clock Sample.health_request
    Sample.gateway_spent
  = Sample.call_next Sample.health_request Sample.gateway_spent.
Proof.
  apply (exempt_paths_bypass_the_limiter unit Sample.re_match
           Sample.gateway_config Sample.tier_resolver Sample.call_next
           Sample.dispatch_clock Sample.health_request Sample.gateway_spent
           "/health" "/live").
  - left. reflexivity.
  - reflexivity.
Defined.

Lemma denial_never_reaches_handler_witness :
  app (snd (dispatch unit Sample.re_match Sample.gateway_config
              Sample.tier_resolver Sample.call_next Sample.dispatch_clock
              Sample.request Sample.gateway_spent)) = tt
  /\ length (log (snd (dispatch unit Sample.re_match Sample.gateway_config
                         Sample.tier_resolver Sample.call_next
                         Sample.dispatch_clock Sample.request
                         Sample.gateway_spent))) = 1%nat.
Proof.
  destruct (denial_never_reaches_handler unit Sample.re_match
              Sample.gateway_config Sample.tier_resolver Sample.call_next
              Sample.dispatch_clock Sample.request Sample.gateway_spent
              (1 # 2) (4 # 8)
              (snd (check_rate_limit (1 # 2) (1 # 2) (1 # 2) "alice" FREE 1
                      (limiter Sample.gateway_spent))))
    as (_ & Happ & _ & record & Hlog & _).
  - vm_compute. reflexivity.
  - apply injective_projections; [vm_compute; reflexivity | reflexivity].
  - split; [rewrite Happ; reflexivity|]. rewrite Hlog. reflexivity.
Defined.

Lemma allowed_request_gets_remaining_header_witness :
  exists response,
    fst (dispatch unit Sample.re_match Sample.gateway_config
           Sample.tier_resolver Sample.call_next Sample.same_instant
           Sample.request Sample.gateway_low) = Ok response
    /\ Http.status_code response = 200%Z
    /\ headers_get "x-ratelimit-remaining" (resp_headers response) = Some "2".
Proof.
  destruct (allowed_request_gets_remaining_header unit Sample.re_match
              Sample.gateway_config Sample.tier_resolver Sample.call_next
              Sample.same_instant Sample.request Sample.gateway_low
              0 (inject_Z 2)
              (snd (check_rate_limit 0 0 0 "alice" FREE 1
                      (limiter Sample.gateway_low))))
    as [Hok _].
  - vm_compute. reflexivity.
  - apply injective_projections; [vm_compute; reflexivity | reflexivity].
  - edestruct Hok as (response' & record & Hres & Hstatus & _ & Hhdr & _);
      [reflexivity|].
    exists response'. split; [exact Hres|]. split; [exact Hstatus|].
    transitivity (headers_get "X-RateLimit-Remaining" (resp_headers response'));
      [|rewrite Hhdr; vm_compute; reflexivity].
    destruct response' as [c s hs]. cbn [resp_headers].
    clear. induction hs as [|[k v] rest IH]; [reflexivity|].
    cbn [headers_get]. rewrite IH. reflexivity.
Defined.

End DispatchWitnesses.

(** ** The tier store *)

Section TierStoreFacts.
Import Models TierStore.

(** X27. The tier store answers FREE for a client it does not know,
    answers the tier last set for a client, and answers FREE again once
    the client is removed; setting or removing one client does not change
    the answer for another. *)
Theorem tier_store_defaults_to_free
    (client_id : string) (tier : ClientTier) (tiers : gmap string ClientTier) :
  get_tier client_id ∅ = FREE
  /\ get_tier client_id (set_tier client_id tier tiers) = tier
  /\ get_tier client_id (remove_client client_id (set_tier client_id tier tiers))
     = FREE
  /\ (forall other, other <> client_id ->
        get_tier other (set_tier client_id tier tiers) = get_tier other tiers
        /\ get_tier other (remove_client client_id tiers) = get_tier other tiers).
Proof.
  unfold get_tier, set_tier, remove_client.
  split; [rewrite lookup_empty; reflexivity|].
  split; [rewrite lookup_insert_eq; reflexivity|].
  split; [rewrite lookup_delete_eq; reflexivity|].
  intros other Hne.
  rewrite lookup_insert_ne, lookup_delete_ne by congruence. auto.
Qed.

Lemma tier_store_defaults_to_free_witness :
  get_tier "bob" (set_tier "alice" PREMIUM ∅) = FREE
  /\ get_tier "alice" (set_tier "alice" PREMIUM ∅) = PREMIUM.
Proof.
  destruct (tier_store_defaults_to_free "alice" PREMIUM ∅)
    as (Hempty & Hset & _ & Hother).
  split; [|exact Hset].
  destruct (Hother "bob") as [-> _]; [discriminate|].
  apply (tier_store_defaults_to_free "bob" PREMIUM ∅).
Defined.

End TierStoreFacts.

(** ** The metrics collector *)

Section MetricsFacts.
Import Metrics MetricsAgg.
Local Open Scope Q_scope.

Lemma sublist_List_filter {A : Type} (f : A -> bool) (l : list A) :
  sublist (List.filter f l) l.
Proof.
  induction l as [|x l IH]; [constructor|]. cbn [List.filter].
  destruct (f x); [apply sublist_skip|apply sublist_cons]; exact IH.
Qed.

(** X28. [record_request] appends the record; only when the list length
    reaches a multiple of 1000 does it also drop records, and then exactly
    those stamped at or before the cleanup reading minus the retention.
    The order of the kept records is unchanged, and the new record is the
    last one whenever its stamp is inside the retention. *)
Theorem record_request_appends_and_prunes
    (t_stamp t_cleanup : Q) (cid pth mth : string) (status : Z)
    (latency : Q) (limited : bool) (c : MetricsCollector) :
  let metric :=
    {| timestamp := t_stamp; client_id := cid; path := pth; method := mth;
       status_code := status; latency_ms := latency;
       rate_limited := limited; service := None; error := None |} in
  let c' := record_request t_stamp t_cleanup cid pth mth status latency
                           limited c in
  let cutoff := t_cleanup - inject_Z (_retention_seconds c) in
  ((Z.of_nat (length (_metrics c) + 1) mod 1000 <> 0)%Z ->
   _metrics c' = _metrics c ++ [metric])
  /\ ((Z.of_nat (length (_metrics c) + 1) mod 1000 = 0)%Z ->
      _metrics c'
      = List.filter (fun x => Py.ltb cutoff (timestamp x))
                    (_metrics c ++ [metric]))
  /\ sublist (_metrics c') (_metrics c ++ [metric])
  /\ (forall x, In x (_metrics c ++ [metric]) -> ~ In x (_metrics c') ->
        timestamp x <= cutoff)
  /\ (cutoff < t_stamp -> last (_metrics c') = Some metric)
  /\ _retention_seconds c' = _retention_seconds c.
Proof.
  intros metric c' cutoff. subst c'. unfold record_request.
  fold metric. cbn [_metrics].
  rewrite length_app. cbn [length].
  destruct (Z.eqb_spec (Z.of_nat (length (_metrics c) + 1) mod 1000) 0)
    as [Hz|Hnz].
  - unfold _cleanup_old_metrics. cbn [_metrics _retention_seconds].
    fold cutoff.
    split; [intros Habs; contradiction|]. split; [reflexivity|].
    split; [apply sublist_List_filter|].
    split.
    + intros x Hin Hnin. apply ltb_ge.
      destruct (Py.ltb cutoff (timestamp x)) eqn:E; [|reflexivity].
      exfalso. apply Hnin. apply filter_In. auto.
    + split; [|reflexivity]. intros Hlt.
      rewrite List.filter_app. cbn [List.filter timestamp metric].
      apply ltb_lt in Hlt. rewrite Hlt. apply last_snoc.
  - cbn [_metrics _retention_seconds].
    split; [reflexivity|]. split; [intros Habs; contradiction|].
    split; [reflexivity|]. split; [intros x Hin Hnin; contradiction|].
    split; [|reflexivity]. intros _. apply last_snoc.
Qed.


Lemma record_request_appends_and_prunes_witness :
  length (_metrics (record_request 5000 5000 "bob" "/api/v1/items" "GET" 200 7
                      false Sample.collector_999)) = 1%nat
  /\ length (_metrics (record_request 5000 5000 "bob" "/api/v1/items" "GET" 200
                         7 false Sample.collector)) = 6%nat.
Proof.
  destruct (record_request_appends_and_prunes 5000 5000 "bob" "/api/v1/items"
              "GET" 200 7 false Sample.collector_999) as (_ & Hprune & _).
  destruct (record_request_appends_and_prunes 5000 5000 "bob" "/api/v1/items"
              "GET" 200 7 false Sample.collector) as (Happend & _).
  split.
  - rewrite Hprune; vm_compute; reflexivity.
  - rewrite Happend; [reflexivity|]. vm_compute. discriminate.
Defined.

Lemma bump_lookup (key other : string) (d : gmap string Z) :
  default 0%Z (bump key d !! other)
  = (default 0 (d !! other) + if String.eqb key other then 1 else 0)%Z.
Proof.
  unfold bump. destruct (String.eqb_spec key other) as [->|Hne].
  - rewrite lookup_insert_eq. reflexivity.
  - rewrite lookup_insert_ne by exact Hne. cbn. lia.
Qed.

Lemma fold_add_metric (rs : list RequestMetric) : forall agg : AggregatedMetrics,
  let agg' := fold_left add_metric rs agg in
  total_requests agg' = total_requests agg
  /\ (successful_requests agg' + failed_requests agg'
      = successful_requests agg + failed_requests agg + Z.of_nat (length rs))%Z
  /\ (successful_requests agg <= successful_requests agg')%Z
  /\ (failed_requests agg <= failed_requests agg')%Z
  /\ (rate_limited_requests agg' - rate_limited_requests agg
      = Z.of_nat (length (List.filter rate_limited rs)))%Z
  /\ latencies agg' = latencies agg ++ List.map latency_ms rs
  /\ (forall cid,
        default 0%Z (requests_by_client agg' !! cid)
        = (default 0 (requests_by_client agg !! cid) + count_client cid rs)%Z)
  /\ (forall cid,
        default 0%Z (rate_limit_hits_by_client agg' !! cid)
        = (default 0 (rate_limit_hits_by_client agg !! cid)
           + count_client cid (List.filter rate_limited rs))%Z).
Proof.
  induction rs as [|m rs IH]; intros agg.
  - cbn. rewrite app_nil_r. unfold count_client. cbn.
    repeat split; try reflexivity; try lia; intros; lia.
  - cbn [fold_left]. specialize (IH (add_metric agg m)). cbv zeta in IH |- *.
    destruct IH as (I1 & I2 & I3 & I4 & I5 & I6 & I7 & I8).
    rewrite I1, I6. cbn [length List.filter List.map].
    cbn [add_metric total_requests successful_requests failed_requests
         rate_limited_requests latencies requests_by_client
         rate_limit_hits_by_client] in *.
    split; [reflexivity|].
    split; [destruct ((200 <=? status_code m) && (status_code m <? 400))%Z%bool; lia|].
    split; [destruct ((200 <=? status_code m) && (status_code m <? 400))%Z%bool; lia|].
    split; [destruct ((200 <=? status_code m) && (status_code m <? 400))%Z%bool; lia|].
    split; [destruct (rate_limited m); cbn [length]; lia|].
    split; [rewrite <- app_assoc; reflexivity|].
    split.
    + intros cid. rewrite I7, bump_lookup. unfold count_client.
      cbn [List.filter]. destruct (String.eqb (client_id m) cid);
        cbn [length]; lia.
    + intros cid. rewrite I8. unfold count_client.
      destruct (rate_limited m); cbn [List.filter]; [|reflexivity].
      rewrite bump_lookup.
      destruct (String.eqb (client_id m) cid); cbn [length]; lia.
Qed.

(** X29. The aggregate over a window counts the records stamped after the
    start of the window, each once: the total is their number and splits
    into successful (status 200 to 399) and failed; the rate-limited count
    is the number of flagged records and is at most the total; the latency
    list holds their latencies in order; and the per-client request and
    rate-limit-hit counts are the numbers of records, respectively flagged
    records, of that client. *)
Theorem aggregate_counts_window_records
    (now : Q) (window_seconds : option Z) (c : MetricsCollector) :
  let rs := recent now window_seconds c in
  let agg := get_aggregated_metrics now window_seconds c in
  total_requests agg = Z.of_nat (length rs)
  /\ (successful_requests agg + failed_requests agg = total_requests agg)%Z
  /\ (0 <= successful_requests agg)%Z /\ (0 <= failed_requests agg)%Z
  /\ rate_limited_requests agg = Z.of_nat (length (List.filter rate_limited rs))
  /\ (0 <= rate_limited_requests agg <= total_requests agg)%Z
  /\ latencies agg = List.map latency_ms rs
  /\ (forall cid,
        default 0%Z (requests_by_client agg !! cid)
        = Z.of_nat (length (List.filter
                              (fun m => String.eqb (client_id m) cid) rs)))
  /\ (forall cid,
        default 0%Z (rate_limit_hits_by_client agg !! cid)
        = Z.of_nat (length (List.filter
                              (fun m => String.eqb (client_id m) cid)
                              (List.filter rate_limited rs))))
  /\ (forall m, In m rs -> In m (_metrics c)).
Proof.
  intros rs agg. subst agg. unfold get_aggregated_metrics. fold rs.
  destruct (fold_add_metric rs (empty_agg (Z.of_nat (length rs))))
    as (I1 & I2 & I3 & I4 & I5 & I6 & I7 & I8).
  cbn [empty_agg total_requests successful_requests failed_requests
       rate_limited_requests latencies requests_by_client
       rate_limit_hits_by_client] in *.
  assert (Hlen : (length (List.filter rate_limited rs) <= length rs)%nat)
    by apply List.filter_length_le.
  split; [exact I1|]. split; [lia|]. split; [lia|]. split; [lia|].
  split; [lia|]. split; [lia|]. split; [exact I6|].
  split; [intros cid; rewrite I7, lookup_empty; cbn; unfold count_client; lia|].
  split; [intros cid; rewrite I8, lookup_empty; cbn; unfold count_client; lia|].
  intros m Hm. unfold rs, recent in Hm. apply filter_In in Hm. tauto.
Qed.

Lemma aggregate_counts_window_records_witness :
  total_requests (get_aggregated_metrics 4100 (Some 300%Z) Sample.collector) = 4%Z
  /\ default 0%Z (requests_by_client
                    (get_aggregated_metrics 4100 (Some 300%Z) Sample.collector)
                  !! "bob") = 2%Z.
Proof.
  destruct (aggregate_counts_window_records 4100 (Some 300%Z) Sample.collector)
    as (Htotal & _ & _ & _ & _ & _ & _ & Hclient & _).
  split.
  - rewrite Htotal. vm_compute. reflexivity.
  - rewrite Hclient. vm_compute. reflexivity.
Defined.


Lemma insert_sorted_In (x z : Q) (l : list Q) :
  In z (insert_sorted x l) <-> z = x \/ In z l.
Proof.
  induction l as [|y rest IH]; cbn [insert_sorted].
  - cbn. intuition.
  - destruct (Py.ltb y x); cbn [In]; [rewrite IH|]; intuition.
Qed.

Lemma sorted_In (z : Q) (l : list Q) : In z (sorted l) <-> In z l.
Proof.
  unfold sorted. induction l as [|x rest IH]; [reflexivity|].
  cbn [foldr]. rewrite insert_sorted_In, IH. cbn. intuition.
Qed.

Lemma length_insert_sorted (x : Q) (l : list Q) :
  length (insert_sorted x l) = S (length l).
Proof.
  induction l as [|y rest IH]; [reflexivity|]. cbn [insert_sorted].
  destruct (Py.ltb y x); cbn [length]; [rewrite IH|]; reflexivity.
Qed.

Lemma length_sorted (l : list Q) : length (sorted l) = length l.
Proof.
  unfold sorted. induction l as [|x rest IH]; [reflexivity|].
  cbn [foldr length]. rewrite length_insert_sorted, IH. reflexivity.
Qed.

Lemma insert_sorted_sorted (x : Q) (l : list Q) :
  StronglySorted Qle l -> StronglySorted Qle (insert_sorted x l).
Proof.
  induction 1 as [|y rest Hs IH Hall]; cbn [insert_sorted].
  - constructor; constructor.
  - destruct (Py.ltb y x) eqn:E.
    + apply ltb_lt in E. constructor; [exact IH|].
      apply Forall_forall. intros z Hz. apply list_elem_of_In in Hz.
      apply insert_sorted_In in Hz as [->|Hz]; [lra|].
      rewrite Forall_forall in Hall. apply Hall, list_elem_of_In. exact Hz.
    + apply ltb_ge in E. constructor; [constructor; assumption|].
      constructor; [exact E|].
      apply Forall_forall. intros z Hz. rewrite Forall_forall in Hall.
      specialize (Hall z Hz). lra.
Qed.

Lemma sorted_is_sorted (l : list Q) : StronglySorted Qle (sorted l).
Proof.
  unfold sorted. induction l as [|x rest IH]; [constructor|].
  cbn [foldr]. apply insert_sorted_sorted. exact IH.
Qed.

Lemma sorted_nth_le (l : list Q) :
  StronglySorted Qle l ->
  forall i j x y, (i <= j)%nat ->
    nth_error l i = Some x -> nth_error l j = Some y -> x <= y.
Proof.
  induction 1 as [|z rest Hs IH Hall]; intros i j x y Hij Hx Hy.
  - destruct i; discriminate.
  - destruct i as [|i], j as [|j]; cbn in Hx, Hy.
    + injection Hx as <-. injection Hy as <-. lra.
    + injection Hx as <-. rewrite Forall_forall in Hall.
      apply Hall, list_elem_of_In. eapply nth_error_In. exact Hy.
    + lia.
    + apply (IH i j); [lia|assumption|assumption].
Qed.

Lemma index_in_range (l : list Q) (i : Z) :
  (0 <= i < Z.of_nat (length l))%Z ->
  exists x, index l i = Found x /\ nth_error l (Z.to_nat i) = Some x.
Proof.
  intros Hi. unfold index.
  replace (i <? 0)%Z with false by (symmetry; apply Z.ltb_ge; lia).
  replace ((0 <=? i) && (i <? Z.of_nat (length l)))%Z%bool with true.
  - destruct (nth_error l (Z.to_nat i)) as [x|] eqn:E; [eauto|].
    apply nth_error_None in E. lia.
  - symmetry. apply andb_true_iff. split; [apply Z.leb_le|apply Z.ltb_lt]; lia.
Qed.

(** The index [get_percentile_latency] reads, for a percentile that is
    not negative. *)
Lemma percentile_index (n : nat) (p : Q) :
  (0 < n)%nat -> 0 <= p ->
  let i := Z.min (Py.int (inject_Z (Z.of_nat n) * p / 100)) (Z.of_nat n - 1) in
  (0 <= i < Z.of_nat n)%Z
  /\ i = Z.min (Qfloor (inject_Z (Z.of_nat n) * p / 100)) (Z.of_nat n - 1)
  /\ (100 <= p -> i = (Z.of_nat n - 1)%Z)
  /\ (p == 0 -> i = 0%Z).
Proof.
  intros Hn Hp.
  assert (Hnq : 0 < inject_Z (Z.of_nat n)).
  { unfold Qlt. simpl. lia. }
  assert (Hx : 0 <= inject_Z (Z.of_nat n) * p / 100).
  { unfold Qdiv. apply Qmult_le_0_compat; [|discriminate].
    apply Qmult_le_0_compat; lra. }
  cbv zeta. rewrite (int_floor _ Hx).
  assert (Hf0 : (0 <= Qfloor (inject_Z (Z.of_nat n) * p / 100))%Z).
  { change 0%Z with (Qfloor 0). apply Qfloor_resp_le. exact Hx. }
  split; [lia|]. split; [reflexivity|]. split.
  - intros H100.
    assert (inject_Z (Z.of_nat n) <= inject_Z (Z.of_nat n) * p / 100).
    { apply Qle_shift_div_l; [reflexivity|].
      apply Qmult_le_l; [exact Hnq|exact H100]. }
    assert ((Z.of_nat n <= Qfloor (inject_Z (Z.of_nat n) * p / 100))%Z).
    { rewrite <- (Qfloor_Z (Z.of_nat n)) at 1. apply Qfloor_resp_le.
      assumption. }
    lia.
  - intros H0.
    assert (Hz : inject_Z (Z.of_nat n) * p / 100 == 0)
      by (rewrite H0; field).
    rewrite Hz. change (Qfloor 0) with 0%Z. lia.
Qed.

(** X30. Over an empty window the percentile latency is 0. Over any other
    window, for a percentile that is not negative, it is one of the
    latencies of the window; it does not decrease when the percentile
    grows; at percentile 0 it is the smallest latency of the window and
    from percentile 100 on the largest. *)
Theorem percentile_is_an_observed_latency
    (now : Q) (p q : Q) (window_seconds : Z) (c : MetricsCollector) :
  let lat := latencies (get_aggregated_metrics now (Some window_seconds) c) in
  (lat = [] -> get_percentile_latency now p window_seconds c = Found 0)
  /\ (lat <> [] -> 0 <= p ->
      exists x,
        get_percentile_latency now p window_seconds c = Found x
        /\ In x lat
        /\ (p <= q ->
            exists y, get_percentile_latency now q window_seconds c = Found y
                      /\ x <= y)
        /\ (p == 0 -> forall z, In z lat -> x <= z)
        /\ (100 <= p -> forall z, In z lat -> z <= x)).
Proof.
  intros lat. unfold get_percentile_latency. fold lat. split.
  - intros ->. reflexivity.
  - intros Hne Hp. destruct lat as [|l0 lrest] eqn:Hlat; [congruence|].
    rewrite <- Hlat in *. clear Hne.
    rewrite length_sorted.
    assert (Hn : (0 < length lat)%nat) by (rewrite Hlat; cbn; lia).
    destruct (percentile_index (length lat) p Hn Hp) as (Hr & Hi & H100 & H0).
    cbv zeta in Hr, Hi, H100, H0.
    set (i := Z.min (Py.int (inject_Z (Z.of_nat (length lat)) * p / 100))
                    (Z.of_nat (length lat) - 1)) in *.
    destruct (index_in_range (sorted lat) i) as (x & Hx & Hnth);
      [rewrite length_sorted; exact Hr|].
    exists x. split; [exact Hx|].
    split; [apply sorted_In; eapply nth_error_In; exact Hnth|].
    split; [|split].
    + intros Hpq.
      assert (Hq : 0 <= q) by lra.
      destruct (percentile_index (length lat) q Hn Hq) as (Hr' & Hi' & _ & _).
      cbv zeta in Hr', Hi'.
      set (j := Z.min (Py.int (inject_Z (Z.of_nat (length lat)) * q / 100))
                      (Z.of_nat (length lat) - 1)) in *.
      destruct (index_in_range (sorted lat) j) as (y & Hy & Hnth');
        [rewrite length_sorted; exact Hr'|].
      exists y. split; [exact Hy|].
      apply (sorted_nth_le (sorted lat) (sorted_is_sorted lat)
               (Z.to_nat i) (Z.to_nat j)); [|assumption|assumption].
      assert ((Qfloor (inject_Z (Z.of_nat (length lat)) * p / 100)
               <= Qfloor (inject_Z (Z.of_nat (length lat)) * q / 100))%Z).
      { apply Qfloor_resp_le. unfold Qdiv.
        apply Qmult_le_compat_r; [|discriminate].
        apply Qmult_le_l; [unfold Qlt; simpl; lia|exact Hpq]. }
      lia.
    + intros Hz z Hin. apply sorted_In in Hin.
      apply In_nth_error in Hin as [k Hk].
      apply (sorted_nth_le (sorted lat) (sorted_is_sorted lat)
               (Z.to_nat i) k); [|assumption|assumption].
      rewrite (H0 Hz). cbn. lia.
    + intros Hbig z Hin. apply sorted_In in Hin.
      apply In_nth_error in Hin as [k Hk].
      assert (k < length (sorted lat))%nat
        by (apply nth_error_Some; congruence).
      rewrite length_sorted in *.
      apply (sorted_nth_le (sorted lat) (sorted_is_sorted lat)
               k (Z.to_nat i)); [|assumption|assumption].
      rewrite (H100 Hbig). lia.
Qed.

Lemma percentile_is_an_observed_latency_witness :
  get_percentile_latency 4100 50 300 Sample.collector = Found 20
  /\ get_percentile_latency 4100 100 300 Sample.collector = Found 40
  /\ exists x, get_percentile_latency 4100 0 300 Sample.collector = Found x
               /\ x <= 20.
Proof.
  split; [vm_compute; reflexivity|]. split; [vm_compute; reflexivity|].
  destruct (percentile_is_an_observed_latency 4100 0 50 300 Sample.collector)
    as [_ Hsome].
  destruct Hsome as (x & Hx & _ & Hmono & _);
    [vm_compute; discriminate|vm_compute; discriminate|].
  exists x. split; [exact Hx|].
  destruct Hmono as (y & Hy & Hle); [vm_compute; discriminate|].
  assert (Hy20 : get_percentile_latency 4100 50 300 Sample.collector = Found 20)
    by (vm_compute; reflexivity).
  rewrite Hy20 in Hy. injection Hy as <-. exact Hle.
Defined.

End MetricsFacts.
